(** * picca: post-processing of one-dimensional power spectra

    A shallow embedding of [py/picca/pk1d/postproc_pk1d.py]: the reader
    of the chunks of a file ([read_pk1d]), the binned aggregation
    ([compute_mean_pk1d], [fill_average_pk_redshift]) and the covariance
    estimator ([compute_cov]); and of the command line that calls it,
    [bin/picca_Pk1D_postprocess.py] ([define_wavenumber_array], [main]);
    followed by the properties of these functions.

    Numbers.  The program computes on numpy [float64] arrays.  The
    embedding is written once over an interface [Arith] of the scalar
    operations the program uses, and is read at two instances:
    - [float_arith], IEEE binary64 through Rocq's primitive floats, which
      evaluates the program on concrete tables;
    - [Rx_arith], exact real arithmetic with one undefined value standing
      for NaN, in which algebraic identities between estimators hold
      (no rounding, and a division by zero is undefined rather than
      infinite).

    Arrays are lists, a table is a collection of named columns, Python
    exceptions are the left summand of [res].  Sums of arrays follow
    numpy's pairwise summation. *)

From Stdlib Require Import Floats Reals ZArith Lra Lia Bool Ascii String Sorted.
From stdpp Require Import gmap strings list pretty.

Set Warnings "-inexact-float".

Local Open Scope Z_scope.

(** ** Exceptions *)

Inductive exn : Type :=
| ValueError
| RuntimeError
| KeyError
| IndexError
| ZeroDivisionError
| TypeError.

(** A computation that returns a value or raises. *)
Definition res (A : Type) : Type := (exn + A)%type.

Definition ret {A} (a : A) : res A := inr a.
Definition raise {A} (e : exn) : res A := inl e.

Definition bind {A B} (m : res A) (k : A → res B) : res B :=
  match m with
  | inl e => inl e
  | inr a => k a
  end.

Notation "'let*' x ':=' m 'in' k" := (bind m (fun x => k))
  (at level 10, x pattern, m at level 100, k at level 200).

Definition raises {A} (m : res A) : Prop := ∃ e, m = inl e.
Definition returns {A} (m : res A) : Prop := ∃ a, m = inr a.

(** Left-to-right loop whose body may raise: the first exception ends it. *)
Fixpoint foldM {A S} (body : S → A → res S) (s : S) (l : list A) : res S :=
  match l with
  | [] => ret s
  | a :: l' => let* s' := body s a in foldM body s' l'
  end.

(** ** Scalar arithmetic *)

Class Arith (F : Type) : Type := {
  fadd : F → F → F;
  fsub : F → F → F;
  fmul : F → F → F;
  fdiv : F → F → F;
  fsqrt : F → F;
  fabs : F → F;
  fltb : F → F → bool;
  fleb : F → F → bool;
  feqb : F → F → bool;
  fnan : F;
  of_Z : Z → F
}.

Declare Scope arith_scope.
Delimit Scope arith_scope with A.
Infix "⊕" := fadd (at level 50, left associativity) : arith_scope.
Infix "⊖" := fsub (at level 50, left associativity) : arith_scope.
Infix "⊗" := fmul (at level 40, left associativity) : arith_scope.
Infix "⊘" := fdiv (at level 40, left associativity) : arith_scope.
Infix "≺" := fltb (at level 70, no associativity) : arith_scope.
Infix "≼" := fleb (at level 70, no associativity) : arith_scope.
Infix "≗" := feqb (at level 70, no associativity) : arith_scope.
Local Open Scope arith_scope.

(** *** IEEE binary64 *)

Definition float_of_Z (z : Z) : float :=
  match z with
  | Z0 => PrimFloat.zero
  | Zpos _ => PrimFloat.of_uint63 (Uint63.of_Z z)
  | Zneg p => PrimFloat.opp (PrimFloat.of_uint63 (Uint63.of_Z (Zpos p)))
  end.

#[export] Instance float_arith : Arith float := {
  fadd := PrimFloat.add;
  fsub := PrimFloat.sub;
  fmul := PrimFloat.mul;
  fdiv := PrimFloat.div;
  fsqrt := PrimFloat.sqrt;
  fabs := PrimFloat.abs;
  fltb := PrimFloat.ltb;
  fleb := PrimFloat.leb;
  feqb := PrimFloat.eqb;
  fnan := PrimFloat.nan;
  of_Z := float_of_Z
}.

(** *** Exact reals with an undefined value *)

Definition Rx : Type := option R.

Definition Rx_lift2 (op : R → R → R) (x y : Rx) : Rx :=
  match x, y with
  | Some a, Some b => Some (op a b)
  | _, _ => None
  end.

Definition Rx_div (x y : Rx) : Rx :=
  match x, y with
  | Some a, Some b => if Req_dec_T b 0 then None else Some (a / b)%R
  | _, _ => None
  end.

Definition Rx_sqrt (x : Rx) : Rx :=
  match x with
  | Some a => if Rlt_dec a 0 then None else Some (sqrt a)
  | None => None
  end.

Definition Rx_cmp (P : R → R → Prop) (dec : ∀ a b, {P a b} + {¬ P a b})
    (x y : Rx) : bool :=
  match x, y with
  | Some a, Some b => if dec a b then true else false
  | _, _ => false
  end.

#[export] Instance Rx_arith : Arith Rx := {
  fadd := Rx_lift2 Rplus;
  fsub := Rx_lift2 Rminus;
  fmul := Rx_lift2 Rmult;
  fdiv := Rx_div;
  fsqrt := Rx_sqrt;
  fabs := option_map Rabs;
  fltb := Rx_cmp Rlt Rlt_dec;
  fleb := Rx_cmp Rle Rle_dec;
  feqb := Rx_cmp eq Req_dec_T;
  fnan := None;
  of_Z := fun z => Some (IZR z)
}.

(** ** numpy on one-dimensional arrays *)

Section Numpy.
Context {F : Type} `{Arith F}.

(** [np.isnan]: a NaN is the only value that differs from itself. *)
Definition fis_nan (x : F) : bool := negb (x ≗ x).

(** [np.isfinite]: [x - x] is zero exactly for finite [x]. *)
Definition fis_finite (x : F) : bool := (x ⊖ x) ≗ of_Z 0.

(** A decimal literal [n/d] of the source, correctly rounded. *)
Definition flit (n : Z) (d : positive) : F := of_Z n ⊘ of_Z (Zpos d).

Definition of_nat (n : nat) : F := of_Z (Z.of_nat n).

(** [acc += x] for every [x] of [a], from left to right. *)
Definition add_loop (acc : F) (a : list F) : F := fold_left fadd a acc.

(** numpy adds the entries of a contiguous array with [pairwise_sum]
    (umath/loops_utils.h.src).  Below 8 entries it adds
    from left to right.  Up to 128 entries it keeps eight running sums
    [r[0..7]], started with the first eight entries, and adds the
    entries [a[i + j]] of every further block of eight to [r[j]]: *)
Fixpoint lanes (blocks : nat) (r a : list F) : list F :=
  match blocks with
  | O => r
  | S m => lanes m (zip_with fadd r (take 8 a)) (drop 8 a)
  end.

(** [((r[0] + r[1]) + (r[2] + r[3])) + ((r[4] + r[5]) + (r[6] + r[7]))];
    [r] has eight entries. *)
Definition lanes_sum (r : list F) : F :=
  match r with
  | [r0; r1; r2; r3; r4; r5; r6; r7] =>
      ((r0 ⊕ r1) ⊕ (r2 ⊕ r3)) ⊕ ((r4 ⊕ r5) ⊕ (r6 ⊕ r7))
  | _ => add_loop (of_Z 0) r
  end.

(** the entries after the last full block of eight are then added to
    the sum of the eight, from left to right. *)
Definition block_sum (a : list F) : F :=
  let n := length a in
  if (n <? 8)%nat then add_loop (of_Z 0) a
  else
    let r := lanes (n / 8 - 1) (take 8 a) (drop 8 a) in
    add_loop (lanes_sum r) (drop (n - n mod 8) a).

(** Above 128 entries the array is cut at [n2], half its length brought
    down to a multiple of 8, and the sums of the two parts are added.
    [depth] bounds the number of cuts; the length of the array is
    enough ([pairwise_sum_depth]). *)
Fixpoint pairwise_sum (depth : nat) (a : list F) : F :=
  match depth with
  | O => block_sum a
  | S d =>
      let n := length a in
      if (128 <? n)%nat then
        let n2 := (n / 2 - (n / 2) mod 8)%nat in
        pairwise_sum d (take n2 a) ⊕ pairwise_sum d (drop n2 a)
      else block_sum a
  end.

(** [np.sum], [np.add.reduce]: the pairwise sum of the array is added
    to the identity [0.]. *)
Definition np_sum (a : list F) : F := of_Z 0 ⊕ pairwise_sum (length a) a.

Definition np_mean (a : list F) : F := np_sum a ⊘ of_nat (length a).

(** [np.std] with its default [ddof=0]. *)
Definition np_std (a : list F) : F :=
  let m := np_mean a in
  let x := map (fun v => v ⊖ m) a in
  fsqrt (np_sum (map (fun d => d ⊗ d) x) ⊘ of_nat (length a)).

(** [np.nansum]: NaN entries count as zero. *)
Definition np_nansum (a : list F) : F :=
  np_sum (map (fun v => if fis_nan v then of_Z 0 else v) a).

(** Element-wise binary operation; numpy refuses operands of different
    lengths when neither is a scalar. *)
Definition np_zip (op : F → F → F) (a b : list F) : res (list F) :=
  if decide (length a = length b) then ret (zip_with op a b)
  else raise ValueError.

(** [np.average(a, weights=w)]. *)
Definition np_average (a w : list F) : res F :=
  if decide (length a = length w) then
    let scl := np_sum w in
    if scl ≗ of_Z 0 then raise ZeroDivisionError
    else ret (np_sum (zip_with fmul a w) ⊘ scl)
  else raise TypeError.

(** [np.minimum] and [np.maximum] return NaN when either side is NaN. *)
Definition fmin (x y : F) : F :=
  if fis_nan x then x else if fis_nan y then y
  else if y ≺ x then y else x.

Definition fmax (x y : F) : F :=
  if fis_nan x then x else if fis_nan y then y
  else if x ≺ y then y else x.

Definition np_min (a : list F) : res F :=
  match a with
  | [] => raise ValueError
  | x :: a' => ret (fold_left fmin a' x)
  end.

Definition np_max (a : list F) : res F :=
  match a with
  | [] => raise ValueError
  | x :: a' => ret (fold_left fmax a' x)
  end.

Fixpoint insert_sorted (x : F) (l : list F) : list F :=
  match l with
  | [] => [x]
  | y :: l' => if x ≼ y then x :: l else y :: insert_sorted x l'
  end.

Definition np_sort (a : list F) : list F := foldr insert_sorted [] a.

(** [np.median]: NaN as soon as one entry is NaN, otherwise the middle
    of the sorted array (the mean of the two middle entries for an even
    length; NaN for an empty array). *)
Definition np_median (a : list F) : F :=
  if existsb fis_nan a then fnan
  else
    let s := np_sort a in
    let n := length a in
    if Nat.even n then
      match s !! (n / 2 - 1)%nat, s !! (n / 2)%nat with
      | Some x, Some y => np_mean [x; y]
      | _, _ => fnan
      end
    else default fnan (s !! (n / 2)%nat).

(** [np.isclose(x, y, rtol, atol)] and [np.allclose(a, y, atol=atol)]
    with the default [rtol = 1e-5]. *)
Definition np_isclose (rtol atol x y : F) : bool :=
  if fis_finite x && fis_finite y
  then fabs (x ⊖ y) ≼ (atol ⊕ rtol ⊗ fabs y)
  else x ≗ y.

Definition np_allclose (a : list F) (y : F) (atol : F) : bool :=
  forallb (fun x => np_isclose (flit 1 100000) atol x y) a.
End Numpy.
Arguments np_sum : simpl never.

(** ** Python indexing *)

(** [l[i]] for a non-negative index. *)
Definition py_get {A} (l : list A) (i : nat) : res A :=
  match l !! i with
  | Some x => ret x
  | None => raise IndexError
  end.

(** [l[i] = v] for a non-negative index. *)
Definition py_set {A} (l : list A) (i : nat) (v : A) : res (list A) :=
  if decide (i < length l)%nat then ret (<[i := v]> l) else raise IndexError.

(** Position denoted by a signed index: negative indices count from the
    end, anything outside [-len, len) raises. *)
Definition py_index (len : nat) (i : Z) : res nat :=
  if decide (0 ≤ i < Z.of_nat len) then ret (Z.to_nat i)
  else if decide (- Z.of_nat len ≤ i < 0) then ret (Z.to_nat (Z.of_nat len + i))
  else raise IndexError.

(** [l[lo:hi] = v] with a scalar [v]: the slice is clipped to the array. *)
Definition set_slice {A} (l : list A) (lo hi : nat) (v : A) : list A :=
  imap (fun p x => if (lo <=? p)%nat && (p <? hi)%nat then v else x) l.

(** [a[m]] for a boolean mask [m] over the rows of [a]. *)
Fixpoint mask {A} (a : list A) (m : list bool) : list A :=
  match a, m with
  | x :: a', b :: m' => if b then x :: mask a' m' else mask a' m'
  | _, _ => []
  end.

(** [enumerate(l)]. *)
Definition enumerate {A} (l : list A) : list (nat * A) :=
  imap (fun i x => (i, x)) l.

(** ** Tables *)

(** Named columns in the order of the table. *)
Fixpoint alist_get {A} (l : list (string * A)) (name : string) : option A :=
  match l with
  | [] => None
  | (n, v) :: l' => if String.eqb n name then Some v else alist_get l' name
  end.

Fixpoint alist_set {A} (l : list (string * A)) (name : string) (v : A)
    : list (string * A) :=
  match l with
  | [] => [(name, v)]
  | (n, w) :: l' =>
      if String.eqb n name then (n, v) :: l' else (n, w) :: alist_set l' name v
  end.

(** The stacked table of chunk samples: its floating-point columns
    (['k'], ['Pk'], ['Pk_raw'], ..., ['forest_z'], ['forest_snr']), the
    integer column ['forest_id'] and, when the files carry a chunk
    identifier, the string column ['sub_forest_id']. *)
Record P1DTable (F : Type) : Type := {
  cols : list (string * list F);
  forest_id : list Z;
  sub_forest_id : option (list string)
}.
Arguments cols {F} _.
Arguments forest_id {F} _.
Arguments sub_forest_id {F} _.

Definition col_get {F} (t : P1DTable F) (name : string) : res (list F) :=
  match alist_get (cols t) name with
  | Some c => ret c
  | None => raise KeyError
  end.

Definition col_set {F} (t : P1DTable F) (name : string) (c : list F)
    : P1DTable F :=
  {| cols := alist_set (cols t) name c;
     forest_id := forest_id t;
     sub_forest_id := sub_forest_id t |}.

(** [p1d_table.colnames] without ['forest_id'] and ['sub_forest_id']. *)
Definition colnames_stats {F} (t : P1DTable F) : list string :=
  map fst (cols t).

(** The table of statistics, one row per (z, k) cell; [stat] holds the
    columns [stats + col]. *)
Record MeanTable (F : Type) : Type := {
  zbin : list F;
  index_zbin : list Z;
  N : list Z;
  stat : gmap string (list F)
}.
Arguments zbin {F} _.
Arguments index_zbin {F} _.
Arguments N {F} _.
Arguments stat {F} _.

(** [mean_p1d_table[name][index] = v]. *)
Definition stat_set {F} (T : MeanTable F) (name : string) (index : nat) (v : F)
    : res (MeanTable F) :=
  match stat T !! name with
  | None => raise KeyError
  | Some c =>
      let* c' := py_set c index v in
      ret {| zbin := zbin T; index_zbin := index_zbin T; N := N T;
             stat := <[name := c']> (stat T) |}
  end.

(** [mean_p1d_table[name][index]]. *)
Definition stat_get {F} (T : MeanTable F) (name : string) (index : nat)
    : res F :=
  match stat T !! name with
  | None => raise KeyError
  | Some c => py_get c index
  end.

Record MetadataTable (F : Type) : Type := {
  z_min : list F;
  z_max : list F;
  k_min : list F;
  k_max : list F;
  N_chunks : list Z
}.
Arguments z_min {F} _.
Arguments z_max {F} _.
Arguments k_min {F} _.
Arguments k_max {F} _.
Arguments N_chunks {F} _.

Record CovTable (F : Type) : Type := {
  cov_zbin : list F;
  cov_index_zbin : list Z;
  cov_N : list Z;
  covariance : list F
}.
Arguments cov_zbin {F} _.
Arguments cov_index_zbin {F} _.
Arguments cov_N {F} _.
Arguments covariance {F} _.

(** ** What the module imports

    [picca.constants], [picca.pk1d.utils], scipy and numpy's decimal
    rounding are used by the program and defined elsewhere. *)
Class Env (F : Type) : Type := {
  ABSORBER_IGM_LYA : F;
  SPEED_LIGHT : F;
  MEANPK_FITRANGE_SNR : Z * Z;
  fitfunc_variance_pk1d : F → F → F → F;
  (** [binned_statistic(x, values, statistic="std", bins=edges)] *)
  binned_statistic_std : list F → list F → list F → res (list F);
  (** [binned_statistic(x, x, statistic="count", bins=edges)] *)
  binned_statistic_count : list F → list F → res (list Z);
  (** [curve_fit(f, xdata, ydata, bounds=(0, np.inf))], its two
      coefficients *)
  curve_fit : (F → F → F → F) → list F → list F → res (F * F);
  (** [np.around(x, decimals)] *)
  np_around : F → Z → F
}.

(** ** [fill_average_pk_redshift] *)

Section Aggregator.
Context {F : Type} `{Arith F} `{Env F}.

(** [(x < hi) & (x > lo)], element-wise. *)
Definition lt_arr (x : list F) (hi : F) : list bool :=
  map (fun v => v ≺ hi) x.
Definition gt_arr (x : list F) (lo : F) : list bool :=
  map (fun v => lo ≺ v) x.
Definition and_arr (a b : list bool) : list bool := zip_with andb a b.

(** The selection of one (z, k) bin without redshift weights
    (lines 549-554). *)
Definition select_bin (p1d_table : P1DTable F) (zbin_edges kbin_edges : list F)
    (izbin ikbin : nat) : res (list bool) :=
  let* forest_z := col_get p1d_table "forest_z" in
  let* zhi := py_get zbin_edges (izbin + 1) in
  let* zlo := py_get zbin_edges izbin in
  let* k := col_get p1d_table "k" in
  let* khi := py_get kbin_edges (ikbin + 1) in
  let* klo := py_get kbin_edges ikbin in
  ret (and_arr (and_arr (and_arr (lt_arr forest_z zhi) (gt_arr forest_z zlo))
                        (lt_arr k khi))
               (gt_arr k klo)).

(** The selection with redshift weights (lines 517-546): the selected
    rows and their weights. *)
Definition select_bin_z_weights (p1d_table : P1DTable F)
    (nbins_z : nat) (zbin_centers zbin_edges kbin_edges : list F)
    (izbin ikbin : nat) : res (list bool * list F) :=
  let delta_z := zip_with fsub (tail zbin_centers) (removelast zbin_centers) in
  let* delta_z0 := py_get delta_z 0 in
  if negb (np_allclose delta_z delta_z0 (flit 1 1000)) then raise ValueError
  else
    let* k := col_get p1d_table "k" in
    let* khi := py_get kbin_edges (ikbin + 1) in
    let* klo := py_get kbin_edges ikbin in
    let select := and_arr (lt_arr k khi) (gt_arr k klo) in
    let* forest_z := col_get p1d_table "forest_z" in
    let* select :=
      if (izbin =? 0)%nat || (Z.of_nat izbin =? Z.of_nat nbins_z - 1) then
        let* zlo := py_get zbin_edges izbin in
        let* zhi := py_get zbin_edges (izbin + 1) in
        ret (and_arr (and_arr select (gt_arr forest_z zlo)) (lt_arr forest_z zhi))
      else
        let* zhi := py_get zbin_centers (izbin + 1) in
        let* zlo := py_get zbin_centers (izbin - 1) in
        ret (and_arr (and_arr select (lt_arr forest_z zhi)) (gt_arr forest_z zlo)) in
    let* zc := py_get zbin_centers izbin in
    let redshift_weights :=
      map (fun z => of_Z 1 ⊖ fabs (z ⊖ zc) ⊘ delta_z0) (mask forest_z select) in
    ret (select, redshift_weights).

(** [np.arange(lo, hi + 1, 1)] on integers. *)
Definition arange_incl (lo hi : Z) : list Z :=
  map (fun i => lo + Z.of_nat i) (seq 0 (Z.to_nat (hi + 1 - lo))).

(** Mean and error with weights fitted on the dispersion against the
    signal-to-noise ratio (lines 580-622). *)
Definition stats_fit_snr (apply_z_weights : bool) (redshift_weights : list F)
    (data_values data_snr : list F) : res (F * F) :=
  let '(snr_lo, snr_hi) := MEANPK_FITRANGE_SNR in
  let snr_bin_edges := arange_incl snr_lo snr_hi in
  let snr_bins :=
    zip_with (fun a b => of_Z (a + b) ⊘ of_Z 2)
             (removelast snr_bin_edges) (tail snr_bin_edges) in
  let nan_mask := map fis_nan data_values in
  let keep := map negb nan_mask in
  let '(data_snr, data_values) :=
    if existsb (fun b : bool => b) nan_mask
    then (mask data_snr keep, mask data_values keep)
    else (data_snr, data_values) in
  let* standard_dev :=
    binned_statistic_std data_snr data_values (map of_Z snr_bin_edges) in
  let* coef :=
    curve_fit fitfunc_variance_pk1d snr_bins
              (map (fun s => s ⊗ s) standard_dev) in
  let data_snr :=
    map (fun s => if of_Z snr_hi ≺ s then of_Z snr_hi else s) data_snr in
  let data_snr :=
    map (fun s => if s ≺ flit 101 100 then flit 101 100 else s) data_snr in
  let variance_estimated :=
    map (fun s => fitfunc_variance_pk1d s coef.1 coef.2) data_snr in
  let weights := map (fun v => of_Z 1 ⊘ v) variance_estimated in
  let* weights :=
    if apply_z_weights then np_zip fmul weights redshift_weights
    else ret weights in
  let* mean := np_average data_values weights in
  let* error :=
    if apply_z_weights then
      let* wz := np_zip fmul weights redshift_weights in
      ret (fsqrt (np_sum wz) ⊘ np_sum weights)
    else ret (fsqrt (of_Z 1 ⊘ np_sum weights)) in
  ret (mean, error).

(** Mean and error with weights taken from the signal-to-noise ratio
    (lines 632-648). *)
Definition stats_simple_snr (num_chunks : nat) (values : res (list F))
    (forest_snr : list F) : res (F * F) :=
  let snr_limit := 4 in
  if existsb (fun s => s ≼ of_Z 1) forest_snr then raise RuntimeError
  else
    let* values := values in
    let weights := map (fun s => (s ⊖ of_Z 1) ⊗ (s ⊖ of_Z 1)) forest_snr in
    let weights :=
      zip_with (fun s w => if of_Z snr_limit ≺ s
                           then of_Z ((snr_limit - 1) * (snr_limit - 1)) else w)
               forest_snr weights in
    let* mean := np_average values weights in
    let* wr :=
      np_zip fmul weights (map (fun v => (v ⊖ mean) ⊗ (v ⊖ mean)) values) in
    let alpha := np_sum wr in
    ret (mean,
         fsqrt (alpha ⊘ (np_sum weights ⊗ of_Z (Z.of_nat num_chunks - 1)))).

(** Mean and error without signal-to-noise weights (lines 650-661). *)
Definition stats_no_weights (apply_z_weights : bool)
    (redshift_weights : list F) (num_chunks : nat) (values : list F)
    : res (F * F) :=
  if apply_z_weights then
    let* mean := np_average values redshift_weights in
    ret (mean,
         np_std values ⊗
         (fsqrt (np_sum (map (fun w => w ⊗ w) redshift_weights))
          ⊘ np_sum redshift_weights))
  else
    ret (np_mean values,
         np_std values ⊘ fsqrt (of_Z (Z.of_nat num_chunks - 1))).

(** The dispatch on [weight_method] (lines 580-664). *)
Definition cell_stats (weight_method : string) (apply_z_weights : bool)
    (redshift_weights : list F) (num_chunks : nat)
    (values forest_snr : res (list F)) : res (F * F) :=
  if String.eqb weight_method "fit_snr" then
    let* data_values := values in
    let* data_snr := forest_snr in
    stats_fit_snr apply_z_weights redshift_weights data_values data_snr
  else if String.eqb weight_method "simple_snr" then
    let* forest_snr := forest_snr in
    stats_simple_snr num_chunks values forest_snr
  else if String.eqb weight_method "no_weights" then
    let* values := values in
    stats_no_weights apply_z_weights redshift_weights num_chunks values
  else raise ValueError.

(** [p1d_table[col][select]]. *)
Definition selected (p1d_table : P1DTable F) (col : string)
    (select : list bool) : res (list F) :=
  let* c := col_get p1d_table col in ret (mask c select).

(** One turn of the loop over the columns (lines 565-675). *)
Definition fill_column (p1d_table : P1DTable F) (weight_method : string)
    (apply_z_weights nomedians : bool) (select : list bool)
    (redshift_weights : list F) (num_chunks index : nat)
    (T : MeanTable F) (col : string) : res (MeanTable F) :=
  if (num_chunks =? 0)%nat then ret T
  else
    let values := selected p1d_table col select in
    let forest_snr := selected p1d_table "forest_snr" select in
    let* (mean, error) :=
      cell_stats weight_method apply_z_weights redshift_weights num_chunks
                 values forest_snr in
    let* values := values in
    let* minimum := np_min values in
    let* maximum := np_max values in
    let* T := stat_set T ("mean" +:+ col) index mean in
    let* T := stat_set T ("error" +:+ col) index error in
    let* T := stat_set T ("min" +:+ col) index minimum in
    let* T := stat_set T ("max" +:+ col) index maximum in
    if nomedians then ret T
    else stat_set T ("median" +:+ col) index (np_median values).

(** Lines 517-554: the rows of one cell and, with redshift weights,
    their weights. *)
Definition cell_selection (p1d_table : P1DTable F) (apply_z_weights : bool)
    (nbins_z : nat) (zbin_centers zbin_edges kbin_edges : list F)
    (izbin ikbin : nat) : res (list bool * list F) :=
  if apply_z_weights then
    select_bin_z_weights p1d_table nbins_z zbin_centers zbin_edges
                         kbin_edges izbin ikbin
  else
    let* select := select_bin p1d_table zbin_edges kbin_edges izbin ikbin in
    ret (select, []).

(** One turn of the loop over the k bins (lines 515-675). *)
Definition fill_cell (p1d_table : P1DTable F) (p1d_table_cols : list string)
    (weight_method : string) (apply_z_weights nomedians : bool)
    (nbins_z : nat) (zbin_centers zbin_edges : list F)
    (nbins_k : nat) (kbin_edges : list F) (izbin : nat)
    (T : MeanTable F) (ikbin : nat) : res (MeanTable F) :=
  let* (select, redshift_weights) :=
    cell_selection p1d_table apply_z_weights nbins_z zbin_centers zbin_edges
                   kbin_edges izbin ikbin in
  let index := (nbins_k * izbin + ikbin)%nat in
  let* zc := py_get zbin_centers izbin in
  let* zbin' := py_set (zbin T) index zc in
  let* index_zbin' := py_set (index_zbin T) index (Z.of_nat izbin) in
  let* k := col_get p1d_table "k" in
  let num_chunks := length (mask k select) in
  let* N' := py_set (N T) index (Z.of_nat num_chunks) in
  let T := {| zbin := zbin'; index_zbin := index_zbin'; N := N';
              stat := stat T |} in
  foldM (fill_column p1d_table weight_method apply_z_weights nomedians
                     select redshift_weights num_chunks index)
        T p1d_table_cols.

Definition fill_average_pk_redshift (p1d_table : P1DTable F)
    (p1d_table_cols : list string) (mean_p1d_table : MeanTable F)
    (weight_method : string) (apply_z_weights nomedians : bool)
    (nbins_z : nat) (zbin_centers zbin_edges : list F) (n_chunks : list Z)
    (nbins_k : nat) (kbin_edges : list F) (izbin : nat)
    : res (MeanTable F) :=
  let* n := py_get n_chunks izbin in
  if n =? 0 then
    let i_min := (izbin * nbins_k)%nat in
    let i_max := ((izbin + 1) * nbins_k)%nat in
    let* zc := py_get zbin_centers izbin in
    ret {| zbin := set_slice (zbin mean_p1d_table) i_min i_max zc;
           index_zbin := set_slice (index_zbin mean_p1d_table) i_min i_max
                                   (Z.of_nat izbin);
           N := N mean_p1d_table;
           stat := stat mean_p1d_table |}
  else
    foldM (fill_cell p1d_table p1d_table_cols weight_method apply_z_weights
                     nomedians nbins_z zbin_centers zbin_edges nbins_k
                     kbin_edges izbin)
          mean_p1d_table (seq 0 (length (removelast kbin_edges))).
End Aggregator.

(** ** [compute_cov] *)

Section Covariance.
Context {F : Type} `{Arith F}.

(** [a[m]] where numpy checks that the mask has the length of [a]. *)
Definition np_mask {A} (a : list A) (m : list bool) : res (list A) :=
  if decide (length a = length m) then ret (mask a m) else raise IndexError.

(** [a & b] on boolean arrays. *)
Definition np_and (a b : list bool) : res (list bool) :=
  if decide (length a = length b) then ret (and_arr a b) else raise ValueError.

(** The four arrays [compute_cov] fills and returns. *)
Record CovArrays : Type := {
  zbin_array : list F;
  index_zbin_array : list Z;
  n_array : list Z;
  covariance_array : list F
}.

(** Lines 761-766: add one product to the coefficient [(ikbin, ikbin2)]. *)
Definition accumulate (nbins_k : nat) (st : CovArrays) (ikbin ikbin2 : Z)
    (p : F) : res CovArrays :=
  let index := Z.of_nat nbins_k * ikbin + ikbin2 in
  let* i := py_index (length (covariance_array st)) index in
  let* c := py_get (covariance_array st) i in
  let* cov' := py_set (covariance_array st) i (c ⊕ p) in
  let* i' := py_index (length (n_array st)) index in
  let* m := py_get (n_array st) i' in
  let* n' := py_set (n_array st) i' (m + 1) in
  ret {| zbin_array := zbin_array st;
         index_zbin_array := index_zbin_array st;
         n_array := n'; covariance_array := cov' |}.

(** Lines 756-766: the loop over [ipk2 >= ipk], that is over the
    samples from [ipk] on. *)
Definition pair_loop (nbins_k : nat) (ikbin : Z) (pk : F)
    (from_ipk : list (Z * F)) (st : CovArrays) : res CovArrays :=
  foldM (fun st '(ikbin2, pk2) =>
           if ikbin2 =? -1 then ret st
           else accumulate nbins_k st ikbin ikbin2 (pk ⊗ pk2))
        st from_ipk.

(** Lines 753-766: the loop over [ipk]; [selected] pairs
    [selected_ikbin] with [selected_pk]. *)
Fixpoint sample_loop (nbins_k : nat) (selected : list (Z * F))
    (st : CovArrays) : res CovArrays :=
  match selected with
  | [] => ret st
  | (ikbin, pk) :: rest =>
      let* st' :=
        if ikbin =? -1 then ret st
        else pair_loop nbins_k ikbin pk selected st in
      sample_loop nbins_k rest st'
  end.

(** Lines 748-751: the samples of one sub-forest in the redshift bin. *)
Definition select_sub_forest (p1d_table : P1DTable F) (k_index : list Z)
    (select_z : list bool) (sub_id : string)
    : res (list (Z * F)) :=
  let* ids :=
    match sub_forest_id p1d_table with
    | Some ids => ret ids
    | None => raise KeyError
    end in
  let* select_id :=
    np_and select_z (map (fun s => String.eqb s sub_id) ids) in
  let* pk := col_get p1d_table "Pk" in
  let* selected_pk := np_mask pk select_id in
  let* selected_ikbin := np_mask k_index select_id in
  ret (zip selected_ikbin selected_pk).

(** Lines 748-766. *)
Definition first_loop (p1d_table : P1DTable F) (k_index : list Z)
    (nbins_k : nat) (select_z : list bool) (sub_forest_ids : list string)
    (st : CovArrays) : res CovArrays :=
  foldM (fun st sub_id =>
           let* selected :=
             select_sub_forest p1d_table k_index select_z sub_id in
           sample_loop nbins_k selected st)
        st sub_forest_ids.

(** Lines 771-790: one coefficient of the upper triangle and its
    mirror. *)
Definition normalise (mean_p1d_table : MeanTable F) (zbin_centers : list F)
    (nbins_k izbin ikbin : nat) (mean_ikbin : F) (st : CovArrays)
    (ikbin2 : nat) : res CovArrays :=
  let* mean_ikbin2 :=
    stat_get mean_p1d_table "meanPk" (nbins_k * izbin + ikbin2) in
  let index := (nbins_k * ikbin + ikbin2)%nat in
  let* c := py_get (covariance_array st) index in
  let* n := py_get (n_array st) index in
  let v := ((c ⊘ of_Z n) ⊖ mean_ikbin ⊗ mean_ikbin2) ⊘ of_Z n in
  let* cov := py_set (covariance_array st) index v in
  let* zc := py_get zbin_centers izbin in
  let* zb := py_set (zbin_array st) index zc in
  let* ib := py_set (index_zbin_array st) index (Z.of_nat izbin) in
  if (ikbin2 =? ikbin)%nat then
    ret {| zbin_array := zb; index_zbin_array := ib;
           n_array := n_array st; covariance_array := cov |}
  else
    let index_2 := (nbins_k * ikbin2 + ikbin)%nat in
    let* v := py_get cov index in
    let* cov := py_set cov index_2 v in
    let* n := py_get (n_array st) index in
    let* na := py_set (n_array st) index_2 n in
    let* zc := py_get zbin_centers izbin in
    let* zb := py_set zb index_2 zc in
    let* ib := py_set ib index_2 (Z.of_nat izbin) in
    ret {| zbin_array := zb; index_zbin_array := ib;
           n_array := na; covariance_array := cov |}.

(** Lines 768-790. *)
Definition second_loop (mean_p1d_table : MeanTable F) (zbin_centers : list F)
    (nbins_k izbin : nat) (st : CovArrays) : res CovArrays :=
  foldM (fun st ikbin =>
           let* mean_ikbin :=
             stat_get mean_p1d_table "meanPk" (nbins_k * izbin + ikbin) in
           foldM (normalise mean_p1d_table zbin_centers nbins_k izbin ikbin
                            mean_ikbin)
                 st (seq ikbin (nbins_k - ikbin)))
        st (seq 0 nbins_k).

Definition compute_cov (p1d_table : P1DTable F) (mean_p1d_table : MeanTable F)
    (zbin_centers : list F) (n_chunks : list Z) (k_index : list Z)
    (nbins_k izbin : nat) (select_z : list bool)
    (sub_forest_ids : list string) : res CovArrays :=
  let size := (nbins_k * nbins_k)%nat in
  let st := {| zbin_array := replicate size (of_Z 0);
               index_zbin_array := replicate size 0;
               n_array := replicate size 0;
               covariance_array := replicate size (of_Z 0) |} in
  let* n := py_get n_chunks izbin in
  if n =? 0 then
    let* zc := py_get zbin_centers izbin in
    ret {| zbin_array := replicate size zc;
           index_zbin_array := replicate size (Z.of_nat izbin);
           n_array := replicate size 0;
           covariance_array := replicate size fnan |}
  else
    let* st := first_loop p1d_table k_index nbins_k select_z sub_forest_ids st in
    second_loop mean_p1d_table zbin_centers nbins_k izbin st.
End Covariance.
Arguments CovArrays F : clear implicits.

(** ** [compute_mean_pk1d] *)

(** [p in s] on strings. *)
Fixpoint substringb (p s : string) : bool :=
  String.prefix p s ||
  match s with
  | EmptyString => false
  | String _ s' => substringb p s'
  end.

(** [np.unique] on an array of strings: sorted, without repetition. *)
Fixpoint insert_unique (x : string) (l : list string) : list string :=
  match l with
  | [] => [x]
  | y :: l' =>
      if String.eqb x y then l
      else if String.ltb x y then x :: l
      else y :: insert_unique x l'
  end.

Definition np_unique (l : list string) : list string :=
  foldr insert_unique [] l.

(** The length of [np.zeros(n)] and [np.ones(n)]. *)
Definition np_size (n : Z) : res nat :=
  if n <? 0 then raise ValueError else ret (Z.to_nat n).

(** [a[select] = v] with a scalar [v]. *)
Definition assign_where {A} (a : list A) (select : list bool) (v : A) : list A :=
  zip_with (fun x (b : bool) => if b then v else x) a select.

(** [a[lo:lo+len(vs)] = vs]: the values must fill the slice exactly. *)
Definition set_block {A} (a : list A) (lo : nat) (vs : list A) : res (list A) :=
  if decide (lo + length vs ≤ length a)%nat
  then ret (take lo a ++ vs ++ drop (lo + length vs) a)
  else raise ValueError.

Section Orchestrator.
Context {F : Type} `{Arith F} `{Env F}.

(** Lines 214-221: conversion to velocity units. *)
Definition convert_velunits (p1d_table : P1DTable F)
    (p1d_table_cols : list string) : res (P1DTable F) :=
  let* forest_z := col_get p1d_table "forest_z" in
  let conversion_factor :=
    map (fun z => (ABSORBER_IGM_LYA ⊗ (of_Z 1 ⊕ z)) ⊘ SPEED_LIGHT) forest_z in
  let* k := col_get p1d_table "k" in
  let p1d_table := col_set p1d_table "k" (zip_with fmul k conversion_factor) in
  foldM (fun t col =>
           if substringb "Pk" col then
             let* c := col_get t col in
             ret (col_set t col (zip_with fdiv c conversion_factor))
           else ret t)
        p1d_table p1d_table_cols.

(** Lines 224-231: the empty table of statistics. *)
Definition init_mean_table (size : nat) (stats_array p1d_table_cols : list string)
    : MeanTable F :=
  {| zbin := replicate size (of_Z 0);
     index_zbin := replicate size 0;
     N := replicate size 0;
     stat :=
       fold_left
         (fun m col =>
            fold_left (fun m stats => <[stats +:+ col := replicate size fnan]> m)
                      stats_array m)
         p1d_table_cols ∅ |}.

(** Lines 281-286: the k bin of every sample, [-1] outside the bins. *)
Definition compute_k_index (k kbin_edges : list F) : res (list Z) :=
  foldM (fun k_index ikbin =>
           let* khi := py_get kbin_edges (ikbin + 1) in
           let* klo := py_get kbin_edges ikbin in
           let select := and_arr (lt_arr k khi) (gt_arr k klo) in
           ret (assign_where k_index select (Z.of_nat ikbin)))
        (replicate (length k) (-1)) (seq 0 (length (removelast kbin_edges))).

(** Lines 335-366: the covariance of every redshift bin, written into
    the covariance table.  Every entry of [params_pool] is unpacked
    into the last three arguments of [compute_cov], as [pool.starmap]
    does; the two branches on [number_worker] are
    [covariance_loop_workers] below. *)
Definition covariance_loop (p1d_table : P1DTable F) (mean_p1d_table : MeanTable F)
    (zbin_centers zbin_edges : list F) (n_chunks k_index : list Z)
    (nbins_z nbins_k : nat) (cov_table : CovTable F) : res (CovTable F) :=
  let* params_pool :=
    foldM (fun pool izbin =>
             let* forest_z := col_get p1d_table "forest_z" in
             let* zhi := py_get zbin_edges (izbin + 1) in
             let* zlo := py_get zbin_edges izbin in
             let select_z := and_arr (lt_arr forest_z zhi) (gt_arr forest_z zlo) in
             let* ids :=
               match sub_forest_id p1d_table with
               | Some ids => ret ids
               | None => raise KeyError
               end in
             let* ids_z := np_mask ids select_z in
             ret (pool ++ [(izbin, select_z, np_unique ids_z)]))
          [] (seq 0 nbins_z) in
  let* output_cov :=
    foldM (fun out '(izbin, select_z, sub_forest_ids) =>
             let* o := compute_cov p1d_table mean_p1d_table zbin_centers
                                   n_chunks k_index nbins_k izbin select_z
                                   sub_forest_ids in
             ret (out ++ [o]))
          [] params_pool in
  foldM (fun ct izbin =>
           let* o := py_get output_cov izbin in
           let i_min := (izbin * nbins_k * nbins_k)%nat in
           let* zb := set_block (cov_zbin ct) i_min (zbin_array o) in
           let* ib := set_block (cov_index_zbin ct) i_min (index_zbin_array o) in
           let* na := set_block (cov_N ct) i_min (n_array o) in
           let* cv := set_block (covariance ct) i_min (covariance_array o) in
           ret {| cov_zbin := zb; cov_index_zbin := ib; cov_N := na;
                  covariance := cv |})
        cov_table (seq 0 nbins_z).

(** Lines 204-206: the statistics computed on every column. *)
Definition stats_array_of (nomedians : bool) : list string :=
  ["mean"; "error"; "min"; "max"] ++ (if nomedians then [] else ["median"]).

(** Line 296: the centres of the redshift bins. *)
Definition zbin_centers_of (zbin_edges : list F) : list F :=
  zip_with (fun hi lo => np_around ((hi ⊕ lo) ⊘ of_Z 2) 5)
           (tail zbin_edges) (removelast zbin_edges).

(** Lines 306-327: the redshift bins one after the other. *)
Definition aggregate (p1d_table : P1DTable F) (p1d_table_cols : list string)
    (mean_p1d_table : MeanTable F) (weight_method : string)
    (apply_z_weights nomedians : bool) (nbins_z : nat)
    (zbin_centers zbin_edges : list F) (n_chunks : list Z) (nbins_k : nat)
    (kbin_edges : list F) : res (MeanTable F) :=
  foldM (fun T izbin =>
           fill_average_pk_redshift p1d_table p1d_table_cols T weight_method
             apply_z_weights nomedians nbins_z zbin_centers zbin_edges
             n_chunks nbins_k kbin_edges izbin)
        mean_p1d_table (seq 0 (length (removelast zbin_edges))).

(** What a run leaves behind: the input table, which the conversion of
    units updates in place, and the three tables returned. *)
Record Output : Type := {
  out_p1d_table : P1DTable F;
  out_mean_p1d_table : MeanTable F;
  out_metadata_table : MetadataTable F;
  out_cov_table : option (CovTable F)
}.

(** [compute_mean_pk1d] without bootstrap and without export of the
    fit ([compute_bootstrap=False], [output_snrfit=None]): the redshift
    bins are filled one after the other, as with [number_worker=1], and
    the covariance of a bin is called as [pool.starmap] calls it. *)
Definition compute_mean_pk1d (p1d_table : P1DTable F) (z_array : list F)
    (zbin_edges kbin_edges : list F) (weight_method : string)
    (apply_z_weights nomedians velunits compute_covariance : bool)
    : res Output :=
  let stats_array := stats_array_of nomedians in
  let p1d_table_cols := colnames_stats p1d_table in
  let* p1d_table :=
    if velunits then convert_velunits p1d_table p1d_table_cols
    else ret p1d_table in
  let nbins_z := Z.of_nat (length zbin_edges) - 1 in
  let nbins_k := Z.of_nat (length kbin_edges) - 1 in
  let* size := np_size (nbins_z * nbins_k) in
  let mean_p1d_table := init_mean_table size stats_array p1d_table_cols in
  let* kbin_first := py_get kbin_edges 0 in
  let* nz := np_size nbins_z in
  let* kbin_last := py_get kbin_edges (length kbin_edges - 1) in
  let nk := Z.to_nat nbins_k in
  let* cov_init :=
    if compute_covariance then
      match sub_forest_id p1d_table with
      | None => ret None
      | Some _ =>
          if negb (String.eqb weight_method "no_weights") then ret None
          else if apply_z_weights then ret None
          else
            let* csize := np_size (nbins_z * nbins_k * nbins_k) in
            let cov_table :=
              {| cov_zbin := replicate csize (of_Z 0);
                 cov_index_zbin := replicate csize 0;
                 cov_N := replicate csize 0;
                 covariance := replicate csize (of_Z 0) |} in
            let* k := col_get p1d_table "k" in
            let* k_index := compute_k_index k kbin_edges in
            ret (Some (cov_table, k_index))
      end
    else ret None in
  let* n_chunks := binned_statistic_count z_array zbin_edges in
  let metadata_table :=
    {| z_min := removelast zbin_edges;
       z_max := tail zbin_edges;
       k_min := replicate nz kbin_first;
       k_max := replicate nz kbin_last;
       N_chunks := n_chunks |} in
  let zbin_centers := zbin_centers_of zbin_edges in
  let* mean_p1d_table :=
    aggregate p1d_table p1d_table_cols mean_p1d_table weight_method
              apply_z_weights nomedians nz zbin_centers zbin_edges n_chunks
              nk kbin_edges in
  let* cov_table :=
    match cov_init with
    | Some (cov_table, k_index) =>
        let* ct := covariance_loop p1d_table mean_p1d_table zbin_centers
                                   zbin_edges n_chunks k_index nz nk cov_table in
        ret (Some ct)
    | None => ret None
    end in
  ret {| out_p1d_table := p1d_table;
         out_mean_p1d_table := mean_p1d_table;
         out_metadata_table := metadata_table;
         out_cov_table := cov_table |}.
End Orchestrator.
Arguments Output F : clear implicits.

(** ** [read_pk1d]: the columns of one chunk *)

(** [str.upper] on ASCII letters. *)
Definition upper_ascii (c : ascii) : ascii :=
  let n := nat_of_ascii c in
  if (97 <=? n)%nat && (n <=? 122)%nat then ascii_of_nat (n - 32) else c.

Fixpoint upper (s : string) : string :=
  match s with
  | EmptyString => EmptyString
  | String c s' => String (upper_ascii c) (upper s')
  end.

Fixpoint alist_rename {A} (l : list (string * A)) (name new_name : string)
    : list (string * A) :=
  match l with
  | [] => []
  | (n, v) :: l' =>
      if String.eqb n name then (new_name, v) :: l'
      else (n, v) :: alist_rename l' name new_name
  end.

(** [Table.rename_column]: [KeyError] when [name] is not a column or
    [new_name] already is one. *)
Definition rename_column {A} (t : list (string * A)) (name new_name : string)
    : res (list (string * A)) :=
  match alist_get t name, alist_get t new_name with
  | Some _, None => ret (alist_rename t name new_name)
  | _, _ => raise KeyError
  end.

Section Reader.
Context {F : Type} `{Arith F}.

(** Lines 69-81: upper-case column names are brought to the names used
    by the program; a failing renaming is passed over. *)
Definition rename_columns (chunk_table : list (string * list F))
    : list (string * list F) :=
  fold_left
    (fun t colname =>
       match rename_column t (upper colname) colname with
       | inr t' => t'
       | inl _ => t
       end)
    ["k"; "Pk"; "Pk_raw"; "Pk_noise"; "Pk_diff"; "cor_reso"; "Pk_noise_miss"]
    chunk_table.

Definition chunk_col (chunk_table : list (string * list F)) (name : string)
    : res (list F) :=
  match alist_get chunk_table name with
  | Some c => ret c
  | None => raise KeyError
  end.

(** Lines 83-86. *)
Definition derive_Pk (chunk_table : list (string * list F))
    : res (list (string * list F)) :=
  let* pk := chunk_col chunk_table "Pk" in
  if np_nansum pk ≗ of_Z 0 then
    let* pk_raw := chunk_col chunk_table "Pk_raw" in
    let* pk_noise := chunk_col chunk_table "Pk_noise" in
    let* cor_reso := chunk_col chunk_table "cor_reso" in
    ret (alist_set chunk_table "Pk"
           (zip_with fdiv (zip_with fsub pk_raw pk_noise) cor_reso))
  else ret chunk_table.

(** Lines 68-86 of [read_pk1d], for the data of one HDU. *)
Definition read_chunk_table (data : list (string * list F))
    : res (list (string * list F)) :=
  derive_Pk (rename_columns data).
End Reader.

(** ** A concrete environment

    The constants and the fit function as [picca.constants] and
    [picca.pk1d.utils] define them; the count per bin follows scipy's
    convention (every bin closed on the left and open on the right, the
    last one closed on both sides; an empty sample is refused with
    [ValueError]) and the decimal rounding follows numpy (scale, round
    to the nearest integer with ties to even, scale back).  scipy's
    optimiser and its standard deviation per bin, which only the fit on
    the signal-to-noise ratio calls, have no model here: in this
    environment a call of them raises, and nothing below is evaluated
    through them. *)

(** [np.rint]: adding and subtracting [2^52] rounds to an integer. *)
Definition float_rint (y : float) : float :=
  let big := 4503599627370496%float in
  if PrimFloat.ltb (PrimFloat.abs y) big then
    if PrimFloat.leb 0 y then (y + big - big)%float else (y - big + big)%float
  else y.

Definition float_around (x : float) (decimals : Z) : float :=
  if 0 <=? decimals then
    (float_rint (x * float_of_Z (10 ^ decimals)) / float_of_Z (10 ^ decimals))%float
  else
    (float_rint (x / float_of_Z (10 ^ (- decimals))) * float_of_Z (10 ^ (- decimals)))%float.

Definition count_in_bins (x edges : list float) : list Z :=
  let nb := (length edges - 1)%nat in
  map (fun i =>
         match edges !! i, edges !! (i + 1)%nat with
         | Some lo, Some hi =>
             Z.of_nat (length (List.filter
               (fun v => PrimFloat.leb lo v &&
                         (PrimFloat.ltb v hi ||
                          ((i + 1 =? nb)%nat && PrimFloat.eqb v hi))) x))
         | _, _ => 0
         end)
      (seq 0 nb).

#[export] Instance float_env : Env float := {
  ABSORBER_IGM_LYA := 1215.67%float;
  SPEED_LIGHT := 299792.458%float;
  MEANPK_FITRANGE_SNR := (1, 10);
  fitfunc_variance_pk1d :=
    fun snr amp zero_point =>
      (amp / ((snr - 1) * (snr - 1)) + zero_point)%float;
  binned_statistic_std := fun _ _ _ => raise ValueError;
  binned_statistic_count :=
    fun x edges =>
      match x with
      | [] => raise ValueError
      | _ => ret (count_in_bins x edges)
      end;
  curve_fit := fun _ _ _ => raise RuntimeError;
  np_around := float_around
}.

(** In exact arithmetic scipy is left uninterpreted and nothing is
    rounded. *)
#[export] Instance Rx_env : Env Rx := {
  ABSORBER_IGM_LYA := Some 1215.67%R;
  SPEED_LIGHT := Some 299792.458%R;
  MEANPK_FITRANGE_SNR := (1, 10);
  fitfunc_variance_pk1d :=
    fun snr amp zero_point =>
      fadd (fdiv amp (fmul (fsub snr (Some 1%R)) (fsub snr (Some 1%R)))) zero_point;
  binned_statistic_std := fun _ _ _ => raise ValueError;
  binned_statistic_count := fun _ _ => raise ValueError;
  curve_fit := fun _ _ _ => raise RuntimeError;
  np_around := fun x _ => x
}.

(** ** [read_pk1d]: the chunks of one file *)

(** The keys of the header of an HDU the reader looks at. *)
Record ChunkHeader (F : Type) : Type := {
  MEANZ : option F;
  MEANSNR : option F;
  LOS_ID : option Z;
  CHUNK_ID : option Z
}.
Arguments MEANZ {F} _.
Arguments MEANSNR {F} _.
Arguments LOS_ID {F} _.
Arguments CHUNK_ID {F} _.

(** An HDU of the file: its table and its header. *)
Record Hdu (F : Type) : Type := {
  hdu_data : list (string * list F);
  hdu_header : ChunkHeader F
}.
Arguments hdu_data {F} _.
Arguments hdu_header {F} _.

(** What the reader imports from astropy and numpy: the stacking of
    tables and the constant [np.pi]. *)
Class Astropy (F : Type) : Type := {
  vstack : list (P1DTable F) → res (P1DTable F);
  np_pi : F
}.

(** [chunk_header[key]]. *)
Definition header_get {A} (v : option A) : res A :=
  match v with
  | Some x => ret x
  | None => raise KeyError
  end.

(** [len(chunk_table)]: the number of rows. *)
Definition table_len {A} (chunk_table : list (string * list A)) : nat :=
  match chunk_table with
  | [] => 0
  | (_, c) :: _ => length c
  end.

(** [np.where(m)]: the positions of the entries that are true. *)
Fixpoint np_where_from (i : nat) (m : list bool) : list nat :=
  match m with
  | [] => []
  | b :: m' => (if b then [i] else []) ++ np_where_from (S i) m'
  end.

Definition np_where (m : list bool) : list nat := np_where_from 0 m.

(** [a[idx]] for an array of positions. *)
Fixpoint take_indices {A} (a : list A) (idx : list nat) : res (list A) :=
  match idx with
  | [] => ret []
  | i :: idx' =>
      let* x := py_get a i in
      let* xs := take_indices a idx' in
      ret (x :: xs)
  end.

Section ReadPk1d.
Context {F : Type} `{Arith F} `{Astropy F}.

(** [np.argmin]: the first position of the smallest entry, a NaN
    counting as the smallest. *)
Fixpoint argmin_from (mp : F) (min_ind i : nat) (l : list F) : nat :=
  match l with
  | [] => min_ind
  | x :: l' =>
      if negb (mp ≼ x) then
        if fis_nan x then i else argmin_from x i (S i) l'
      else argmin_from mp min_ind (S i) l'
  end.

Definition np_argmin (a : list F) : res nat :=
  match a with
  | [] => raise ValueError
  | x :: a' => ret (if fis_nan x then 0%nat else argmin_from x 0 1 a')
  end.

(** Lines 97-105: the cut that applies to a chunk of mean redshift
    [meanz]. *)
Definition snrcut_chunk_of (snrcut : list F) (zbins_snrcut : option (list F))
    (meanz : F) : res F :=
  if (1 <? length snrcut)%nat then
    match zbins_snrcut with
    | None => raise ValueError
    | Some zbins =>
        if negb (length zbins =? length snrcut)%nat then raise ValueError
        else
          let* zbin_index :=
            np_argmin (map (fun z => fabs (z ⊖ meanz)) zbins) in
          py_get snrcut zbin_index
    end
  else py_get snrcut 0.

(** Lines 110-113: some mode below the last wavenumber edge has a
    noise power above a million times the raw power. *)
Definition very_noisy (chunk_table : list (string * list F))
    (kbin_edges : list F) : res bool :=
  let* k := chunk_col chunk_table "k" in
  let* last := py_index (length kbin_edges) (-1) in
  let* klast := py_get kbin_edges last in
  let wk := np_where (lt_arr k klast) in
  let* pk_noise := chunk_col chunk_table "Pk_noise" in
  let* noise := take_indices pk_noise wk in
  let* pk_raw := chunk_col chunk_table "Pk_raw" in
  let* raw := take_indices pk_raw wk in
  ret (existsb (fun b : bool => b)
         (zip_with (fun n r => (of_Z 1000000 ⊗ r) ≺ n) noise raw)).

(** Lines 66-120, one turn of the loop over the HDUs: the table of the
    chunk and its mean redshift, or [None] when the loop goes on to
    the next HDU without keeping the chunk. *)
Definition read_chunk (kbin_edges : list F) (snrcut zbins_snrcut : option (list F))
    (hdu : Hdu F) : res (option (P1DTable F * F)) :=
  let* chunk_table := read_chunk_table (hdu_data hdu) in
  let chunk_header := hdu_header hdu in
  let rows := table_len chunk_table in
  let* meanz := header_get (MEANZ chunk_header) in
  let chunk_table := alist_set chunk_table "forest_z" (replicate rows meanz) in
  let* meansnr := header_get (MEANSNR chunk_header) in
  let chunk_table :=
    alist_set chunk_table "forest_snr" (replicate rows meansnr) in
  let* los_id := header_get (LOS_ID chunk_header) in
  let sub_forest_id :=
    match CHUNK_ID chunk_header with
    | Some chunk_id =>
        Some (replicate rows (pretty los_id +:+ "_" +:+ pretty chunk_id))
    | None => None
    end in
  let* below :=
    match snrcut with
    | Some snrcut =>
        let* snrcut_chunk := snrcut_chunk_of snrcut zbins_snrcut meanz in
        ret (meansnr ≺ snrcut_chunk)
    | None => ret false
    end in
  if below then ret None
  else
    let* noisy := very_noisy chunk_table kbin_edges in
    if noisy then ret None
    else
      ret (Some ({| cols := chunk_table;
                    forest_id := replicate rows los_id;
                    sub_forest_id := sub_forest_id |}, meanz)).

(** A column computed from two columns of the stacked table. *)
Definition derived (t : P1DTable F) (op : F → F → F) (a b : string)
    : res (list F) :=
  let* x := col_get t a in
  let* y := col_get t b in
  ret (zip_with op x y).

(** [read_pk1d] on the HDUs that follow the primary one. *)
Definition read_pk1d (hdus : list (Hdu F)) (kbin_edges : list F)
    (snrcut zbins_snrcut : option (list F))
    : res (option (P1DTable F * list F)) :=
  let* (p1d_table, z_array) :=
    foldM (fun '(p1d_table, z_array) hdu =>
             let* chunk := read_chunk kbin_edges snrcut zbins_snrcut hdu in
             match chunk with
             | Some (chunk_table, meanz) =>
                 ret (p1d_table ++ [chunk_table], z_array ++ [meanz])
             | None => ret (p1d_table, z_array)
             end)
          ([], []) hdus in
  if (length p1d_table =? 0)%nat then ret None
  else
    let* p1d_table := vstack p1d_table in
    let* delta2 := derived p1d_table (fun k pk => k ⊗ pk ⊘ np_pi) "k" "Pk" in
    let p1d_table := col_set p1d_table "Delta2" delta2 in
    let* norescor := derived p1d_table fsub "Pk_raw" "Pk_noise" in
    let p1d_table := col_set p1d_table "Pk_norescor" norescor in
    let* nonoise := derived p1d_table fdiv "Pk_raw" "cor_reso" in
    let p1d_table := col_set p1d_table "Pk_nonoise" nonoise in
    let* noraw := derived p1d_table fdiv "Pk_noise" "cor_reso" in
    let p1d_table := col_set p1d_table "Pk_noraw" noraw in
    let* p1d_table :=
      match derived p1d_table fdiv "Pk_noise_miss" "cor_reso" with
      | inr noraw_miss => ret (col_set p1d_table "Pk_noraw_miss" noraw_miss)
      | inl KeyError => ret p1d_table
      | inl e => raise e
      end in
    ret (Some (p1d_table, z_array)).
End ReadPk1d.

(** ** The calls of [compute_cov] *)

(** A positional argument of a call: a bin number, a mask, an array of
    identifiers, or a list such as an entry of [params_pool]. *)
#[warnings="-register-all"] Inductive pyval : Type :=
| PyInt (n : nat)
| PyMask (m : list bool)
| PyIds (ids : list string)
| PyList (l : list pyval).

Section CovarianceCalls.
Context {F : Type} `{Arith F}.

(** Lines 342-350:
    [func = partial(compute_cov, p1d_table, mean_p1d_table,
    zbin_centers, n_chunks, k_index, nbins_k)], called with the
    positional arguments [args].  [compute_cov] has nine parameters,
    none with a default value: Python binds [args] to the three that
    are left, [izbin], [select_z] and [sub_forest_ids], and raises
    [TypeError] when [args] has fewer or more than three entries.  The
    body is embedded for a bin number, a mask and an array of
    identifiers, which is what the entries of [params_pool] hold; three
    arguments of other kinds, which the program never passes, have no
    model and are refused here. *)
Definition func (p1d_table : P1DTable F) (mean_p1d_table : MeanTable F)
    (zbin_centers : list F) (n_chunks k_index : list Z) (nbins_k : nat)
    (args : list pyval) : res (CovArrays F) :=
  match args with
  | [izbin; select_z; sub_forest_ids] =>
      match izbin, select_z, sub_forest_ids with
      | PyInt izbin, PyMask select_z, PyIds sub_forest_ids =>
          compute_cov p1d_table mean_p1d_table zbin_centers n_chunks k_index
                      nbins_k izbin select_z sub_forest_ids
      | _, _, _ => raise TypeError
      end
  | _ => raise TypeError
  end.

(** The call [pool.starmap] makes for the entry [p]: [f] applied to
    the unpacked [p], the entries of the list [p] are the arguments. *)
Definition starmap_call {A} (f : list pyval → res A) (p : pyval) : res A :=
  match p with
  | PyList args => f args
  | _ => raise TypeError
  end.

(** Lines 332-366 for [number_worker] workers.  With one worker the
    comprehension [[func(p) for p in params_pool]] hands every entry to
    [func] as one argument; otherwise [Pool(number_worker)], which
    refuses a number below 1, and [pool.starmap(func, params_pool)]. *)
Definition covariance_loop_workers (number_worker : Z)
    (p1d_table : P1DTable F) (mean_p1d_table : MeanTable F)
    (zbin_centers zbin_edges : list F) (n_chunks k_index : list Z)
    (nbins_z nbins_k : nat) (cov_table : CovTable F) : res (CovTable F) :=
  let* params_pool :=
    foldM (fun pool izbin =>
             let* forest_z := col_get p1d_table "forest_z" in
             let* zhi := py_get zbin_edges (izbin + 1) in
             let* zlo := py_get zbin_edges izbin in
             let select_z := and_arr (lt_arr forest_z zhi) (gt_arr forest_z zlo) in
             let* ids :=
               match sub_forest_id p1d_table with
               | Some ids => ret ids
               | None => raise KeyError
               end in
             let* ids_z := np_mask ids select_z in
             ret (pool ++ [PyList [PyInt izbin; PyMask select_z;
                                   PyIds (np_unique ids_z)]]))
          [] (seq 0 nbins_z) in
  let func := func p1d_table mean_p1d_table zbin_centers n_chunks k_index
                   nbins_k in
  let* output_cov :=
    if number_worker =? 1 then
      foldM (fun out p => let* o := func [p] in ret (out ++ [o]))
            [] params_pool
    else if number_worker <? 1 then raise ValueError
    else
      foldM (fun out p => let* o := starmap_call func p in ret (out ++ [o]))
            [] params_pool in
  foldM (fun ct izbin =>
           let* o := py_get output_cov izbin in
           let i_min := (izbin * nbins_k * nbins_k)%nat in
           let* zb := set_block (cov_zbin ct) i_min (zbin_array o) in
           let* ib := set_block (cov_index_zbin ct) i_min (index_zbin_array o) in
           let* na := set_block (cov_N ct) i_min (n_array o) in
           let* cv := set_block (covariance ct) i_min (covariance_array o) in
           ret {| cov_zbin := zb; cov_index_zbin := ib; cov_N := na;
                  covariance := cv |})
        cov_table (seq 0 nbins_z).
End CovarianceCalls.

(** * The command line: [bin/picca_Pk1D_postprocess.py]

    The script computes on Python floats, which are IEEE binary64, and
    on Python integers. *)

Module Script.

(** The exceptions of the script: those of the module, and
    [OverflowError]. *)
Inductive script_exn : Type :=
  | Raised (e : exn)
  | OverflowError.

Definition sres (A : Type) : Type := (script_exn + A)%type.

Definition sbind {A B} (m : sres A) (k : A → sres B) : sres B :=
  match m with
  | inl e => inl e
  | inr a => k a
  end.

Notation "'let+' x ':=' m 'in' k" := (sbind m (fun x => k))
  (at level 10, x pattern, m at level 100, k at level 200).

(** [x / y] on floats. *)
Definition py_truediv (x y : float) : sres float :=
  if PrimFloat.eqb y 0 then inl (Raised ZeroDivisionError)
  else inr (PrimFloat.div x y).

(** The conversion of an integer that meets a float in an operation:
    rounded to the nearest float, [OverflowError] beyond the range. *)
Definition py_float (n : Z) : sres float :=
  let x := SF2Prim (binary_normalize prec emax n 0 false) in
  if PrimFloat.is_infinity x then inl OverflowError else inr x.

(** [int(x)]: the integer part. *)
Definition py_int (x : float) : sres Z :=
  match Prim2SF x with
  | S754_nan => inl (Raised ValueError)
  | S754_infinity _ => inl OverflowError
  | S754_zero _ => inr 0
  | S754_finite s m e =>
      let v := if 0 <=? e then Zpos m * 2 ^ e else Zpos m / 2 ^ (- e) in
      inr (if s then - v else v)
  end.

(** [math.ceil] on a float, as [np.arange] takes it to compute a
    length. *)
Definition py_ceil (x : float) : sres Z :=
  let+ t := py_int x in
  let+ t' := py_float t in
  inr (if PrimFloat.ltb t' x then t + 1 else t).

(** [np.pi]. *)
Definition np_pi : float := 0x1.921fb54442d18p+1%float.

Local Open Scope float_scope.

(** Lines 11-35. *)
Definition define_wavenumber_array (k_min k_max k_dist : option float)
    (velunits : bool) (pixsize : float) (rebinfac : Z)
    : sres (float * float * float) :=
  let+ rebinfac' := py_float rebinfac in
  let+ forest := py_truediv (150 * (1 + 3.4)) rebinfac' in
  let+ k_min_lin_default := py_truediv (2 * np_pi) forest in
  let+ k_max_lin_default := py_truediv np_pi pixsize in
  let+ ratio := py_truediv k_max_lin_default k_min_lin_default in
  let+ nb_k_bin_lin := py_int (ratio / 4) in
  let+ nb_k_bin_lin' := py_float nb_k_bin_lin in
  let+ k_dist_lin_default :=
    py_truediv (k_max_lin_default - k_min_lin_default) nb_k_bin_lin' in
  let k_min_vel_default := 0.000813 in
  let k_dist_vel_default := 0.000542 * rebinfac' in
  let k_max_vel_default :=
    k_min_vel_default + nb_k_bin_lin' * k_dist_vel_default in
  let or_default (given : option float) (d : float) := default d given in
  if velunits then
    inr (or_default k_min k_min_vel_default,
         or_default k_max k_max_vel_default,
         or_default k_dist k_dist_vel_default)
  else
    inr (or_default k_min k_min_lin_default,
         or_default k_max k_max_lin_default,
         or_default k_dist k_dist_lin_default).

(** What the script imports from numpy: [np.arange] on floats. *)
Class Numpy : Type := {
  np_arange : float → float → float → sres (list float)
}.

(** The arguments of the command line, as [argparse] leaves them. *)
Record Args : Type := {
  in_dir : string;
  output_file : option string;
  zedge_min : float;
  zedge_max : float;
  zedge_bin : float;
  kedge_min : option float;
  kedge_max : option float;
  kedge_bin : option float;
  rebinfac : Z;
  pixsize : float;
  weight_method : string;
  output_snrfit : option string;
  apply_mean_snr_cut : bool;
  snr_cut_scheme : string;
  overwrite : bool;
  velunits : bool;
  no_median : bool;
  old_output : bool;
  ncpu : Z
}.

(** The call of [run_postproc_pk1d] the script ends with: the module
    it is taken from and its arguments. *)
Record Call : Type := {
  oldoutput : bool;
  data_dir : string;
  call_output_file : string;
  zbin_edges : list float;
  kbin_edges : list float;
  call_weight_method : string;
  call_output_snrfit : option string;
  snrcut : option (list float);
  zbins_snrcut : option (list float);
  nomedians : bool;
  call_velunits : bool;
  call_overwrite : bool;
  call_ncpu : Z
}.

(** [os.path.join(a, b)] for a relative [b]. *)
Definition path_join (a b : string) : string :=
  if String.eqb a "" then b
  else if String.eqb (String.substring (String.length a - 1) 1 a) "/"
       then a +:+ b
       else a +:+ "/" +:+ b.

(** Lines 183-185. *)
Definition snr_cut_mean_eboss : list float :=
  [4.1; 3.9; 3.6; 3.2; 2.9; 2.6; 2.2; 2.0; 2.0;
   2.0; 2.0; 2.0; 2.0; 2.0; 2.0; 2.0; 2.0; 2.0;
   2.0; 2.0; 2.0].

Section Main.
Context `{Numpy}.

(** Lines 174-245 of [main], up to the call of [run_postproc_pk1d]. *)
Definition main (args : Args) : sres Call :=
  if negb (String.eqb (weight_method args) "no_weights")
     && apply_mean_snr_cut args
  then inl (Raised ValueError)
  else
    let+ (snr_cut_mean, zbins_snr_cut_mean) :=
      if apply_mean_snr_cut args then
        if String.eqb (snr_cut_scheme args) "eboss" then
          let+ zbins := np_arange 2.2 6.4 0.2 in
          inr (Some snr_cut_mean_eboss, Some zbins)
        else inl (Raised ValueError)
      else inr (None, None) in
    let+ (kedge_min, kedge_max, kedge_bin) :=
      define_wavenumber_array (kedge_min args) (kedge_max args)
                              (kedge_bin args) (velunits args)
                              (pixsize args) (rebinfac args) in
    let+ k_edges := np_arange kedge_min kedge_max kedge_bin in
    let+ z_edges :=
      np_arange (zedge_min args) (zedge_max args) (zedge_bin args) in
    let z_edges := map (fun z => float_around z 5) z_edges in
    let output_file :=
      match output_file args with
      | None =>
          let med_ext := if no_median args then "" else "_medians" in
          let snr_ext := if apply_mean_snr_cut args then "_snr_cut" else "" in
          let vel_ext := if velunits args then "_vel" else "" in
          path_join (in_dir args)
            ("mean_Pk1d_" +:+ weight_method args +:+ med_ext +:+ snr_ext
             +:+ vel_ext +:+ ".fits.gz")
      | Some output_file => output_file
      end in
    inr {| oldoutput := old_output args;
           data_dir := in_dir args;
           call_output_file := output_file;
           zbin_edges := z_edges;
           kbin_edges := k_edges;
           call_weight_method := weight_method args;
           call_output_snrfit :=
             if old_output args then None else output_snrfit args;
           snrcut := snr_cut_mean;
           zbins_snrcut := zbins_snr_cut_mean;
           nomedians := no_median args;
           call_velunits := velunits args;
           call_overwrite := overwrite args;
           call_ncpu := ncpu args |}.
End Main.
End Script.

(** ** Stacking and ranges, for the evaluation of examples *)

(** Stacking, for tables that have the same columns: the columns are
    put end to end.  Tables whose columns differ, or of which only some
    carry ['sub_forest_id'], are joined by astropy and filled with
    masked entries; masked columns have no model here: in this
    instance stacking such tables raises, and no statement below
    stacks them. *)
Definition stack_two {F} (a b : P1DTable F) : res (P1DTable F) :=
  if decide (map fst (cols a) = map fst (cols b)) then
    let* sub :=
      match sub_forest_id a, sub_forest_id b with
      | Some x, Some y => ret (Some (x ++ y))
      | None, None => ret None
      | _, _ => raise ValueError
      end in
    ret {| cols := zip_with (fun c c' => (c.1, c.2 ++ c'.2)) (cols a) (cols b);
           forest_id := forest_id a ++ forest_id b;
           sub_forest_id := sub |}
  else raise ValueError.

Definition stack_same {F} (tables : list (P1DTable F)) : res (P1DTable F) :=
  match tables with
  | [] => raise ValueError
  | t :: tables' => foldM stack_two t tables'
  end.

#[export] Instance float_astropy : Astropy float := {
  vstack := stack_same;
  np_pi := 0x1.921fb54442d18p+1%float
}.

(** [np.arange] on floats, for the evaluation of examples: the first
    two entries are [start] and [start + step], the entry [i] is
    [start + i * ((start + step) - start)]. *)
Definition float_arange (start stop step : float) : Script.sres (list float) :=
  Script.sbind (Script.py_truediv (PrimFloat.sub stop start) step) (fun q =>
  Script.sbind (Script.py_ceil q) (fun n =>
  let delta := PrimFloat.sub (PrimFloat.add start step) start in
  inr (map (fun i =>
              match i with
              | O => start
              | S O => PrimFloat.add start step
              | _ => PrimFloat.add start
                       (PrimFloat.mul (float_of_Z (Z.of_nat i)) delta)
              end) (seq 0 (Z.to_nat n))))).

#[export] Instance float_numpy : Script.Numpy := {
  np_arange := float_arange
}.

(** * Properties *)

(** ** Computations that may raise *)

Lemma bind_inr {A B} (m : res A) (k : A → res B) (b : B) :
  bind m k = inr b → ∃ a, m = inr a ∧ k a = inr b.
Proof. destruct m as [e|a]; simpl; [discriminate|eauto]. Qed.

Lemma bind_inl {A B} (m : res A) (k : A → res B) (e : exn) :
  bind m k = inl e → m = inl e ∨ ∃ a, m = inr a ∧ k a = inl e.
Proof. destruct m as [e'|a]; simpl; [intros [= ->]; auto|eauto]. Qed.

Lemma bind_ret_l {A B} (a : A) (k : A → res B) : bind (ret a) k = k a.
Proof. reflexivity. Qed.

(** Split a hypothesis [bind m k = inr b] into its two halves. *)
Tactic Notation "bind_inv" hyp(H) :=
  let a := fresh "a" in
  let E := fresh "E" in
  apply bind_inr in H; destruct H as (a & E & H).

Tactic Notation "bind_inv" hyp(H) "as" ident(a) ident(E) :=
  apply bind_inr in H; destruct H as (a & E & H).

Lemma foldM_app {A S} (body : S → A → res S) (s : S) (l1 l2 : list A) :
  foldM body s (l1 ++ l2) = bind (foldM body s l1) (fun s' => foldM body s' l2).
Proof.
  revert s; induction l1 as [|a l1 IH]; intros s; simpl; [reflexivity|].
  destruct (body s a) as [e|s']; simpl; [reflexivity|apply IH].
Qed.

(** A loop preserves what each of its turns preserves. *)
Lemma foldM_invariant {A S} (I : S → Prop) (body : S → A → res S)
    (l : list A) (s s' : S) :
  (∀ s a s', a ∈ l → I s → body s a = inr s' → I s') →
  I s → foldM body s l = inr s' → I s'.
Proof.
  revert s; induction l as [|a l IH]; intros s Hb Hs Hf; simpl in Hf.
  - injection Hf as <-. exact Hs.
  - bind_inv Hf. eapply IH; [|..|exact Hf].
    + intros s1 b s2 Hin. apply Hb. right. exact Hin.
    + eapply Hb; [left|exact Hs|exact E].
Qed.

(** A loop raises as soon as one of its turns raises from every state. *)
Lemma foldM_raises {A S} (body : S → A → res S) (l : list A) (a : A) (s : S) :
  a ∈ l → (∀ s, raises (body s a)) → raises (foldM body s l).
Proof.
  intros Hin Hr. revert s. induction l as [|b l IH]; intros s.
  - inversion Hin.
  - simpl. apply elem_of_cons in Hin as [<-|Hin].
    + destruct (Hr s) as [e ->]. exists e. reflexivity.
    + destruct (body s b) as [e|s']; simpl; [exists e; reflexivity|].
      apply IH. exact Hin.
Qed.

Lemma raises_not_returns {A} (m : res A) : raises m → ¬ returns m.
Proof. intros [e ->] [a [=]]. Qed.

(** ** Sums of arrays *)

Section Pairwise.
Context {F : Type} `{Arith F}.

(** Every cut of [pairwise_sum] shortens the array, so that a depth
    that is the length of the array is never used up. *)
Lemma pairwise_sum_depth (d d' : nat) (a : list F) :
  (length a ≤ 128 + d)%nat → (length a ≤ 128 + d')%nat →
  pairwise_sum d a = pairwise_sum d' a.
Proof.
  revert d' a. induction d as [|d IH]; intros d' a Hd Hd'.
  - destruct d' as [|d']; [reflexivity|]. cbn [pairwise_sum]; cbv zeta.
    destruct (128 <? length a)%nat eqn:E; [|reflexivity].
    apply Nat.ltb_lt in E. lia.
  - destruct d' as [|d'].
    + cbn [pairwise_sum]; cbv zeta. destruct (128 <? length a)%nat eqn:E; [|reflexivity].
      apply Nat.ltb_lt in E. lia.
    + cbn [pairwise_sum]; cbv zeta. destruct (128 <? length a)%nat eqn:E; [|reflexivity].
      apply Nat.ltb_lt in E.
      assert (H8 : ((length a / 2) mod 8 < 8)%nat) by (apply Nat.mod_upper_bound; lia).
      assert (H2 : (2 * (length a / 2) ≤ length a < 2 * (length a / 2) + 2)%nat).
      { pose proof (Nat.div_mod_eq (length a) 2).
        pose proof (Nat.mod_upper_bound (length a) 2). lia. }
      pose proof (Nat.Div0.mod_le (length a / 2) 8).
      f_equal; apply IH; rewrite ?length_take, ?length_drop; lia.
Qed.

(** Where the addition is associative and commutative and zero is
    neutral, as in exact arithmetic, the order numpy adds in does not
    matter. *)
Section Laws.
Hypothesis fadd_assoc : ∀ x y z : F, x ⊕ (y ⊕ z) = (x ⊕ y) ⊕ z.
Hypothesis fadd_comm : ∀ x y : F, x ⊕ y = y ⊕ x.
Hypothesis fadd_zero : ∀ x : F, of_Z 0 ⊕ x = x.

Let S (a : list F) : F := fold_left fadd a (of_Z 0).

Lemma add_loop_sum (acc : F) (a : list F) : add_loop acc a = acc ⊕ S a.
Proof.
  unfold add_loop, S. revert acc. induction a as [|x a IH]; intros acc; simpl.
  - rewrite fadd_comm, fadd_zero. reflexivity.
  - rewrite IH, (IH (of_Z 0 ⊕ x)), fadd_zero, fadd_assoc. reflexivity.
Qed.

Lemma sum_app (a b : list F) : S (a ++ b) = S a ⊕ S b.
Proof. unfold S at 1. rewrite fold_left_app. apply add_loop_sum. Qed.

Lemma sum_cons (x : F) (a : list F) : S (x :: a) = x ⊕ S a.
Proof. change (x :: a) with ([x] ++ a). rewrite sum_app. unfold S at 1. simpl.
  rewrite fadd_zero. reflexivity. Qed.

Lemma sum_zip_with (r b : list F) :
  length r = length b → S (zip_with fadd r b) = S r ⊕ S b.
Proof.
  revert b. induction r as [|x r IH]; intros [|y b] Hl; simpl in Hl;
    try discriminate.
  - simpl. unfold S. simpl. rewrite fadd_zero. reflexivity.
  - simpl. rewrite !sum_cons, IH by lia.
    rewrite !fadd_assoc. f_equal. rewrite <- !fadd_assoc. f_equal.
    apply fadd_comm.
Qed.

Lemma lanes_spec (m : nat) (r a : list F) :
  length r = 8%nat → (8 * m ≤ length a)%nat →
  length (lanes m r a) = 8%nat ∧
  S (lanes m r a) = S r ⊕ S (take (8 * m) a).
Proof.
  revert r a. induction m as [|m IH]; intros r a Hr Ha; simpl lanes.
  - split; [exact Hr|]. simpl. unfold S at 3. simpl.
    rewrite fadd_comm, fadd_zero. reflexivity.
  - assert (Ht : length (take 8 a) = 8%nat) by (rewrite length_take; lia).
    destruct (IH (zip_with fadd r (take 8 a)) (drop 8 a)) as [Hl Hs].
    + rewrite length_zip_with. lia.
    + rewrite length_drop. lia.
    + split; [exact Hl|]. rewrite Hs, sum_zip_with by lia.
      replace (8 * Datatypes.S m)%nat with (8 + 8 * m)%nat by lia.
      rewrite <- take_take_drop, sum_app, fadd_assoc. reflexivity.
Qed.

Lemma lanes_sum_sum (r : list F) : length r = 8%nat → lanes_sum r = S r.
Proof.
  intros Hr. do 9 (destruct r as [|? r]; try discriminate). clear Hr.
  unfold lanes_sum, S. simpl. rewrite fadd_zero, !fadd_assoc. reflexivity.
Qed.

Lemma block_sum_sum (a : list F) : block_sum a = S a.
Proof.
  unfold block_sum. destruct (length a <? 8)%nat eqn:E.
  - rewrite add_loop_sum. apply fadd_zero.
  - apply Nat.ltb_ge in E.
    pose proof (Nat.div_mod_eq (length a) 8) as Hdm.
    pose proof (Nat.mod_upper_bound (length a) 8 ltac:(lia)) as Hm.
    assert (Hq : (1 ≤ length a / 8)%nat) by lia.
    destruct (lanes_spec (length a / 8 - 1) (take 8 a) (drop 8 a)) as [Hl Hs].
    + rewrite length_take. lia.
    + rewrite length_drop. lia.
    + rewrite add_loop_sum, lanes_sum_sum, Hs by exact Hl.
      rewrite <- !sum_app, <- app_assoc.
      rewrite (app_assoc (take 8 a)), take_take_drop.
      replace (8 + 8 * (length a / 8 - 1))%nat with (length a - length a mod 8)%nat
        by lia.
      rewrite take_drop. reflexivity.
Qed.

Lemma pairwise_sum_sum (d : nat) (a : list F) : pairwise_sum d a = S a.
Proof.
  revert a. induction d as [|d IH]; intros a; cbn [pairwise_sum]; cbv zeta; [apply block_sum_sum|].
  destruct (128 <? length a)%nat; [|apply block_sum_sum].
  rewrite !IH, <- sum_app, take_drop. reflexivity.
Qed.

Lemma np_sum_fold_left (a : list F) : np_sum a = fold_left fadd a (of_Z 0).
Proof. unfold np_sum. rewrite pairwise_sum_sum. apply fadd_zero. Qed.
End Laws.
End Pairwise.

(** ** Indexing *)

Lemma py_get_inr {A} (l : list A) (i : nat) (x : A) :
  py_get l i = inr x ↔ l !! i = Some x.
Proof.
  unfold py_get. destruct (l !! i); simpl; split; intros [=]; subst; reflexivity.
Qed.

Lemma py_get_lt {A} (l : list A) (i : nat) :
  (i < length l)%nat → ∃ x, py_get l i = inr x ∧ l !! i = Some x.
Proof.
  intros Hi. destruct (lookup_lt_is_Some_2 l i Hi) as [x Hx].
  exists x. split; [apply py_get_inr|]; exact Hx.
Qed.

Lemma py_set_inr {A} (l l' : list A) (i : nat) (v : A) :
  py_set l i v = inr l' ↔ (i < length l)%nat ∧ l' = <[i := v]> l.
Proof.
  unfold py_set. case_decide; simpl; split.
  - intros [= <-]. auto.
  - intros [_ ->]. reflexivity.
  - discriminate.
  - intros [? _]. lia.
Qed.

Lemma lookup_map {A B} (f : A → B) (l : list A) (i : nat) :
  map f l !! i = f <$> l !! i.
Proof.
  revert i; induction l as [|x l IH]; intros [|i]; simpl; auto.
Qed.

Lemma lookup_and_arr (a b : list bool) (r : nat) (x y : bool) :
  a !! r = Some x → b !! r = Some y → and_arr a b !! r = Some (x && y).
Proof.
  intros Ha Hb. unfold and_arr. rewrite lookup_zip_with, Ha, Hb. reflexivity.
Qed.

Lemma length_and_arr (a b : list bool) :
  length (and_arr a b) = (length a `min` length b)%nat.
Proof. apply length_zip_with. Qed.

(** ** Bin membership *)

Section Membership.
Context {F : Type} `{Arith F} `{Env F}.

(** [x] lies strictly between the edges [i] and [i + 1]. *)
Definition in_open (edges : list F) (i : nat) (x : F) : bool :=
  match edges !! i, edges !! (i + 1)%nat with
  | Some lo, Some hi => (lo ≺ x) && (x ≺ hi)
  | _, _ => false
  end.

(** Membership as a half-open interval: lower edge included, upper
    edge excluded. *)
Definition in_half_open (edges : list F) (i : nat) (x : F) : bool :=
  match edges !! i, edges !! (i + 1)%nat with
  | Some lo, Some hi => (lo ≼ x) && (x ≺ hi)
  | _, _ => false
  end.

Lemma lookup_lt_arr (x : list F) (hi v : F) (r : nat) :
  x !! r = Some v → lt_arr x hi !! r = Some (v ≺ hi).
Proof. intros Hx. unfold lt_arr. rewrite lookup_map, Hx. reflexivity. Qed.

Lemma lookup_gt_arr (x : list F) (lo v : F) (r : nat) :
  x !! r = Some v → gt_arr x lo !! r = Some (lo ≺ v).
Proof. intros Hx. unfold gt_arr. rewrite lookup_map, Hx. reflexivity. Qed.

Lemma select_bin_lookup (t : P1DTable F) (ze ke : list F) (i j : nat)
    (sel : list bool) (fz k : list F) (r : nat) (z kv : F) :
  select_bin t ze ke i j = inr sel →
  col_get t "forest_z" = inr fz → col_get t "k" = inr k →
  fz !! r = Some z → k !! r = Some kv →
  sel !! r = Some (in_open ze i z && in_open ke j kv).
Proof.
  intros Hs Hfz Hk Hz Hkv. unfold select_bin in Hs.
  rewrite Hfz, Hk in Hs. simpl in Hs.
  bind_inv Hs. bind_inv Hs. bind_inv Hs. bind_inv Hs. injection Hs as <-.
  apply py_get_inr in E, E0, E1, E2.
  unfold in_open. rewrite E, E0, E1, E2.
  rewrite (lookup_and_arr _ _ _ _ _
             (lookup_and_arr _ _ _ _ _
                (lookup_and_arr _ _ _ _ _
                   (lookup_lt_arr _ a _ _ Hz) (lookup_gt_arr _ a0 _ _ Hz))
                (lookup_lt_arr _ a1 _ _ Hkv))
             (lookup_gt_arr _ a2 _ _ Hkv)).
  f_equal. destruct (a0 ≺ z), (z ≺ a), (a2 ≺ kv), (kv ≺ a1); reflexivity.
Qed.

(** The bin the loop of lines 281-286 leaves in [k_index] after its
    first [m] turns: the last bin that contains the sample. *)
Fixpoint last_bin (ke : list F) (kv : F) (m : nat) : Z :=
  match m with
  | O => -1
  | S m' => if in_open ke m' kv then Z.of_nat m' else last_bin ke kv m'
  end.

Lemma last_bin_spec (ke : list F) (kv : F) (m j : nat) :
  last_bin ke kv m = Z.of_nat j ↔
  (j < m)%nat ∧ in_open ke j kv = true ∧
  ∀ j', (j < j' < m)%nat → in_open ke j' kv = false.
Proof.
  induction m as [|m IH]; simpl.
  - split; [lia|intros [? _]; lia].
  - destruct (in_open ke m kv) eqn:Em.
    + split.
      * intros ->%Nat2Z.inj. repeat split; [lia|exact Em|intros; lia].
      * intros (Hj & Hin & Hlast). f_equal.
        destruct (decide (j = m)) as [|Hne]; [congruence|].
        rewrite (Hlast m) in Em by lia. discriminate.
    + rewrite IH. split.
      * intros (Hj & Hin & Hlast). repeat split; [lia|exact Hin|].
        intros j' Hj'. destruct (decide (j' = m)) as [->|]; [exact Em|].
        apply Hlast. lia.
      * intros (Hj & Hin & Hlast).
        assert (j ≠ m) by congruence.
        repeat split; [lia|exact Hin|intros; apply Hlast; lia].
Qed.

Lemma in_open_lt (ke : list F) (kv : F) (j : nat) :
  in_open ke j kv = true → (j < length (removelast ke))%nat.
Proof.
  unfold in_open. destruct (ke !! j) eqn:E1; [|discriminate].
  destruct (ke !! (j + 1)%nat) eqn:E2; [|discriminate]. intros _.
  apply lookup_lt_Some in E2.
  assert (length (removelast ke) = length ke - 1)%nat as ->; [|lia].
  clear. induction ke as [|x [|y ke] IH]; simpl in *; auto. lia.
Qed.

Lemma compute_k_index_prefix (k ke : list F) (m : nat) (ki : list Z) :
  foldM (fun k_index ikbin =>
           let* khi := py_get ke (ikbin + 1) in
           let* klo := py_get ke ikbin in
           let select := and_arr (lt_arr k khi) (gt_arr k klo) in
           ret (assign_where k_index select (Z.of_nat ikbin)))
        (replicate (length k) (-1)) (seq 0 m) = inr ki →
  ∀ r kv, k !! r = Some kv → ki !! r = Some (last_bin ke kv m).
Proof.
  revert ki. induction m as [|m IH]; intros ki Hf r kv Hr.
  - simpl in Hf. injection Hf as <-. simpl.
    apply lookup_replicate_2. eapply lookup_lt_Some, Hr.
  - rewrite seq_S, foldM_app in Hf. simpl in Hf.
    bind_inv Hf. bind_inv Hf. injection Hf as <-.
    bind_inv E0. bind_inv E0. injection E0 as <-.
    apply py_get_inr in E1, E2.
    specialize (IH _ E r kv Hr). simpl.
    unfold assign_where. rewrite lookup_zip_with, IH. simpl.
    rewrite (lookup_and_arr _ _ _ _ _
               (lookup_lt_arr _ a1 _ _ Hr) (lookup_gt_arr _ a2 _ _ Hr)).
    simpl. unfold in_open. rewrite E1, E2.
    rewrite (andb_comm (a2 ≺ kv)). reflexivity.
Qed.

Lemma compute_k_index_lookup (k ke : list F) (ki : list Z) (r : nat) (kv : F) :
  compute_k_index k ke = inr ki → k !! r = Some kv →
  ki !! r = Some (last_bin ke kv (length (removelast ke))).
Proof. intros Hc. eapply compute_k_index_prefix. exact Hc. Qed.

(** C1, as the code has it: a sample is selected for the cell (i, j)
    exactly when its redshift lies strictly between [zedge[i]] and
    [zedge[i+1]] and its wavenumber strictly between [kedge[j]] and
    [kedge[j+1]], both edges excluded; and [k_index] holds the bin [j]
    for a sample exactly when [j] is the last k bin whose open interval
    contains the wavenumber. *)
Theorem C1_membership_is_open_interval :
  (∀ (t : P1DTable F) (ze ke : list F) (i j : nat) (sel : list bool)
     (fz k : list F) (r : nat) (z kv : F),
      select_bin t ze ke i j = inr sel →
      col_get t "forest_z" = inr fz → col_get t "k" = inr k →
      fz !! r = Some z → k !! r = Some kv →
      (sel !! r = Some true ↔
       in_open ze i z = true ∧ in_open ke j kv = true)) ∧
  (∀ (k ke : list F) (ki : list Z) (r : nat) (kv : F) (j : nat),
      compute_k_index k ke = inr ki → k !! r = Some kv →
      (ki !! r = Some (Z.of_nat j) ↔
       in_open ke j kv = true ∧
       ∀ j', (j < j')%nat → in_open ke j' kv = false)).
Proof.
  split.
  - intros t ze ke i j sel fz k r z kv Hs Hfz Hk Hz Hkv.
    rewrite (select_bin_lookup _ _ _ _ _ _ _ _ _ _ _ Hs Hfz Hk Hz Hkv).
    rewrite <- andb_true_iff. split; [intros [= ->]|intros ->]; reflexivity.
  - intros k ke ki r kv j Hc Hr.
    rewrite (compute_k_index_lookup _ _ _ _ _ Hc Hr).
    split.
    + intros [= Hl]. apply last_bin_spec in Hl as (Hj & Hin & Hlast).
      split; [exact Hin|]. intros j' Hj'.
      destruct (decide (j' < length (removelast ke))%nat) as [Hlt|Hge].
      * apply Hlast. lia.
      * destruct (in_open ke j' kv) eqn:E; [|reflexivity].
        apply in_open_lt in E. lia.
    + intros [Hin Hlast]. f_equal. apply last_bin_spec.
      repeat split; [eapply in_open_lt, Hin|exact Hin|].
      intros j' Hj'. apply Hlast. lia.
Qed.
End Membership.

(** ** Named columns *)

Lemma alist_get_set {A} (l : list (string * A)) (n n' : string) (v : A) :
  alist_get (alist_set l n v) n' =
  if String.eqb n n' then Some v else alist_get l n'.
Proof.
  induction l as [|[m w] l IH]; simpl.
  - destruct (String.eqb n n'); reflexivity.
  - destruct (String.eqb m n) eqn:Emn; simpl.
    + apply String.eqb_eq in Emn as ->. destruct (String.eqb n n'); reflexivity.
    + rewrite IH. destruct (String.eqb m n') eqn:Emn'; [|reflexivity].
      apply String.eqb_eq in Emn' as ->. rewrite String.eqb_sym, Emn.
      reflexivity.
Qed.

Lemma alist_set_names {A} (l : list (string * A)) (n : string) (v w : A) :
  alist_get l n = Some w → map fst (alist_set l n v) = map fst l.
Proof.
  induction l as [|[m u] l IH]; simpl; [discriminate|].
  destruct (String.eqb m n); simpl; [reflexivity|].
  intros Hg. f_equal. apply IH, Hg.
Qed.

Lemma alist_get_None {A} (l : list (string * A)) (n : string) :
  n ∉ map fst l → alist_get l n = None.
Proof.
  induction l as [|[m u] l IH]; simpl; [reflexivity|].
  intros Hn. apply not_elem_of_cons in Hn as [Hne Hn].
  destruct (String.eqb m n) eqn:E; [apply String.eqb_eq in E; congruence|].
  apply IH, Hn.
Qed.

(** ** The clean power of a chunk *)

Section CleanPower.
Context {F : Type} `{Arith F}.

(** "Identically zero": every entry compares equal to zero. *)
Definition identically_zero (pk : list F) : bool :=
  forallb (fun v => v ≗ of_Z 0) pk.

(** C9, as the code has it: the test is made on the sum of the column
    with NaN entries left out.  When a ['Pk'] column is there and that
    sum compares equal to zero, the column is replaced by
    [(Pk_raw - Pk_noise) / cor_reso] and every other column is kept;
    when the sum differs from zero the table is kept as it is; without
    a ['Pk'] column the reader raises [KeyError]. *)
Theorem C9_clean_power_on_zero_sum (data : list (string * list F)) :
  let t := rename_columns data in
  (alist_get t "Pk" = None → read_chunk_table data = inl KeyError) ∧
  (∀ pk, alist_get t "Pk" = Some pk →
         (np_nansum pk ≗ of_Z 0) = false →
         read_chunk_table data = inr t) ∧
  (∀ pk pk_raw pk_noise cor_reso,
      alist_get t "Pk" = Some pk →
      (np_nansum pk ≗ of_Z 0) = true →
      alist_get t "Pk_raw" = Some pk_raw →
      alist_get t "Pk_noise" = Some pk_noise →
      alist_get t "cor_reso" = Some cor_reso →
      ∃ t', read_chunk_table data = inr t' ∧
            alist_get t' "Pk" =
              Some (zip_with fdiv (zip_with fsub pk_raw pk_noise) cor_reso) ∧
            map fst t' = map fst t ∧
            ∀ name, name ≠ "Pk" → alist_get t' name = alist_get t name).
Proof.
  intros t. unfold read_chunk_table, derive_Pk, chunk_col. fold t.
  split; [|split].
  - intros ->. reflexivity.
  - intros pk -> Hs. simpl. rewrite Hs. reflexivity.
  - intros pk pk_raw pk_noise cor_reso Hpk Hs -> -> ->. rewrite Hpk. simpl.
    rewrite Hs. eexists. split; [reflexivity|]. split; [|split].
    + rewrite alist_get_set. reflexivity.
    + eapply alist_set_names, Hpk.
    + intros name Hne. rewrite alist_get_set.
      destruct (String.eqb "Pk" name) eqn:E; [|reflexivity].
      apply String.eqb_eq in E. congruence.
Qed.
End CleanPower.

(** ** Velocity units *)

(** The name [s] contains [p]: [p] stands somewhere in [s]. *)
Definition contains (s p : string) : Prop :=
  ∃ before after, s = before +:+ p +:+ after.

Lemma prefix_spec (p s : string) :
  String.prefix p s = true ↔ ∃ after, s = p +:+ after.
Proof.
  revert p. induction s as [|b s IH]; intros [|a p]; simpl.
  - split; [intros _; exists EmptyString; reflexivity|reflexivity].
  - split; [discriminate|]. intros [after Ha]. discriminate.
  - split; [intros _; exists (String b s); reflexivity|reflexivity].
  - destruct (Ascii.ascii_dec a b) as [->|Hne].
    + rewrite IH. split; intros [after Ha]; exists after.
      * rewrite Ha. reflexivity.
      * injection Ha as ->. reflexivity.
    + split; [discriminate|]. intros [after Ha].
      injection Ha as Hab _. congruence.
Qed.

Lemma substringb_contains (p s : string) :
  substringb p s = true ↔ contains s p.
Proof.
  induction s as [|b s IH]; cbn [substringb].
  - rewrite orb_false_r, prefix_spec. split.
    + intros [after Ha]. exists EmptyString, after. exact Ha.
    + intros ([|c before] & after & Ha); simpl in Ha; [|discriminate].
      exists after. exact Ha.
  - rewrite orb_true_iff, prefix_spec, IH. split.
    + intros [[after Ha]|(before & after & Ha)].
      * exists EmptyString, after. exact Ha.
      * exists (String b before), after. simpl. rewrite Ha. reflexivity.
    + intros ([|c before] & after & Ha); simpl in Ha.
      * left. exists after. exact Ha.
      * injection Ha as -> Ha. right. exists before, after. exact Ha.
Qed.

Section VelocityUnits.
Context {F : Type} `{Arith F} `{Env F}.

(** The factor of line 215, row by row. *)
Definition conversion_factor_of (forest_z : list F) : list F :=
  map (fun z => (ABSORBER_IGM_LYA ⊗ (of_Z 1 ⊕ z)) ⊘ SPEED_LIGHT) forest_z.

(** What the conversion does to the column [name]. *)
Definition rescale (cf : list F) (name : string) (c : list F) : list F :=
  if String.eqb name "k" then zip_with fmul c cf
  else if substringb "Pk" name then zip_with fdiv c cf
  else c.

Lemma convert_loop (cf : list F) (l : list string) (t t' : P1DTable F) :
  NoDup l →
  foldM (fun t col =>
           if substringb "Pk" col then
             let* c := col_get t col in
             ret (col_set t col (zip_with fdiv c cf))
           else ret t) t l = inr t' →
  forest_id t' = forest_id t ∧ sub_forest_id t' = sub_forest_id t ∧
  colnames_stats t' = colnames_stats t ∧
  ∀ name, alist_get (cols t') name =
          (if bool_decide (name ∈ l) && substringb "Pk" name
           then (fun c => zip_with fdiv c cf) <$> alist_get (cols t) name
           else alist_get (cols t) name).
Proof.
  revert t. induction l as [|a l IH]; intros t Hnd Hf; simpl in Hf.
  - injection Hf as <-. split_and!; [reflexivity..|]. intros name.
    rewrite bool_decide_eq_false_2 by apply not_elem_of_nil. reflexivity.
  - apply NoDup_cons in Hnd as [Ha Hnd]. bind_inv Hf.
    destruct (IH _ Hnd Hf) as (Hfid & Hsid & Hnames & Hget). clear IH Hf.
    destruct (substringb "Pk" a) eqn:Ea.
    + bind_inv E. injection E as <-. unfold col_get in E0.
      destruct (alist_get (cols t) a) as [c|] eqn:Eget; [|discriminate].
      injection E0 as <-. simpl in *.
      rewrite Hfid, Hsid, Hnames. unfold colnames_stats. simpl.
      rewrite (alist_set_names _ _ _ _ Eget). split_and!; [reflexivity..|].
      intros name. rewrite Hget, alist_get_set.
      destruct (String.eqb a name) eqn:Ean.
      * apply String.eqb_eq in Ean as <-.
        rewrite (bool_decide_eq_false_2 _ Ha). simpl.
        rewrite bool_decide_eq_true_2 by left. simpl.
        rewrite Ea, Eget. reflexivity.
      * assert (a ≠ name) by (intros ->; rewrite String.eqb_refl in Ean; discriminate).
        destruct (bool_decide (name ∈ l)) eqn:El.
        -- rewrite bool_decide_eq_true_2
             by (right; eapply bool_decide_eq_true_1, El). reflexivity.
        -- rewrite bool_decide_eq_false_2; [reflexivity|].
           intros [?|?]%elem_of_cons; [congruence|].
           apply bool_decide_eq_false_1 in El. contradiction.
    + injection E as <-. rewrite Hfid, Hsid, Hnames. split_and!; [reflexivity..|].
      intros name. rewrite Hget.
      destruct (decide (name = a)) as [->|Hne].
      * rewrite (bool_decide_eq_false_2 _ Ha), Ea, !andb_false_r. reflexivity.
      * destruct (bool_decide (name ∈ l)) eqn:El.
        -- rewrite bool_decide_eq_true_2
             by (right; eapply bool_decide_eq_true_1, El). reflexivity.
        -- rewrite bool_decide_eq_false_2; [reflexivity|].
           intros [?|?]%elem_of_cons; [congruence|].
           apply bool_decide_eq_false_1 in El. contradiction.
Qed.

Lemma convert_velunits_spec (t t' : P1DTable F) :
  NoDup (colnames_stats t) →
  convert_velunits t (colnames_stats t) = inr t' →
  forest_id t' = forest_id t ∧ sub_forest_id t' = sub_forest_id t ∧
  colnames_stats t' = colnames_stats t ∧
  ∃ forest_z, col_get t "forest_z" = inr forest_z ∧
    ∀ name, alist_get (cols t') name =
            rescale (conversion_factor_of forest_z) name
              <$> alist_get (cols t) name.
Proof.
  intros Hnd Hc. unfold convert_velunits in Hc.
  bind_inv Hc. bind_inv Hc. rename a into forest_z, a0 into k.
  apply convert_loop in Hc as (Hfid & Hsid & Hnames & Hget); [|exact Hnd].
  unfold col_get in E0.
  destruct (alist_get (cols t) "k") as [k'|] eqn:Ek; [|discriminate].
  injection E0 as ->. simpl in *.
  unfold colnames_stats in *. simpl in Hnames.
  rewrite (alist_set_names _ _ _ _ Ek) in Hnames.
  split_and!; try assumption.
  exists forest_z. split; [exact E|]. intros name.
  rewrite Hget, alist_get_set. unfold rescale. fold (conversion_factor_of forest_z).
  destruct (String.eqb "k" name) eqn:Ekn.
  - apply String.eqb_eq in Ekn as <-. rewrite andb_false_r, Ek. reflexivity.
  - rewrite String.eqb_sym, Ekn.
    destruct (substringb "Pk" name) eqn:Ep.
    + destruct (bool_decide (name ∈ map fst (cols t))) eqn:El; [reflexivity|].
      apply bool_decide_eq_false_1 in El.
      rewrite (alist_get_None _ _ El). reflexivity.
    + rewrite andb_false_r. destruct (alist_get (cols t) name); reflexivity.
Qed.

(** The input table after a run is the input table itself or its
    conversion to velocity units. *)
Lemma compute_mean_pk1d_p1d_table (t : P1DTable F) (z_array ze ke : list F)
    (wm : string) (azw nomed velunits cc : bool) (out : Output F) :
  compute_mean_pk1d t z_array ze ke wm azw nomed velunits cc = inr out →
  (if velunits then convert_velunits t (colnames_stats t)
   else ret t) = inr (out_p1d_table out).
Proof.
  intros Hc. unfold compute_mean_pk1d in Hc.
  bind_inv Hc. rewrite E. do 8 bind_inv Hc. injection Hc as <-. reflexivity.
Qed.

(** C10: a run without [velunits] leaves the input table as it was; a
    run with [velunits] multiplies the column ['k'] by the factor
    [ABSORBER_IGM['LYA'] * (1 + forest_z) / SPEED_LIGHT] of each row,
    divides by it every column whose name contains ['Pk'], among them
    ['Pk'], ['Pk_raw'], ['Pk_noise'] and ['Pk_diff'], and leaves every
    other column as it was, among them ['Delta2'], ['cor_reso'],
    ['forest_z'] and ['forest_snr']. *)
Theorem C10_velunits_rescales_k_and_Pk (t : P1DTable F)
    (z_array ze ke : list F) (wm : string) (azw nomed velunits cc : bool)
    (out : Output F) :
  NoDup (colnames_stats t) →
  compute_mean_pk1d t z_array ze ke wm azw nomed velunits cc = inr out →
  let t' := out_p1d_table out in
  (velunits = false → t' = t) ∧
  (velunits = true →
   forest_id t' = forest_id t ∧ sub_forest_id t' = sub_forest_id t ∧
   colnames_stats t' = colnames_stats t ∧
   ∃ forest_z, col_get t "forest_z" = inr forest_z ∧
     let cf := conversion_factor_of forest_z in
     alist_get (cols t') "k"
     = (fun c => zip_with fmul c cf) <$> alist_get (cols t) "k" ∧
     (∀ name, contains name "Pk" →
              alist_get (cols t') name
              = (fun c => zip_with fdiv c cf) <$> alist_get (cols t) name) ∧
     (∀ name, name ≠ "k" → ¬ contains name "Pk" →
              alist_get (cols t') name = alist_get (cols t) name) ∧
     (∀ name, name ∈ ["Pk"; "Pk_raw"; "Pk_noise"; "Pk_diff";
                      "Pk_noise_miss"; "Pk_norescor"; "Pk_nonoise";
                      "Pk_noraw"; "Pk_noraw_miss"] →
              alist_get (cols t') name
              = (fun c => zip_with fdiv c cf) <$> alist_get (cols t) name) ∧
     (∀ name, name ∈ ["Delta2"; "cor_reso"; "forest_z"; "forest_snr"] →
              alist_get (cols t') name = alist_get (cols t) name)).
Proof.
  intros Hnd Hc t'. apply compute_mean_pk1d_p1d_table in Hc. fold t' in Hc.
  split; intros ->.
  - injection Hc as <-. reflexivity.
  - apply convert_velunits_spec in Hc as (Hfid & Hsid & Hnames & fz & Hfz & Hget);
      [|exact Hnd].
    split_and!; try assumption. exists fz. split; [exact Hfz|]. cbv zeta.
    assert (Hdiv : ∀ name, contains name "Pk" →
              alist_get (cols t') name
              = (fun c => zip_with fdiv c (conversion_factor_of fz))
                  <$> alist_get (cols t) name).
    { intros name Hin. rewrite Hget. unfold rescale.
      destruct (String.eqb name "k") eqn:Ek.
      - apply String.eqb_eq in Ek as ->.
        apply substringb_contains in Hin. discriminate.
      - apply substringb_contains in Hin. rewrite Hin. reflexivity. }
    assert (Hkeep : ∀ name, name ≠ "k" → ¬ contains name "Pk" →
              alist_get (cols t') name = alist_get (cols t) name).
    { intros name Hk Hin. rewrite Hget. unfold rescale.
      destruct (String.eqb name "k") eqn:Ek;
        [apply String.eqb_eq in Ek; contradiction|].
      destruct (substringb "Pk" name) eqn:Ep;
        [apply substringb_contains in Ep; contradiction|].
      destruct (alist_get (cols t) name); reflexivity. }
    split_and!.
    + rewrite Hget. reflexivity.
    + exact Hdiv.
    + exact Hkeep.
    + intros name Hin. apply Hdiv, substringb_contains.
      repeat (apply elem_of_cons in Hin as [->|Hin]; [reflexivity|]).
      inversion Hin.
    + intros name Hin.
      assert (String.eqb name "k" = false ∧ substringb "Pk" name = false)
        as [Ek Ep].
      { repeat (apply elem_of_cons in Hin as [->|Hin]; [split; reflexivity|]).
        inversion Hin. }
      apply Hkeep.
      * intros ->. discriminate.
      * intros Hc'%substringb_contains. congruence.
Qed.
End VelocityUnits.

(** ** The covariance estimator *)

Section CovarianceFacts.
Context {F : Type} `{Arith F}.

(** Position of the coefficient [(j, j')] in the flattened matrix. *)
Definition cell (nbins_k j j' : nat) : nat := (nbins_k * j + j')%nat.

Lemma cell_lt (nbins_k j j' : nat) :
  (j < nbins_k)%nat → (j' < nbins_k)%nat →
  (cell nbins_k j j' < nbins_k * nbins_k)%nat.
Proof. unfold cell. nia. Qed.

Lemma cell_inj (nbins_k a b a' b' : nat) :
  (b < nbins_k)%nat → (b' < nbins_k)%nat →
  cell nbins_k a b = cell nbins_k a' b' → a = a' ∧ b = b'.
Proof.
  unfold cell. intros Hb Hb' Heq.
  assert (a = a') as ->.
  { destruct (Nat.lt_trichotomy a a') as [Hlt|[Heq'|Hgt]]; [nia|exact Heq'|nia]. }
  split; [reflexivity|lia].
Qed.

(** A k bin of [k_index]: [-1] or the number of a bin. *)
Definition valid_bin (nbins_k : nat) (v : Z) : Prop :=
  v = -1 ∨ 0 ≤ v < Z.of_nat nbins_k.

(** *** The sums the first loop accumulates

    For every pair of samples of a sub-forest, a sample with itself
    included and the first sample not after the second, the product of
    their values goes to the coefficient of their two k bins. *)

Fixpoint products_with (pk : F) (l : list (Z * F)) (j' : nat) : list F :=
  match l with
  | [] => []
  | (ikbin2, pk2) :: l' =>
      if ikbin2 =? Z.of_nat j' then pk ⊗ pk2 :: products_with pk l' j'
      else products_with pk l' j'
  end.

Fixpoint pair_products (selected : list (Z * F)) (j j' : nat) : list F :=
  match selected with
  | [] => []
  | (ikbin, pk) :: rest =>
      (if ikbin =? Z.of_nat j then products_with pk selected j' else [])
      ++ pair_products rest j j'
  end.

(** The products of all the sub-forests of the redshift bin, in the
    order of [sub_forest_ids]. *)
Fixpoint all_products (groups : list (list (Z * F))) (j j' : nat) : list F :=
  match groups with
  | [] => []
  | g :: groups' => pair_products g j j' ++ all_products groups' j j'
  end.










Lemma mask_Forall {A} (P : A → Prop) (l : list A) (m : list bool) :
  Forall P l → Forall P (mask l m).
Proof.
  intros Hl. revert m. induction Hl as [|x l Hx Hl IH]; intros [|[] m];
    simpl; auto.
Qed.

Lemma zip_Forall_fst {A B} (P : A → Prop) (l : list A) (k : list B) :
  Forall P l → Forall (fun s => P s.1) (zip l k).
Proof.
  intros Hl. revert k. induction Hl as [|x l Hx Hl IH]; intros [|y k];
    simpl; auto.
Qed.

Lemma select_sub_forest_valid (t : P1DTable F) (k_index : list Z)
    (select_z : list bool) (sub_id : string) (nbins_k : nat)
    (g : list (Z * F)) :
  Forall (valid_bin nbins_k) k_index →
  select_sub_forest t k_index select_z sub_id = inr g →
  Forall (fun s => valid_bin nbins_k s.1) g.
Proof.
  intros Hv Hs. unfold select_sub_forest in Hs.
  do 5 bind_inv Hs. injection Hs as <-.
  unfold np_mask in E3. case_decide; [|discriminate]. injection E3 as <-.
  apply zip_Forall_fst, mask_Forall, Hv.
Qed.



(** *** The second loop *)

(** Lines 776-778. *)
Definition norm_value (c : F) (n : Z) (mean_ikbin mean_ikbin2 : F) : F :=
  ((c ⊘ of_Z n) ⊖ mean_ikbin ⊗ mean_ikbin2) ⊘ of_Z n.

Section SecondLoop.
Variables (T : MeanTable F) (zbin_centers : list F) (nbins_k izbin : nat).
Variable st0 : CovArrays F.

Let mean (x : nat) : res F := stat_get T "meanPk" (nbins_k * izbin + x).

(** The coefficient [(x, y)] of the upper triangle and its mirror
    hold the normalised sum of [st0]. *)
Definition normalised_at (st : CovArrays F) (x y : nat) : Prop :=
  ∃ c n mx my,
    covariance_array st0 !! cell nbins_k x y = Some c ∧
    n_array st0 !! cell nbins_k x y = Some n ∧
    mean x = inr mx ∧ mean y = inr my ∧
    covariance_array st !! cell nbins_k x y = Some (norm_value c n mx my) ∧
    covariance_array st !! cell nbins_k y x = Some (norm_value c n mx my) ∧
    n_array st !! cell nbins_k x y = Some n ∧
    n_array st !! cell nbins_k y x = Some n.

Definition untouched_at (st : CovArrays F) (x y : nat) : Prop :=
  covariance_array st !! cell nbins_k x y
    = covariance_array st0 !! cell nbins_k x y ∧
  n_array st !! cell nbins_k x y = n_array st0 !! cell nbins_k x y.

(** The pairs the loop has passed when it stands at [(a, b)]. *)
Definition passed (a b x y : nat) : Prop :=
  (x < a)%nat ∨ (x = a ∧ y < b)%nat.

Definition second_loop_inv (a b : nat) (st : CovArrays F) : Prop :=
  ∀ x y, (x ≤ y < nbins_k)%nat →
    (passed a b x y → normalised_at st x y) ∧
    (¬ passed a b x y → untouched_at st x y).

Lemma normalise_spec (a b : nat) (ma : F) (st st' : CovArrays F) :
  normalise T zbin_centers nbins_k izbin a ma st b = inr st' →
  ∃ mb c n,
    mean b = inr mb ∧
    covariance_array st !! cell nbins_k a b = Some c ∧
    n_array st !! cell nbins_k a b = Some n ∧
    (cell nbins_k b a < length (covariance_array st))%nat ∧
    (cell nbins_k b a < length (n_array st))%nat ∧
    covariance_array st' =
      <[cell nbins_k b a := norm_value c n ma mb]>
        (<[cell nbins_k a b := norm_value c n ma mb]> (covariance_array st)) ∧
    n_array st' = <[cell nbins_k b a := n]> (n_array st).
Proof.
  intros Hn. unfold normalise in Hn. fold (cell nbins_k a b) in Hn.
  fold (cell nbins_k b a) in Hn. fold (mean b) in Hn.
  do 7 bind_inv Hn. rename a0 into mb, a1 into c, a2 into n.
  apply py_get_inr in E0, E1. apply py_set_inr in E2 as [Hlt ->].
  exists mb, c, n. fold (norm_value c n ma mb) in *.
  destruct (b =? a)%nat eqn:Eba.
  - apply Nat.eqb_eq in Eba as ->. injection Hn as <-. simpl.
    split_and!; try assumption.
    + eapply lookup_lt_Some, E1.
    + rewrite list_insert_insert_eq. reflexivity.
    + symmetry. apply list_insert_id, E1.
  - do 7 bind_inv Hn. injection Hn as <-. simpl.
    apply py_get_inr in E2, E7. apply py_set_inr in E6 as [Hlt2 ->].
    apply py_set_inr in E8 as [Hlt3 ->].
    rewrite list_lookup_insert_eq in E2 by assumption.
    injection E2 as <-. rewrite length_insert in Hlt2.
    assert (a2 = n) as -> by congruence.
    split_and!; try assumption; reflexivity.
Qed.

Lemma second_loop_inv_step (a b : nat) (ma : F) (st st' : CovArrays F) :
  (a ≤ b < nbins_k)%nat → mean a = inr ma →
  second_loop_inv a b st →
  normalise T zbin_centers nbins_k izbin a ma st b = inr st' →
  second_loop_inv a (S b) st'.
Proof.
  intros Hab Hma Hinv Hn.
  apply normalise_spec in Hn
    as (mb & c & n & Hmb & Hc & Hnn & Hlt & Hlt' & Hcov & Hna).
  intros x y Hxy. unfold normalised_at, untouched_at. rewrite Hcov, Hna.
  destruct (decide (x = a ∧ y = b)) as [[-> ->]|Hne].
  - split; [intros _|intros Hp; exfalso; apply Hp; right; lia].
    destruct (Hinv a b Hxy) as [_ Hu].
    destruct Hu as [Hu1 Hu2]; [unfold passed; lia|].
    exists c, n, ma, mb. rewrite <- Hu1, <- Hu2.
    split_and!; try assumption.
    + destruct (decide (a = b)) as [->|Hd].
      * apply list_lookup_insert_eq. rewrite length_insert. exact Hlt.
      * rewrite list_lookup_insert_ne.
        -- apply list_lookup_insert_eq. eapply lookup_lt_Some, Hc.
        -- intros Heq. apply cell_inj in Heq; lia.
    + apply list_lookup_insert_eq. rewrite length_insert. exact Hlt.
    + destruct (decide (a = b)) as [->|Hd].
      * apply list_lookup_insert_eq. exact Hlt'.
      * rewrite list_lookup_insert_ne; [exact Hnn|].
        intros Heq. apply cell_inj in Heq; lia.
    + apply list_lookup_insert_eq. exact Hlt'.
  - assert (Hd1 : cell nbins_k a b ≠ cell nbins_k x y)
      by (intros Heq; apply cell_inj in Heq; lia).
    assert (Hd2 : cell nbins_k b a ≠ cell nbins_k x y)
      by (intros Heq; apply cell_inj in Heq; lia).
    assert (Hd3 : cell nbins_k a b ≠ cell nbins_k y x)
      by (intros Heq; apply cell_inj in Heq; lia).
    assert (Hd4 : cell nbins_k b a ≠ cell nbins_k y x)
      by (intros Heq; apply cell_inj in Heq; lia).
    destruct (Hinv x y Hxy) as [Hp Hu]. split.
    + intros Hpass.
      destruct Hp as (c' & n' & mx & my & H1 & H2 & H3 & H4 & H5 & H6 & H7 & H8).
      { destruct Hpass as [?|[-> ?]]; [left; assumption|right; lia]. }
      exists c', n', mx, my.
      rewrite !list_lookup_insert_ne by assumption.
      split_and!; assumption.
    + intros Hnp. destruct Hu as [Hu1 Hu2].
      { intros [?|[-> ?]]; apply Hnp; [left; assumption|right; lia]. }
      split; rewrite !list_lookup_insert_ne by assumption; assumption.
Qed.

Lemma second_loop_inv_row (a : nat) (ma : F) (len b : nat)
    (st st' : CovArrays F) :
  (a ≤ b)%nat → (b + len ≤ nbins_k)%nat → mean a = inr ma →
  second_loop_inv a b st →
  foldM (normalise T zbin_centers nbins_k izbin a ma) st (seq b len)
    = inr st' →
  second_loop_inv a (b + len) st'.
Proof.
  revert b st. induction len as [|len IH]; intros b st Hab Hlen Hma Hinv Hf.
  - injection Hf as <-. rewrite Nat.add_0_r. exact Hinv.
  - simpl in Hf. bind_inv Hf.
    replace (b + S len)%nat with (S b + len)%nat by lia.
    eapply IH; [lia|lia|exact Hma| |exact Hf].
    eapply second_loop_inv_step; [|exact Hma|exact Hinv|exact E]. lia.
Qed.

Lemma second_loop_inv_next (a : nat) (st : CovArrays F) :
  second_loop_inv a nbins_k st → second_loop_inv (S a) (S a) st.
Proof.
  intros Hinv x y Hxy. destruct (Hinv x y Hxy) as [Hp Hu]. split.
  - intros Hpass. apply Hp. unfold passed in *. lia.
  - intros Hnp. apply Hu. unfold passed in *. lia.
Qed.

Lemma second_loop_inv_rows (len a : nat) (st st' : CovArrays F) :
  (a + len ≤ nbins_k)%nat →
  second_loop_inv a a st →
  foldM (fun st ikbin =>
           let* mean_ikbin := mean ikbin in
           foldM (normalise T zbin_centers nbins_k izbin ikbin mean_ikbin)
                 st (seq ikbin (nbins_k - ikbin)))
        st (seq a len) = inr st' →
  second_loop_inv (a + len) (a + len) st'.
Proof.
  revert a st. induction len as [|len IH]; intros a st Hlen Hinv Hf.
  - injection Hf as <-. rewrite Nat.add_0_r. exact Hinv.
  - simpl in Hf. bind_inv Hf. bind_inv E. rename a1 into ma.
    replace (a + S len)%nat with (S a + len)%nat by lia.
    eapply IH; [lia| |exact Hf].
    apply second_loop_inv_next.
    pose proof (second_loop_inv_row a ma (nbins_k - a) a st a0
                  ltac:(lia) ltac:(lia) E0 Hinv E) as Hrow.
    replace (a + (nbins_k - a))%nat with nbins_k in Hrow by lia.
    exact Hrow.
Qed.
End SecondLoop.

Lemma second_loop_spec (T : MeanTable F) (zbin_centers : list F)
    (nbins_k izbin : nat) (st st' : CovArrays F) :
  second_loop T zbin_centers nbins_k izbin st = inr st' →
  ∀ x y, (x ≤ y < nbins_k)%nat → normalised_at T nbins_k izbin st st' x y.
Proof.
  intros Hs x y Hxy. unfold second_loop in Hs.
  apply (second_loop_inv_rows T zbin_centers nbins_k izbin st nbins_k 0) in Hs.
  - apply Hs; [exact Hxy|]. left. lia.
  - lia.
  - intros x' y' _. split; [unfold passed; lia|]. intros _. split; reflexivity.
Qed.
Lemma compute_cov_inv (t : P1DTable F) (T : MeanTable F) (zc : list F)
    (n_chunks k_index : list Z) (nbins_k izbin : nat) (select_z : list bool)
    (ids : list string) (out : CovArrays F) :
  compute_cov t T zc n_chunks k_index nbins_k izbin select_z ids = inr out →
  ∃ n, n_chunks !! izbin = Some n ∧
    ((n = 0 ∧
      covariance_array out = replicate (nbins_k * nbins_k) fnan ∧
      n_array out = replicate (nbins_k * nbins_k) 0) ∨
     (n ≠ 0 ∧ ∃ st,
        first_loop t k_index nbins_k select_z ids
          {| zbin_array := replicate (nbins_k * nbins_k) (of_Z 0);
             index_zbin_array := replicate (nbins_k * nbins_k) 0;
             n_array := replicate (nbins_k * nbins_k) 0;
             covariance_array := replicate (nbins_k * nbins_k) (of_Z 0) |}
          = inr st ∧
        second_loop T zc nbins_k izbin st = inr out)).
Proof.
  intros Hc. unfold compute_cov in Hc. bind_inv Hc. rename a into n.
  apply py_get_inr in E. exists n. split; [exact E|].
  destruct (n =? 0) eqn:En.
  - apply Z.eqb_eq in En. bind_inv Hc. injection Hc as <-. left. auto.
  - apply Z.eqb_neq in En. bind_inv Hc. right. eauto.
Qed.

(** The samples of the sub-forest [sub_id] in the redshift bin, in the
    order of the table: the k bin and the value of ['Pk'] of every row
    that [select_z] selects and whose ['sub_forest_id'] is [sub_id]. *)
Definition group_of (select_z : list bool) (sub_forest_ids : list string)
    (k_index : list Z) (pk : list F) (sub_id : string) : list (Z * F) :=
  omap (fun r : bool * string * (Z * F) =>
          if r.1.1 && bool_decide (r.1.2 = sub_id) then Some r.2 else None)
       (zip (zip select_z sub_forest_ids) (zip k_index pk)).





(** The pairs as the specification has them: every unordered pair of
    samples of a group, a sample with itself included, counts for the
    coefficient of its two k bins, whichever of the two samples comes
    first in the table. *)
Fixpoint products_either (ikbin : Z) (pk : F) (l : list (Z * F))
    (j j' : nat) : list F :=
  match l with
  | [] => []
  | (ikbin2, pk2) :: l' =>
      if ((ikbin =? Z.of_nat j) && (ikbin2 =? Z.of_nat j'))
         || ((ikbin =? Z.of_nat j') && (ikbin2 =? Z.of_nat j))
      then pk ⊗ pk2 :: products_either ikbin pk l' j j'
      else products_either ikbin pk l' j j'
  end.

Fixpoint unordered_products (selected : list (Z * F)) (j j' : nat) : list F :=
  match selected with
  | [] => []
  | (ikbin, pk) :: rest =>
      products_either ikbin pk selected j j' ++ unordered_products rest j j'
  end.









(** C5: the matrix returned by [compute_cov] is symmetric, entry by
    entry and count by count. *)
Theorem C5_covariance_symmetric (t : P1DTable F) (T : MeanTable F)
    (zc : list F) (n_chunks k_index : list Z) (nbins_k izbin : nat)
    (select_z : list bool) (ids : list string) (out : CovArrays F) :
  compute_cov t T zc n_chunks k_index nbins_k izbin select_z ids = inr out →
  ∀ j j', (j < nbins_k)%nat → (j' < nbins_k)%nat →
    ∃ v m,
      covariance_array out !! cell nbins_k j j' = Some v ∧
      covariance_array out !! cell nbins_k j' j = Some v ∧
      n_array out !! cell nbins_k j j' = Some m ∧
      n_array out !! cell nbins_k j' j = Some m.
Proof.
  intros Hc j j' Hj Hj'.
  apply compute_cov_inv in Hc as (n & _ & Hc).
  destruct Hc as [(_ & Hcov & Hna)|(_ & st & _ & H2)].
  - exists fnan, 0. rewrite Hcov, Hna.
    split_and!; apply lookup_replicate_2, cell_lt; assumption.
  - destruct (decide (j ≤ j')%nat) as [Hle|Hgt].
    + destruct (second_loop_spec _ _ _ _ _ _ H2 j j')
        as (c & m & mj & mj' & _ & _ & _ & _ & Hr1 & Hr2 & Hr3 & Hr4); [lia|].
      eauto 10.
    + destruct (second_loop_spec _ _ _ _ _ _ H2 j' j)
        as (c & m & mj & mj' & _ & _ & _ & _ & Hr1 & Hr2 & Hr3 & Hr4); [lia|].
      eauto 10.
Qed.
End CovarianceFacts.

(** ** The table of statistics *)

(** The five statistics a column can have. *)
Definition stats_all : list string := ["mean"; "error"; "min"; "max"; "median"].

Lemma stat_key_inj (s1 s2 c1 c2 : string) :
  s1 ∈ stats_all → s2 ∈ stats_all → s1 +:+ c1 = s2 +:+ c2 → s1 = s2 ∧ c1 = c2.
Proof.
  unfold stats_all. intros H1 H2 Heq.
  repeat (apply elem_of_cons in H1 as [->|H1]);
    try (inversion H1; fail);
    repeat (apply elem_of_cons in H2 as [->|H2]);
    try (inversion H2; fail);
    cbv in Heq; split; congruence.
Qed.

Section MeanTableFacts.
Context {F : Type}.

(** The entry of the column [name] in the row [row]. *)
Definition stat_at (T : MeanTable F) (name : string) (row : nat) : option F :=
  match stat T !! name with
  | Some c => c !! row
  | None => None
  end.

(** [T'] has the bin columns of [T] and the statistics of [T] outside
    the row [index]; columns keep their length. *)
Definition stats_frame (index : nat) (T T' : MeanTable F) : Prop :=
  zbin T' = zbin T ∧ index_zbin T' = index_zbin T ∧ N T' = N T ∧
  (∀ name, length <$> stat T' !! name = length <$> stat T !! name) ∧
  (∀ name row, row ≠ index → stat_at T' name row = stat_at T name row).

Lemma stats_frame_refl (index : nat) (T : MeanTable F) : stats_frame index T T.
Proof. unfold stats_frame. auto. Qed.

Lemma stats_frame_trans (index : nat) (T1 T2 T3 : MeanTable F) :
  stats_frame index T1 T2 → stats_frame index T2 T3 → stats_frame index T1 T3.
Proof.
  intros (Hz1 & Hi1 & Hn1 & Hl1 & Hs1) (Hz2 & Hi2 & Hn2 & Hl2 & Hs2).
  unfold stats_frame. split_and!; [congruence|congruence|congruence| |].
  - intros name. rewrite Hl2. apply Hl1.
  - intros name row Hr. rewrite Hs2 by exact Hr. apply Hs1, Hr.
Qed.

Lemma stat_set_spec (T T' : MeanTable F) (name : string) (index : nat) (v : F) :
  stat_set T name index v = inr T' →
  stats_frame index T T' ∧
  stat_at T' name index = Some v ∧
  ∀ name', name' ≠ name → stat_at T' name' index = stat_at T name' index.
Proof.
  unfold stat_set. destruct (stat T !! name) as [c|] eqn:Ec; [|discriminate].
  intros Hs. bind_inv Hs. injection Hs as <-.
  apply py_set_inr in E as [Hlt ->].
  unfold stats_frame, stat_at. simpl. split_and!; try reflexivity.
  - intros name'. destruct (decide (name = name')) as [<-|Hne].
    + rewrite lookup_insert_eq, Ec. simpl. rewrite length_insert. reflexivity.
    + rewrite lookup_insert_ne by exact Hne. reflexivity.
  - intros name' row Hr. destruct (decide (name = name')) as [<-|Hne].
    + rewrite lookup_insert_eq, Ec. apply list_lookup_insert_ne. auto.
    + rewrite lookup_insert_ne by exact Hne. reflexivity.
  - rewrite lookup_insert_eq. apply list_lookup_insert_eq, Hlt.
  - intros name' Hne. rewrite lookup_insert_ne by auto. reflexivity.
Qed.
End MeanTableFacts.

Lemma length_removelast {A} (l : list A) :
  length (removelast l) = (length l - 1)%nat.
Proof. induction l as [|x [|y l] IH]; simpl in *; auto. lia. Qed.

Lemma lookup_set_slice {A} (l : list A) (lo hi p : nat) (v : A) :
  set_slice l lo hi v !! p =
  (fun x => if (lo <=? p)%nat && (p <? hi)%nat then v else x) <$> l !! p.
Proof. unfold set_slice. apply list_lookup_imap. Qed.

Lemma length_set_slice {A} (l : list A) (lo hi : nat) (v : A) :
  length (set_slice l lo hi v) = length l.
Proof. unfold set_slice. apply length_imap. Qed.

(** ** The aggregation, cell by cell *)

Section AggregatorFacts.
Context {F : Type} `{Arith F} `{Env F}.

Ltac key_neq := let Hk := fresh in intros Hk; cbv in Hk; congruence.

Section Cell.
Variables (t : P1DTable F) (weight_method : string).
Variables (apply_z_weights nomedians : bool).
Variables (select : list bool) (redshift_weights : list F).
Variables (num_chunks index : nat).

(** The mean and the error [fill_column] computes for [col]. *)
Definition column_stats (col : string) : res (F * F) :=
  cell_stats weight_method apply_z_weights redshift_weights num_chunks
             (selected t col select) (selected t "forest_snr" select).

(** The row [index] of [T] holds the mean and the error of [col]. *)
Definition holds_stats (T : MeanTable F) (col : string) : Prop :=
  ∃ mean error,
    column_stats col = inr (mean, error) ∧
    stat_at T ("mean" +:+ col) index = Some mean ∧
    stat_at T ("error" +:+ col) index = Some error.

Lemma fill_column_spec (T T' : MeanTable F) (col : string) :
  fill_column t weight_method apply_z_weights nomedians select
              redshift_weights num_chunks index T col = inr T' →
  stats_frame index T T' ∧
  (∀ name, (∀ s, s ∈ stats_all → name ≠ s +:+ col) →
           stat_at T' name index = stat_at T name index) ∧
  (num_chunks = 0%nat → T' = T) ∧
  (num_chunks ≠ 0%nat → holds_stats T' col).
Proof.
  unfold fill_column. destruct (num_chunks =? 0)%nat eqn:En.
  - apply Nat.eqb_eq in En. intros [= <-].
    split_and!; [apply stats_frame_refl|reflexivity|reflexivity|].
    intros Hne. contradiction.
  - apply Nat.eqb_neq in En. intros Hf.
    bind_inv Hf as me Hme. destruct me as [mean error].
    bind_inv Hf as values Hvalues. bind_inv Hf as minimum Hmin.
    bind_inv Hf as maximum Hmax.
    bind_inv Hf as T1 E1. bind_inv Hf as T2 E2.
    bind_inv Hf as T3 E3. bind_inv Hf as T4 E4.
    apply stat_set_spec in E1 as (Hf1 & Hv1 & Ho1).
    apply stat_set_spec in E2 as (Hf2 & Hv2 & Ho2).
    apply stat_set_spec in E3 as (Hf3 & Hv3 & Ho3).
    apply stat_set_spec in E4 as (Hf4 & Hv4 & Ho4).
    assert (Hfr : stats_frame index T T4)
      by eauto using stats_frame_trans.
    assert (Hoth : ∀ name, (∀ s, s ∈ stats_all → name ≠ s +:+ col) →
                     stat_at T4 name index = stat_at T name index).
    { intros name Hn. unfold stats_all in Hn.
      rewrite Ho4, Ho3, Ho2, Ho1; [reflexivity|..];
        apply Hn; set_solver. }
    assert (Hmean : stat_at T4 ("mean" +:+ col) index = Some mean).
    { rewrite Ho4, Ho3, Ho2 by key_neq. exact Hv1. }
    assert (Herr : stat_at T4 ("error" +:+ col) index = Some error).
    { rewrite Ho4, Ho3 by key_neq. exact Hv2. }
    destruct nomedians.
    + injection Hf as <-. split_and!; try assumption; [congruence|].
      intros _. exists mean, error. auto.
    + apply stat_set_spec in Hf as (Hf5 & Hv5 & Ho5).
      split_and!.
      * eauto using stats_frame_trans.
      * intros name Hn. rewrite Ho5; [apply Hoth, Hn|].
        apply Hn. unfold stats_all. set_solver.
      * congruence.
      * intros _. exists mean, error.
        rewrite !Ho5 by key_neq. auto.
Qed.

Lemma fill_columns_spec (cols : list string) (T T' : MeanTable F) :
  foldM (fill_column t weight_method apply_z_weights nomedians select
                     redshift_weights num_chunks index) T cols = inr T' →
  stats_frame index T T' ∧
  (num_chunks = 0%nat → T' = T) ∧
  (num_chunks ≠ 0%nat → ∀ col, col ∈ cols → holds_stats T' col).
Proof.
  revert T'. induction cols as [|a cols IH] using rev_ind; intros T' Hf.
  - injection Hf as <-.
    split_and!; [apply stats_frame_refl|reflexivity|].
    intros _ col Hin. inversion Hin.
  - rewrite foldM_app in Hf. bind_inv Hf. simpl in Hf. bind_inv Hf.
    injection Hf as <-.
    destruct (IH _ E) as (Hfr & Hz & Hs).
    apply fill_column_spec in E0 as (Hfr' & Hoth & Hz' & Hs').
    split_and!.
    + eauto using stats_frame_trans.
    + intros Hn. rewrite (Hz' Hn). apply Hz, Hn.
    + intros Hn col [Hin|Hin]%elem_of_app.
      * destruct (decide (col = a)) as [->|Hne]; [apply Hs', Hn|].
        destruct (Hs Hn col Hin) as (mean & error & Hst & Hm & He).
        exists mean, error. split; [exact Hst|].
        rewrite !Hoth; [auto|..]; intros s Hsin Heq;
          (apply stat_key_inj in Heq as [_ ?];
           [congruence| |exact Hsin]); unfold stats_all;
          repeat constructor.
      * apply list_elem_of_singleton in Hin as ->. apply Hs', Hn.
Qed.
End Cell.

(** The rows [row] of [T] and [T'] are the same. *)
Definition row_eq (T T' : MeanTable F) (row : nat) : Prop :=
  zbin T' !! row = zbin T !! row ∧
  index_zbin T' !! row = index_zbin T !! row ∧
  N T' !! row = N T !! row ∧
  ∀ name, stat_at T' name row = stat_at T name row.

Definition same_shape (T T' : MeanTable F) : Prop :=
  length (zbin T') = length (zbin T) ∧
  length (index_zbin T') = length (index_zbin T) ∧
  length (N T') = length (N T) ∧
  ∀ name, length <$> stat T' !! name = length <$> stat T !! name.

Lemma row_eq_refl (T : MeanTable F) (row : nat) : row_eq T T row.
Proof. unfold row_eq. auto. Qed.

Lemma row_eq_trans (T1 T2 T3 : MeanTable F) (row : nat) :
  row_eq T1 T2 row → row_eq T2 T3 row → row_eq T1 T3 row.
Proof.
  intros (Hz1 & Hi1 & Hn1 & Hs1) (Hz2 & Hi2 & Hn2 & Hs2).
  unfold row_eq. split_and!; [congruence|congruence|congruence|].
  intros name. rewrite Hs2. apply Hs1.
Qed.

Lemma same_shape_refl (T : MeanTable F) : same_shape T T.
Proof. unfold same_shape. auto. Qed.

Lemma same_shape_trans (T1 T2 T3 : MeanTable F) :
  same_shape T1 T2 → same_shape T2 T3 → same_shape T1 T3.
Proof.
  intros (Hz1 & Hi1 & Hn1 & Hs1) (Hz2 & Hi2 & Hn2 & Hs2).
  unfold same_shape. split_and!; [congruence|congruence|congruence|].
  intros name. rewrite Hs2. apply Hs1.
Qed.

Section Bin.
Variables (t : P1DTable F) (p1d_table_cols : list string).
Variables (weight_method : string) (apply_z_weights nomedians : bool).
Variables (nbins_z : nat) (zbin_centers zbin_edges : list F).
Variables (n_chunks : list Z) (nbins_k : nat) (kbin_edges : list F).

(** What [fill_cell] leaves in the row of the cell [(izbin, ikbin)]
    of [T'], the statistics of the row being those of [T] before. *)
Definition cell_filled (T T' : MeanTable F) (izbin ikbin : nat) : Prop :=
  let index := (nbins_k * izbin + ikbin)%nat in
  ∃ select redshift_weights c k,
    cell_selection t apply_z_weights nbins_z zbin_centers zbin_edges
                   kbin_edges izbin ikbin = inr (select, redshift_weights) ∧
    zbin_centers !! izbin = Some c ∧
    col_get t "k" = inr k ∧
    zbin T' !! index = Some c ∧
    index_zbin T' !! index = Some (Z.of_nat izbin) ∧
    N T' !! index = Some (Z.of_nat (length (mask k select))) ∧
    (length (mask k select) = 0%nat →
     ∀ name, stat_at T' name index = stat_at T name index) ∧
    (length (mask k select) ≠ 0%nat →
     ∀ col, col ∈ p1d_table_cols →
       holds_stats t weight_method apply_z_weights select redshift_weights
                   (length (mask k select)) index T' col).

Lemma cell_filled_row_eq (T0 T T1 T' : MeanTable F) (izbin ikbin : nat) :
  row_eq T0 T (nbins_k * izbin + ikbin) →
  row_eq T1 T' (nbins_k * izbin + ikbin) →
  cell_filled T T1 izbin ikbin → cell_filled T0 T' izbin ikbin.
Proof.
  intros (_ & _ & _ & Hs0) (Hz & Hi & Hn & Hs)
    (select & rw & c & k & Hsel & Hc & Hk & Hzb & Hib & HN & Hempty & Hfull).
  exists select, rw, c, k.
  split_and!; try assumption; try congruence.
  - intros Hnum name. rewrite Hs, Hempty by exact Hnum. apply Hs0.
  - intros Hnum col Hin.
    destruct (Hfull Hnum col Hin) as (mean & error & Hst & Hm & He).
    exists mean, error. rewrite !Hs. auto.
Qed.

Lemma fill_cell_spec (T T' : MeanTable F) (izbin ikbin : nat) :
  fill_cell t p1d_table_cols weight_method apply_z_weights nomedians
            nbins_z zbin_centers zbin_edges nbins_k kbin_edges izbin
            T ikbin = inr T' →
  same_shape T T' ∧
  (∀ row, row ≠ (nbins_k * izbin + ikbin)%nat → row_eq T T' row) ∧
  cell_filled T T' izbin ikbin.
Proof.
  intros Hf. unfold fill_cell in Hf.
  bind_inv Hf as sel Hsel. destruct sel as [select rw].
  bind_inv Hf as c Hc. bind_inv Hf as zb Hzb. bind_inv Hf as ib Hib.
  bind_inv Hf as k Hk. bind_inv Hf as nb Hnb.
  apply py_get_inr in Hc.
  apply py_set_inr in Hzb as [Hlz ->], Hib as [Hli ->], Hnb as [Hln ->].
  apply fill_columns_spec in Hf as ((Hz & Hi & Hn & Hlen & Hrows) & Hzero & Hst).
  simpl in Hz, Hi, Hn, Hlen, Hrows.
  split_and!.
  - unfold same_shape. rewrite Hz, Hi, Hn, !length_insert. auto.
  - intros row Hrow. unfold row_eq. rewrite Hz, Hi, Hn.
    rewrite !list_lookup_insert_ne by auto.
    split_and!; try reflexivity. intros name.
    rewrite Hrows by exact Hrow. reflexivity.
  - exists select, rw, c, k. rewrite Hz, Hi, Hn.
    rewrite !list_lookup_insert_eq by assumption.
    split_and!; try reflexivity; try assumption.
    intros Hnum name. rewrite (Hzero Hnum). reflexivity.
Qed.

(** The loop over the k bins, stopped after [m] bins. *)
Lemma fill_cells_spec (izbin m : nat) (T T' : MeanTable F) :
  foldM (fill_cell t p1d_table_cols weight_method apply_z_weights nomedians
                   nbins_z zbin_centers zbin_edges nbins_k kbin_edges izbin)
        T (seq 0 m) = inr T' →
  same_shape T T' ∧
  (∀ row, ¬ (nbins_k * izbin ≤ row < nbins_k * izbin + m)%nat →
          row_eq T T' row) ∧
  ∀ ikbin, (ikbin < m)%nat → cell_filled T T' izbin ikbin.
Proof.
  revert T'. induction m as [|m IH]; intros T' Hf.
  - injection Hf as <-.
    split_and!; [apply same_shape_refl|intros; apply row_eq_refl|].
    intros ikbin Hlt. lia.
  - rewrite seq_S, foldM_app in Hf. bind_inv Hf as T1 H1.
    simpl in Hf. bind_inv Hf as T2 H2. injection Hf as <-.
    destruct (IH _ H1) as (Hsh & Hrows & Hcells).
    apply fill_cell_spec in H2 as (Hsh' & Hrows' & Hcell).
    split_and!.
    + eauto using same_shape_trans.
    + intros row Hrow. eapply row_eq_trans; [apply Hrows|apply Hrows']; lia.
    + intros ikbin Hlt. destruct (decide (ikbin = m)) as [->|Hne].
      * eapply cell_filled_row_eq; [|apply row_eq_refl|exact Hcell].
        apply Hrows. lia.
      * eapply cell_filled_row_eq; [apply row_eq_refl| |apply Hcells; lia].
        apply Hrows'. lia.
Qed.
End Bin.

Section Bins.
Variables (t : P1DTable F) (p1d_table_cols : list string).
Variables (weight_method : string) (apply_z_weights nomedians : bool).
Variables (nbins_z : nat) (zbin_centers zbin_edges : list F).
Variables (n_chunks : list Z) (nbins_k : nat) (kbin_edges : list F).
Hypothesis Hnk : length (removelast kbin_edges) = nbins_k.

Let filled :=
  cell_filled t p1d_table_cols weight_method apply_z_weights nbins_z
              zbin_centers zbin_edges nbins_k kbin_edges.

(** What the aggregation leaves in the row of the cell
    [(izbin, ikbin)] of [T], the row being the one of [T0] before:
    the identity of the bin and, according to the number of chunks
    of the redshift bin, either the counts and statistics of [T0] or
    those of the cell. *)
Definition cell_done (T0 T : MeanTable F) (izbin ikbin : nat) : Prop :=
  let index := (nbins_k * izbin + ikbin)%nat in
  ∃ n c, n_chunks !! izbin = Some n ∧ zbin_centers !! izbin = Some c ∧
    zbin T !! index = Some c ∧
    index_zbin T !! index = Some (Z.of_nat izbin) ∧
    ((n = 0 ∧ N T !! index = N T0 !! index ∧
      ∀ name, stat_at T name index = stat_at T0 name index) ∨
     (n ≠ 0 ∧ filled T0 T izbin ikbin)).

Lemma cell_done_row_eq (T0 T T1 T' : MeanTable F) (izbin ikbin : nat) :
  row_eq T0 T (nbins_k * izbin + ikbin) →
  row_eq T1 T' (nbins_k * izbin + ikbin) →
  cell_done T T1 izbin ikbin → cell_done T0 T' izbin ikbin.
Proof.
  intros Hr0 Hr1 (n & c & Hn & Hc & Hz & Hi & Hcase).
  pose proof Hr0 as (_ & _ & HN0 & Hs0).
  pose proof Hr1 as (Hz1 & Hi1 & HN1 & Hs1).
  exists n, c. split_and!; try assumption; try congruence.
  destruct Hcase as [(-> & HN & Hst)|(Hne & Hf)]; [left|right].
  - split_and!; [reflexivity|congruence|].
    intros name. rewrite Hs1, Hst. apply Hs0.
  - split; [exact Hne|]. eapply cell_filled_row_eq; eassumption.
Qed.

Lemma fill_average_spec (T T' : MeanTable F) (izbin : nat) :
  (nbins_k * izbin + nbins_k ≤ length (zbin T))%nat →
  (nbins_k * izbin + nbins_k ≤ length (index_zbin T))%nat →
  fill_average_pk_redshift t p1d_table_cols T weight_method
    apply_z_weights nomedians nbins_z zbin_centers zbin_edges n_chunks
    nbins_k kbin_edges izbin = inr T' →
  same_shape T T' ∧
  (∀ row, ¬ (nbins_k * izbin ≤ row < nbins_k * izbin + nbins_k)%nat →
          row_eq T T' row) ∧
  ∀ ikbin, (ikbin < nbins_k)%nat → cell_done T T' izbin ikbin.
Proof.
  intros Hlz Hli Hf. unfold fill_average_pk_redshift in Hf.
  bind_inv Hf as n Hn. apply py_get_inr in Hn.
  destruct (n =? 0) eqn:En.
  - apply Z.eqb_eq in En as ->. bind_inv Hf as c Hc.
    apply py_get_inr in Hc. injection Hf as <-. split_and!.
    + unfold same_shape. simpl. rewrite !length_set_slice. auto.
    + intros row Hrow. unfold row_eq, stat_at. simpl.
      rewrite !lookup_set_slice.
      assert ((izbin * nbins_k <=? row)%nat
              && (row <? (izbin + 1) * nbins_k)%nat = false) as ->.
      { apply andb_false_iff.
        rewrite Nat.leb_gt, Nat.ltb_ge. lia. }
      split_and!; try reflexivity.
      * destruct (zbin T !! row); reflexivity.
      * destruct (index_zbin T !! row); reflexivity.
    + intros ikbin Hik. exists 0, c. simpl.
      rewrite !lookup_set_slice.
      assert ((izbin * nbins_k <=? nbins_k * izbin + ikbin)%nat
              && (nbins_k * izbin + ikbin <? (izbin + 1) * nbins_k)%nat
              = true) as ->.
      { apply andb_true_iff.
        rewrite Nat.leb_le, Nat.ltb_lt. lia. }
      destruct (lookup_lt_is_Some_2 (zbin T) (nbins_k * izbin + ikbin))
        as [z0 ->]; [lia|].
      destruct (lookup_lt_is_Some_2 (index_zbin T) (nbins_k * izbin + ikbin))
        as [i0 ->]; [lia|].
      split_and!; try reflexivity; try assumption.
      left. unfold stat_at. simpl. auto.
  - apply Z.eqb_neq in En. rewrite Hnk in Hf.
    apply fill_cells_spec in Hf as (Hsh & Hrows & Hcells).
    split_and!; [exact Hsh|exact Hrows|].
    intros ikbin Hik.
    destruct (Hcells ikbin Hik)
      as (select & rw & c & k & Hsel & Hc & Hk & Hzb & Hib & HN & Hrest).
    exists n, c. split_and!; try assumption.
    right. split; [exact En|]. exists select, rw, c, k.
    split_and!; try assumption; apply Hrest.
Qed.

(** The loop over the redshift bins, stopped after [m] bins. *)
Lemma aggregate_prefix (m : nat) (T0 T : MeanTable F) :
  (nbins_k * m ≤ length (zbin T0))%nat →
  (nbins_k * m ≤ length (index_zbin T0))%nat →
  foldM (fun T izbin =>
           fill_average_pk_redshift t p1d_table_cols T weight_method
             apply_z_weights nomedians nbins_z zbin_centers zbin_edges
             n_chunks nbins_k kbin_edges izbin)
        T0 (seq 0 m) = inr T →
  same_shape T0 T ∧
  (∀ row, (nbins_k * m ≤ row)%nat → row_eq T0 T row) ∧
  ∀ izbin ikbin, (izbin < m)%nat → (ikbin < nbins_k)%nat →
                 cell_done T0 T izbin ikbin.
Proof.
  revert T. induction m as [|m IH]; intros T Hlz Hli Hf.
  - injection Hf as <-.
    split_and!; [apply same_shape_refl|intros; apply row_eq_refl|].
    intros izbin ikbin Hlt. lia.
  - rewrite seq_S, foldM_app in Hf. bind_inv Hf as T1 H1.
    simpl in Hf. bind_inv Hf as T2 H2. injection Hf as <-.
    destruct (IH _ ltac:(lia) ltac:(lia) H1) as (Hsh & Hrows & Hcells).
    pose proof Hsh as (Hshz & Hshi & _).
    apply fill_average_spec in H2 as (Hsh' & Hrows' & Hcells'); [|lia..].
    split_and!.
    + eauto using same_shape_trans.
    + intros row Hrow. eapply row_eq_trans; [apply Hrows|apply Hrows']; lia.
    + intros izbin ikbin Hiz Hik.
      destruct (decide (izbin = m)) as [->|Hne].
      * eapply cell_done_row_eq;
          [|apply row_eq_refl|apply Hcells', Hik].
        apply Hrows. lia.
      * eapply cell_done_row_eq;
          [apply row_eq_refl| |apply Hcells; [lia|exact Hik]].
        apply Hrows'. nia.
Qed.
End Bins.
End AggregatorFacts.

(** ** The table returned by a run *)

Section RunFacts.
Context {F : Type} `{Arith F} `{Env F}.

Lemma np_size_inr (n : Z) (s : nat) :
  np_size n = inr s → 0 ≤ n ∧ s = Z.to_nat n.
Proof.
  unfold np_size. destruct (n <? 0) eqn:E; [discriminate|].
  apply Z.ltb_ge in E. intros [= <-]. auto.
Qed.


(** A run that returns has made the table of statistics for the grid
    of its bin edges and filled it by [aggregate]. *)
Lemma compute_mean_pk1d_inv (t : P1DTable F) (z_array ze ke : list F)
    (wm : string) (azw nomed velunits cc : bool) (out : Output F) :
  compute_mean_pk1d t z_array ze ke wm azw nomed velunits cc = inr out →
  let nbins_z := (length ze - 1)%nat in
  let nbins_k := (length ke - 1)%nat in
  ∃ n_chunks stats_array,
    binned_statistic_count z_array ze = inr n_chunks ∧
    aggregate (out_p1d_table out) (colnames_stats t)
              (init_mean_table (nbins_z * nbins_k) stats_array (colnames_stats t))
              wm azw nomed nbins_z (zbin_centers_of ze) ze n_chunks
              nbins_k ke = inr (out_mean_p1d_table out).
Proof.
  intros Hc nbins_z nbins_k. unfold compute_mean_pk1d in Hc.
  bind_inv Hc as t' Ht'. bind_inv Hc as size Hsize.
  bind_inv Hc as kfirst Hkfirst. bind_inv Hc as nz Hnz.
  bind_inv Hc as klast Hklast. bind_inv Hc as cov_init Hcov.
  bind_inv Hc as n_chunks Hn. bind_inv Hc as T HT.
  bind_inv Hc as ct Hct. injection Hc as <-. simpl.
  apply np_size_inr in Hsize as [Hs0 ->], Hnz as [Hz0 ->].
  apply py_get_inr, lookup_lt_Some in Hkfirst.
  exists n_chunks. eexists. split; [exact Hn|].
  replace (nbins_z * nbins_k)%nat
    with (Z.to_nat ((Z.of_nat (length ze) - 1) * (Z.of_nat (length ke) - 1)))
    by (unfold nbins_z, nbins_k; nia).
  replace nbins_z with (Z.to_nat (Z.of_nat (length ze) - 1))
    by (unfold nbins_z; lia).
  replace nbins_k with (Z.to_nat (Z.of_nat (length ke) - 1))
    by (unfold nbins_k; lia).
  exact HT.
Qed.

End RunFacts.

(** ** The unweighted estimate in exact arithmetic *)

Section Textbook.
Local Open Scope R_scope.

Definition Rsum (xs : list R) : R := fold_right Rplus 0 xs.

(** The arithmetic mean. *)
Definition Rmean (xs : list R) : R := Rsum xs / INR (length xs).

(** The unbiased sample variance ([ddof = 1]). *)
Definition sample_variance (xs : list R) : R :=
  Rsum (map (fun x => (x - Rmean xs) * (x - Rmean xs)) xs)
  / (INR (length xs) - 1).

(** The standard error of the mean: the sample standard deviation
    divided by the square root of the number of samples. *)
Definition standard_error (xs : list R) : R :=
  sqrt (sample_variance xs) / sqrt (INR (length xs)).

Lemma Rsum_squares_nonneg (f : R → R) (xs : list R) :
  0 <= Rsum (map (fun x => f x * f x) xs).
Proof.
  induction xs as [|x xs IH]; simpl; [lra|].
  pose proof (Rle_0_sqr (f x)) as Hs. unfold Rsqr in Hs. lra.
Qed.

Lemma Rx_fold_left_Some (xs : list R) (a : R) :
  fold_left fadd (map Some xs) (Some a) = Some (a + Rsum xs).
Proof.
  revert a. induction xs as [|x xs IH]; intros a; simpl.
  - f_equal. lra.
  - rewrite IH. f_equal. lra.
Qed.

Lemma Rx_np_sum_fold_left (a : list Rx) :
  np_sum a = fold_left fadd a (of_Z 0).
Proof.
  apply np_sum_fold_left.
  - intros [x|] [y|] [z|]; simpl; try reflexivity. f_equal. lra.
  - intros [x|] [y|]; simpl; try reflexivity. f_equal. lra.
  - intros [x|]; simpl; [|reflexivity]. f_equal. lra.
Qed.

Lemma Rx_np_sum_Some (xs : list R) : np_sum (map Some xs) = Some (Rsum xs).
Proof.
  rewrite Rx_np_sum_fold_left. simpl. rewrite Rx_fold_left_Some. f_equal. lra.
Qed.

Lemma Rx_of_nat (n : nat) : of_nat n = Some (INR n).
Proof. unfold of_nat. simpl. rewrite <- INR_IZR_INZ. reflexivity. Qed.

Lemma Rx_div_Some (a b : R) : b ≠ 0 → Rx_div (Some a) (Some b) = Some (a / b).
Proof. intros Hb. simpl. destruct (Req_dec_T b 0); [contradiction|reflexivity]. Qed.

Lemma Rx_sqrt_Some (a : R) : 0 <= a → Rx_sqrt (Some a) = Some (sqrt a).
Proof. intros Ha. simpl. destruct (Rlt_dec a 0); [lra|reflexivity]. Qed.

Lemma INR_length_pos {A} (xs : list A) : xs ≠ [] → 0 < INR (length xs).
Proof.
  intros Hne. destruct xs as [|x xs]; [contradiction|].
  apply lt_0_INR. simpl. lia.
Qed.

Lemma Rx_np_mean_Some (xs : list R) :
  xs ≠ [] → np_mean (map Some xs) = Some (Rmean xs).
Proof.
  intros Hne. unfold np_mean. rewrite Rx_np_sum_Some, length_map, Rx_of_nat.
  apply Rx_div_Some. pose proof (INR_length_pos xs Hne). lra.
Qed.

(** [np.std] is the square root of the mean squared deviation. *)
Lemma Rx_np_std_Some (xs : list R) :
  xs ≠ [] →
  np_std (map Some xs) =
  Some (sqrt (Rsum (map (fun x => (x - Rmean xs) * (x - Rmean xs)) xs)
              / INR (length xs))).
Proof.
  intros Hne. pose proof (INR_length_pos xs Hne) as Hpos.
  unfold np_std. rewrite (Rx_np_mean_Some xs Hne), !map_map. simpl.
  change (map (fun x => Some ((x - Rmean xs) * (x - Rmean xs))) xs)
    with (map (fun x => Some ((fun y => (y - Rmean xs) * (y - Rmean xs)) x)) xs).
  rewrite <- (map_map (fun x => (x - Rmean xs) * (x - Rmean xs)) Some).
  rewrite Rx_np_sum_Some, length_map, <- INR_IZR_INZ.
  rewrite Rx_div_Some by lra. apply Rx_sqrt_Some.
  apply Rmult_le_pos; [apply Rsum_squares_nonneg|].
  apply Rlt_le, Rinv_0_lt_compat, Hpos.
Qed.

(** The error of lines 660-661 is the standard error of the mean; it
    is undefined for a single sample. *)
Lemma Rx_unweighted_error (xs : list R) :
  xs ≠ [] →
  np_std (map Some xs) ⊘ fsqrt (of_Z (Z.of_nat (length xs) - 1)) =
  if decide (length xs = 1%nat) then None else Some (standard_error xs).
Proof.
  intros Hne. pose proof (INR_length_pos xs Hne) as Hpos.
  rewrite (Rx_np_std_Some xs Hne).
  assert (Hlen : (1 ≤ length xs)%nat)
    by (destruct xs; [contradiction|simpl; lia]).
  assert (Hz : IZR (Z.of_nat (length xs) - 1) = INR (length xs) - 1).
  { rewrite minus_IZR, <- INR_IZR_INZ. reflexivity. }
  cbn [of_Z fdiv fsqrt Rx_arith]. rewrite Hz.
  case_decide as H1.
  - rewrite H1. simpl INR.
    replace (1 - 1) with 0 by lra.
    rewrite Rx_sqrt_Some by lra. rewrite sqrt_0. simpl.
    destruct (Req_dec_T 0 0); [reflexivity|contradiction].
  - assert (Hgt : 1 < INR (length xs)).
    { replace 1 with (INR 1) by reflexivity. apply lt_INR. lia. }
    rewrite Rx_sqrt_Some by lra.
    assert (Hs1 : 0 < sqrt (INR (length xs) - 1)) by (apply sqrt_lt_R0; lra).
    assert (Hs2 : 0 < sqrt (INR (length xs))) by (apply sqrt_lt_R0; lra).
    rewrite Rx_div_Some by lra. f_equal.
    unfold standard_error, sample_variance.
    set (S := Rsum (map (fun x => (x - Rmean xs) * (x - Rmean xs)) xs)).
    assert (HS : 0 <= S) by apply Rsum_squares_nonneg.
    rewrite !sqrt_div_alt by lra. field. lra.
Qed.
End Textbook.

Lemma length_mask_eq {A B} (a : list A) (b : list B) (m : list bool) :
  length a = length b → length (mask a m) = length (mask b m).
Proof.
  revert b m. induction a as [|x a IH]; intros [|y b] [|[] m] Hl;
    simpl in *; try discriminate; try reflexivity.
  - f_equal. apply IH. lia.
  - apply IH. lia.
Qed.

Section Unweighted.
Context `{Env Rx}.

(** C3: without weights, in exact arithmetic, the row of a cell whose
    members are the defined values [xs] holds their number, their
    arithmetic mean and, as error, [np.std / sqrt(N - 1)]; this error
    is the standard error of the mean, the unbiased sample standard
    deviation divided by [sqrt(N)], and is undefined for a single
    member. *)
Theorem C3_unweighted_mean_and_error (t : P1DTable Rx) (cols : list string)
    (T T' : MeanTable Rx) (nomedians : bool) (nbins_z : nat)
    (zbin_centers zbin_edges : list Rx) (n_chunks : list Z) (nbins_k : nat)
    (kbin_edges : list Rx) (izbin ikbin : nat) (n : Z) (col : string)
    (c k : list Rx) (select : list bool) (xs : list R) :
  length (removelast kbin_edges) = nbins_k →
  fill_average_pk_redshift t cols T "no_weights" false nomedians nbins_z
    zbin_centers zbin_edges n_chunks nbins_k kbin_edges izbin = inr T' →
  n_chunks !! izbin = Some n → n ≠ 0 →
  (ikbin < nbins_k)%nat → col ∈ cols →
  select_bin t zbin_edges kbin_edges izbin ikbin = inr select →
  col_get t col = inr c → col_get t "k" = inr k → length c = length k →
  mask c select = map Some xs → xs ≠ [] →
  let index := (nbins_k * izbin + ikbin)%nat in
  let error :=
    np_std (map Some xs) ⊘ fsqrt (of_Z (Z.of_nat (length xs) - 1)) in
  N T' !! index = Some (Z.of_nat (length xs)) ∧
  stat_at T' ("mean" +:+ col) index = Some (Some (Rmean xs)) ∧
  stat_at T' ("error" +:+ col) index = Some error ∧
  error = if decide (length xs = 1%nat) then None
          else Some (standard_error xs).
Proof.
  intros Hnk Hf Hn Hne Hik Hcol Hsel Hc Hk Hlen Hxs Hxs0 index error.
  unfold fill_average_pk_redshift in Hf.
  bind_inv Hf as n' Hn'. apply py_get_inr in Hn'.
  assert (n' = n) as -> by congruence.
  destruct (n =? 0) eqn:En; [apply Z.eqb_eq in En; contradiction|].
  rewrite Hnk in Hf. apply fill_cells_spec in Hf as (_ & _ & Hcells).
  destruct (Hcells ikbin Hik)
    as (select' & rw & zc & k' & Hsel' & _ & Hk' & _ & _ & HN & _ & Hfull).
  unfold cell_selection in Hsel'. rewrite Hsel in Hsel'. simpl in Hsel'.
  injection Hsel' as <- <-.
  assert (k' = k) as -> by congruence.
  assert (Hnum : length (mask k select) = length xs).
  { rewrite <- (length_mask_eq c k select Hlen), Hxs. apply length_map. }
  fold index in HN, Hfull. rewrite Hnum in HN, Hfull.
  assert (Hpos : length xs ≠ 0%nat)
    by (destruct xs; [contradiction|discriminate]).
  destruct (Hfull Hpos col Hcol) as (mean & err & Hst & Hmean & Herr).
  unfold column_stats, cell_stats, selected in Hst. rewrite Hc in Hst.
  cbn -[np_mean np_std fdiv fsqrt of_Z] in Hst.
  rewrite Hxs in Hst. unfold stats_no_weights, ret in Hst.
  pose proof (f_equal (fun r : res (Rx * Rx) =>
                         match r with inr p => fst p | inl _ => None end)
                      Hst) as Hm.
  pose proof (f_equal (fun r : res (Rx * Rx) =>
                         match r with inr p => snd p | inl _ => None end)
                      Hst) as He.
  cbv beta iota delta [fst snd] in Hm, He.
  rewrite <- Hm in Hmean. rewrite <- He in Herr.
  split_and!; [exact HN| |exact Herr|].
  - rewrite Hmean. f_equal. exact (Rx_np_mean_Some xs Hxs0).
  - exact (Rx_unweighted_error xs Hxs0).
Qed.
End Unweighted.

(** ** Runs that fail *)

Lemma not_returns_raises {A} (m : res A) : ¬ returns m → raises m.
Proof.
  destruct m as [e|a]; intros Hn; [exists e; reflexivity|].
  exfalso. apply Hn. exists a. reflexivity.
Qed.

Lemma mask_elem_of {A} (a : list A) (m : list bool) (r : nat) (x : A) :
  a !! r = Some x → m !! r = Some true → x ∈ mask a m.
Proof.
  revert m r. induction a as [|y a IH]; intros [|b m] [|r] Ha Hm;
    simpl in *; try discriminate.
  - injection Ha as ->. injection Hm as ->. left.
  - destruct b; [right|]; eapply IH; eassumption.
Qed.

Lemma length_mask_pos {A} (a : list A) (m : list bool) (r : nat) :
  (r < length a)%nat → m !! r = Some true → length (mask a m) ≠ 0%nat.
Proof.
  intros Hr Hm. destruct (lookup_lt_is_Some_2 a r Hr) as [x Hx].
  pose proof (mask_elem_of a m r x Hx Hm) as Hin.
  destruct (mask a m); [inversion Hin|discriminate].
Qed.

Section Failures.
Context {F : Type} `{Arith F} `{Env F}.

(** The selection of a cell has a row for a sample of the table
    only. *)
Lemma cell_selection_length (t : P1DTable F) (azw : bool) (nbins_z : nat)
    (zc ze ke : list F) (izbin ikbin : nat) (select : list bool)
    (rw k : list F) :
  cell_selection t azw nbins_z zc ze ke izbin ikbin = inr (select, rw) →
  col_get t "k" = inr k → (length select ≤ length k)%nat.
Proof.
  intros Hs Hk. unfold cell_selection in Hs. destruct azw.
  - unfold select_bin_z_weights in Hs. bind_inv Hs as d Hd.
    destruct (negb _); [discriminate|]. rewrite Hk in Hs. simpl in Hs.
    bind_inv Hs as khi Hkhi. bind_inv Hs as klo Hklo.
    bind_inv Hs as fz Hfz. bind_inv Hs as sel Hsel.
    bind_inv Hs as c Hc. injection Hs as <- <-.
    assert (Hbase : (length (and_arr (lt_arr k khi) (gt_arr k klo))
                     ≤ length k)%nat).
    { rewrite length_and_arr. unfold lt_arr. rewrite length_map. lia. }
    rewrite length_and_arr in Hbase.
    destruct (_ || _).
    + bind_inv Hsel as zlo Hzlo. bind_inv Hsel as zhi Hzhi.
      injection Hsel as <-. rewrite !length_and_arr. lia.
    + bind_inv Hsel as zhi Hzhi. bind_inv Hsel as zlo Hzlo.
      injection Hsel as <-. rewrite !length_and_arr. lia.
  - bind_inv Hs as sel Hsel. injection Hs as <- <-.
    unfold select_bin in Hsel. bind_inv Hsel as fz Hfz.
    bind_inv Hsel as zhi Hzhi. bind_inv Hsel as zlo Hzlo.
    rewrite Hk in Hsel. simpl in Hsel.
    bind_inv Hsel as khi Hkhi. bind_inv Hsel as klo Hklo.
    injection Hsel as <-. rewrite !length_and_arr.
    unfold gt_arr, lt_arr. rewrite !length_map. lia.
Qed.

(** A cell with members whose statistics raise makes the whole call
    raise. *)
Lemma fill_average_raises (t : P1DTable F) (cols : list string)
    (T : MeanTable F) (wm : string) (azw nomedians : bool) (nbins_z : nat)
    (zc ze : list F) (n_chunks : list Z) (nbins_k : nat) (ke : list F)
    (izbin ikbin : nat) (n : Z) (select : list bool) (rw : list F)
    (r : nat) (col : string) (e : exn) :
  n_chunks !! izbin = Some n → n ≠ 0 →
  (ikbin < length (removelast ke))%nat →
  cell_selection t azw nbins_z zc ze ke izbin ikbin = inr (select, rw) →
  select !! r = Some true →
  col ∈ cols →
  (∀ num, column_stats t wm azw select rw num col = inl e) →
  raises (fill_average_pk_redshift t cols T wm azw nomedians nbins_z zc ze
                                   n_chunks nbins_k ke izbin).
Proof.
  intros Hn Hne Hik Hsel Hr Hcol Hstats.
  unfold fill_average_pk_redshift.
  apply py_get_inr in Hn. rewrite Hn. simpl.
  destruct (n =? 0) eqn:En; [apply Z.eqb_eq in En; contradiction|].
  apply (foldM_raises _ _ ikbin).
  { apply elem_of_seq. lia. }
  clear T. intros T. apply not_returns_raises. intros [T' Hf].
  apply fill_cell_spec in Hf as (_ & _ & Hcell).
  destruct Hcell
    as (select' & rw' & c & k & Hsel' & _ & Hk & _ & _ & _ & _ & Hfull).
  rewrite Hsel in Hsel'. injection Hsel' as <- <-.
  pose proof (cell_selection_length _ _ _ _ _ _ _ _ _ _ _ Hsel Hk) as Hlen.
  destruct (Hfull (length_mask_pos k select r
                     ltac:(apply lookup_lt_Some in Hr; lia) Hr) col Hcol)
    as (mean & error & Hst & _).
  rewrite Hstats in Hst. discriminate.
Qed.

(** The weighting strategies the program knows. *)
Definition known_weight_method (wm : string) : bool :=
  String.eqb wm "fit_snr" || String.eqb wm "simple_snr"
  || String.eqb wm "no_weights".

Lemma column_stats_unknown (t : P1DTable F) (wm : string) (azw : bool)
    (select : list bool) (rw : list F) (num : nat) (col : string) :
  known_weight_method wm = false →
  column_stats t wm azw select rw num col = inl ValueError.
Proof.
  unfold known_weight_method. intros Hk.
  apply orb_false_iff in Hk as [Hk H3]. apply orb_false_iff in Hk as [H1 H2].
  unfold column_stats, cell_stats. rewrite H1, H2, H3. reflexivity.
Qed.

Lemma fill_column_raises (t : P1DTable F) (wm : string)
    (azw nomedians : bool) (select : list bool) (rw : list F)
    (num index : nat) (T : MeanTable F) (col : string) (e : exn) :
  num ≠ 0%nat → column_stats t wm azw select rw num col = inl e →
  fill_column t wm azw nomedians select rw num index T col = inl e.
Proof.
  intros Hnum Hst. unfold fill_column.
  destruct (num =? 0)%nat eqn:E; [apply Nat.eqb_eq in E; contradiction|].
  unfold column_stats in Hst. rewrite Hst. reflexivity.
Qed.

(** A loop raises [e] when, from the states of an invariant, each turn
    returns within the invariant or raises [e], and one turn always
    raises [e]. *)
Lemma foldM_first_raise {A S} (I : S → Prop) (body : S → A → res S)
    (e : exn) (l : list A) (s : S) :
  I s →
  (∀ s a, a ∈ l → I s →
          body s a = inl e ∨ ∃ s', body s a = inr s' ∧ I s') →
  (∃ a, a ∈ l ∧ ∀ s, I s → body s a = inl e) →
  foldM body s l = inl e.
Proof.
  revert s. induction l as [|b l IH]; intros s Hs Hstep (a & Hin & Ha).
  - inversion Hin.
  - simpl. destruct (Hstep s b ltac:(left) Hs) as [->|(s' & Hb & Hs')];
      [reflexivity|]. rewrite Hb. simpl.
    apply elem_of_cons in Hin as [->|Hin].
    + rewrite (Ha s Hs) in Hb. discriminate.
    + apply IH; [exact Hs'| |eauto].
      intros s1 a1 Hin1. apply Hstep. right. exact Hin1.
Qed.

Lemma fill_columns_empty (t : P1DTable F) (wm : string)
    (azw nomedians : bool) (select : list bool) (rw : list F)
    (index : nat) (cols : list string) (T : MeanTable F) :
  foldM (fill_column t wm azw nomedians select rw 0 index) T cols = inr T.
Proof. induction cols as [|col cols IH]; simpl; [reflexivity|exact IH]. Qed.

Lemma select_bin_returns (t : P1DTable F) (ze ke fz k : list F)
    (izbin ikbin : nat) :
  col_get t "forest_z" = inr fz → col_get t "k" = inr k →
  (izbin + 1 < length ze)%nat → (ikbin < length (removelast ke))%nat →
  ∃ select, select_bin t ze ke izbin ikbin = inr select.
Proof.
  intros Hfz Hk Hiz Hik. rewrite length_removelast in Hik.
  unfold select_bin. rewrite Hfz, Hk. simpl.
  destruct (py_get_lt ze (izbin + 1)) as (zhi & -> & _); [lia|].
  destruct (py_get_lt ze izbin) as (zlo & -> & _); [lia|].
  destruct (py_get_lt ke (ikbin + 1)) as (khi & -> & _); [lia|].
  destruct (py_get_lt ke ikbin) as (klo & -> & _); [lia|].
  simpl. eauto.
Qed.

(** The tables a call on the redshift bin [izbin] can write to. *)
Definition rows_available (T : MeanTable F) (nbins_k izbin : nat)
    (ke : list F) : Prop :=
  let last := (nbins_k * izbin + length (removelast ke))%nat in
  (last ≤ length (zbin T))%nat ∧ (last ≤ length (index_zbin T))%nat ∧
  (last ≤ length (N T))%nat.

Lemma fill_average_unknown_method (t : P1DTable F) (cols : list string)
    (T : MeanTable F) (wm : string) (nomedians : bool) (nbins_z : nat)
    (zc ze : list F) (n_chunks : list Z) (nbins_k : nat) (ke fz k : list F)
    (izbin ikbin : nat) (n : Z) (select : list bool) (r : nat) :
  known_weight_method wm = false →
  n_chunks !! izbin = Some n → n ≠ 0 → cols ≠ [] →
  is_Some (zc !! izbin) → (izbin + 1 < length ze)%nat →
  col_get t "forest_z" = inr fz → col_get t "k" = inr k →
  rows_available T nbins_k izbin ke →
  (ikbin < length (removelast ke))%nat →
  select_bin t ze ke izbin ikbin = inr select →
  select !! r = Some true →
  fill_average_pk_redshift t cols T wm false nomedians nbins_z zc ze
                           n_chunks nbins_k ke izbin = inl ValueError.
Proof.
  intros Hwm Hn Hne Hcols [c Hc] Hze Hfz Hk Hrows Hik Hsel Hr.
  unfold fill_average_pk_redshift.
  apply py_get_inr in Hn. rewrite Hn. simpl.
  destruct (n =? 0) eqn:En; [apply Z.eqb_eq in En; contradiction|].
  apply py_get_inr in Hc.
  assert (Hcell : ∀ T1 j, (j < length (removelast ke))%nat →
            rows_available T1 nbins_k izbin ke →
            ∃ sel,
              select_bin t ze ke izbin j = inr sel ∧
              ((length (mask k sel) ≠ 0%nat ∧
                fill_cell t cols wm false nomedians nbins_z zc ze nbins_k ke
                          izbin T1 j = inl ValueError) ∨
               (length (mask k sel) = 0%nat ∧
                ∃ T2, fill_cell t cols wm false nomedians nbins_z zc ze
                                nbins_k ke izbin T1 j = inr T2 ∧
                      rows_available T2 nbins_k izbin ke))).
  { intros T1 j Hj (Hlz & Hli & HlN).
    destruct (select_bin_returns t ze ke fz k izbin j Hfz Hk Hze Hj)
      as [sel Hsel'].
    exists sel. split; [exact Hsel'|].
    unfold fill_cell, cell_selection. rewrite Hsel'. simpl.
    rewrite Hc. simpl. unfold py_set.
    rewrite !decide_True by lia. simpl. rewrite Hk. simpl.
    rewrite decide_True by lia. simpl.
    destruct (length (mask k sel)) as [|num] eqn:Enum.
    - right. split; [reflexivity|]. eexists.
      split; [apply fill_columns_empty|].
      unfold rows_available. simpl. rewrite !length_insert. auto.
    - left. split; [discriminate|].
      destruct cols as [|col cols']; [contradiction|]. simpl.
      rewrite (fill_column_raises _ _ _ _ _ _ _ _ _ _ ValueError);
        [reflexivity|discriminate|].
      apply column_stats_unknown, Hwm. }
  apply (foldM_first_raise (fun T1 => rows_available T1 nbins_k izbin ke));
    [exact Hrows| |].
  - intros T1 j Hj%elem_of_seq HT1.
    destruct (Hcell T1 j ltac:(lia) HT1) as (sel & _ & [[_ ->]|(_ & T2 & -> & HT2)]);
      eauto.
  - exists ikbin. split; [apply elem_of_seq; lia|]. intros T1 HT1.
    destruct (Hcell T1 ikbin Hik HT1) as (sel & Hsel' & [[_ ->]|(Hz & _)]);
      [reflexivity|].
    assert (sel = select) as -> by congruence.
    pose proof (cell_selection_length t false nbins_z zc ze ke izbin ikbin
                  select [] k) as Hlen.
    unfold cell_selection in Hlen. rewrite Hsel in Hlen.
    specialize (Hlen eq_refl Hk).
    exfalso. eapply length_mask_pos; [|exact Hr|exact Hz].
    apply lookup_lt_Some in Hr. lia.
Qed.

Lemma fill_average_uneven_bins (t : P1DTable F) (cols : list string)
    (T : MeanTable F) (wm : string) (nomedians : bool) (nbins_z : nat)
    (zc ze : list F) (n_chunks : list Z) (nbins_k : nat) (ke : list F)
    (izbin : nat) (n : Z) (d : F) :
  n_chunks !! izbin = Some n → n ≠ 0 →
  (2 ≤ length ke)%nat →
  let delta_z := zip_with fsub (tail zc) (removelast zc) in
  delta_z !! 0%nat = Some d →
  np_allclose delta_z d (flit 1 1000) = false →
  fill_average_pk_redshift t cols T wm true nomedians nbins_z zc ze
                           n_chunks nbins_k ke izbin = inl ValueError.
Proof.
  intros Hn Hne Hke delta_z Hd Hclose.
  unfold fill_average_pk_redshift.
  apply py_get_inr in Hn. rewrite Hn. simpl.
  destruct (n =? 0) eqn:En; [apply Z.eqb_eq in En; contradiction|].
  rewrite length_removelast.
  destruct (length ke - 1)%nat as [|m] eqn:Em; [lia|]. simpl.
  unfold fill_cell, cell_selection, select_bin_z_weights.
  fold delta_z. apply py_get_inr in Hd. rewrite Hd. simpl.
  rewrite Hclose. reflexivity.
Qed.

Lemma fill_average_empty_bin (t : P1DTable F) (cols : list string)
    (T : MeanTable F) (wm : string) (azw nomedians : bool) (nbins_z : nat)
    (zc ze : list F) (n_chunks : list Z) (nbins_k : nat) (ke : list F)
    (izbin : nat) :
  n_chunks !! izbin = Some 0 → is_Some (zc !! izbin) →
  returns (fill_average_pk_redshift t cols T wm azw nomedians nbins_z zc ze
                                    n_chunks nbins_k ke izbin).
Proof.
  intros Hn [c Hc]. unfold fill_average_pk_redshift.
  apply py_get_inr in Hn, Hc. rewrite Hn. simpl. rewrite Hc. simpl.
  eexists. reflexivity.
Qed.

Lemma cell_selection_k (t : P1DTable F) (azw : bool) (nbins_z : nat)
    (zc ze ke : list F) (izbin ikbin : nat) (select : list bool)
    (rw : list F) :
  cell_selection t azw nbins_z zc ze ke izbin ikbin = inr (select, rw) →
  ∃ k, col_get t "k" = inr k ∧ (length select ≤ length k)%nat.
Proof.
  intros Hs. destruct (col_get t "k") as [e|k] eqn:Hk.
  - exfalso. unfold cell_selection in Hs. destruct azw.
    + unfold select_bin_z_weights in Hs. bind_inv Hs as d Hd.
      destruct (negb _); [discriminate|]. rewrite Hk in Hs. discriminate.
    + bind_inv Hs as sel Hsel. unfold select_bin in Hsel.
      bind_inv Hsel as fz Hfz. bind_inv Hsel as zhi Hzhi.
      bind_inv Hsel as zlo Hzlo. rewrite Hk in Hsel. discriminate.
  - exists k. split; [reflexivity|].
    eapply cell_selection_length; eassumption.
Qed.

(** From a table with the rows of the bin, the turn of the loop on a
    cell with members ends with the exception of its statistics. *)
Lemma fill_cell_raises (t : P1DTable F) (col : string) (cols : list string)
    (T : MeanTable F) (wm : string) (azw nomedians : bool) (nbins_z : nat)
    (zc ze : list F) (nbins_k : nat) (ke : list F) (izbin ikbin : nat)
    (select : list bool) (rw : list F) (r : nat) (e : exn) :
  cell_selection t azw nbins_z zc ze ke izbin ikbin = inr (select, rw) →
  select !! r = Some true →
  (ikbin < length (removelast ke))%nat →
  rows_available T nbins_k izbin ke → is_Some (zc !! izbin) →
  (∀ num, column_stats t wm azw select rw num col = inl e) →
  fill_cell t (col :: cols) wm azw nomedians nbins_z zc ze nbins_k ke izbin
            T ikbin = inl e.
Proof.
  intros Hsel Hr Hik (Hlz & Hli & HlN) [c Hc] Hstats.
  destruct (cell_selection_k _ _ _ _ _ _ _ _ _ _ Hsel) as (k & Hk & Hlen).
  apply py_get_inr in Hc.
  unfold fill_cell. rewrite Hsel. simpl. rewrite Hc. simpl. unfold py_set.
  rewrite !decide_True by lia. simpl. rewrite Hk. simpl.
  rewrite decide_True by lia. simpl.
  rewrite (fill_column_raises _ _ _ _ _ _ _ _ _ _ e); [reflexivity| |apply Hstats].
  eapply length_mask_pos; [|exact Hr]. apply lookup_lt_Some in Hr. lia.
Qed.

(** C7: with [weight_method = 'simple_snr'], a cell that has a member
    with [forest_snr <= 1] gets no statistics: computing them raises
    [RuntimeError] for every column, the turn of the loop on the cell
    ends with [RuntimeError] from every table that has the rows of the
    bin, and the call of [fill_average_pk_redshift] on its redshift bin
    raises instead of returning. *)
Theorem C7_simple_snr_low_quality_is_fatal (t : P1DTable F)
    (cols : list string) (T : MeanTable F) (azw nomedians : bool)
    (nbins_z : nat) (zc ze : list F) (n_chunks : list Z) (nbins_k : nat)
    (ke : list F) (izbin ikbin : nat) (n : Z) (select : list bool)
    (rw snr : list F) (r : nat) (s : F) :
  n_chunks !! izbin = Some n → n ≠ 0 → cols ≠ [] →
  (ikbin < length (removelast ke))%nat →
  cell_selection t azw nbins_z zc ze ke izbin ikbin = inr (select, rw) →
  col_get t "forest_snr" = inr snr →
  select !! r = Some true → snr !! r = Some s → (s ≼ of_Z 1) = true →
  (∀ num col,
      column_stats t "simple_snr" azw select rw num col = inl RuntimeError) ∧
  (∀ T1, rows_available T1 nbins_k izbin ke → is_Some (zc !! izbin) →
         fill_cell t cols "simple_snr" azw nomedians nbins_z zc ze nbins_k ke
                   izbin T1 ikbin = inl RuntimeError) ∧
  raises (fill_average_pk_redshift t cols T "simple_snr" azw nomedians
            nbins_z zc ze n_chunks nbins_k ke izbin).
Proof.
  intros Hn Hne Hcols Hik Hsel Hsnr Hr Hs Hle.
  assert (Hstats : ∀ num col,
             column_stats t "simple_snr" azw select rw num col
             = inl RuntimeError).
  { intros num col. unfold column_stats, cell_stats, selected.
    rewrite Hsnr. cbn -[existsb]. unfold stats_simple_snr.
    assert (existsb (fun s => s ≼ of_Z 1) (mask snr select) = true) as ->;
      [|reflexivity].
    apply existsb_exists. exists s. split; [|exact Hle].
    apply list_elem_of_In. eapply mask_elem_of; eassumption. }
  destruct cols as [|col cols]; [contradiction|].
  split_and!; [exact Hstats| |].
  - intros T1 HT1 Hzc. eapply fill_cell_raises; try eassumption.
    intros num. apply Hstats.
  - eapply fill_average_raises; try eassumption; [left|].
    intros num. apply Hstats.
Qed.

(** The selection of a cell raises or returns with its redshift bin:
    when it returns for one k bin it returns for every k bin. *)
Lemma cell_selection_other_bin (t : P1DTable F) (azw : bool) (nbins_z : nat)
    (zc ze ke : list F) (izbin ikbin j : nat) (x : list bool * list F) :
  cell_selection t azw nbins_z zc ze ke izbin ikbin = inr x →
  (j < length (removelast ke))%nat →
  returns (cell_selection t azw nbins_z zc ze ke izbin j).
Proof.
  intros Hs Hj. rewrite length_removelast in Hj.
  destruct (py_get_lt ke (j + 1)) as (khi' & Hkhi' & _); [lia|].
  destruct (py_get_lt ke j) as (klo' & Hklo' & _); [lia|].
  unfold cell_selection in *. destruct azw.
  - unfold select_bin_z_weights in *. bind_inv Hs as d Hd. rewrite Hd.
    cbn [bind]. destruct (negb _); [discriminate|].
    bind_inv Hs as k Hk. bind_inv Hs as khi Hkhi. bind_inv Hs as klo Hklo.
    bind_inv Hs as fz Hfz. bind_inv Hs as sel Hsel. bind_inv Hs as c Hc.
    rewrite Hk. cbn [bind]. rewrite Hkhi', Hklo'. cbn [bind].
    rewrite Hfz. cbn [bind]. rewrite Hc.
    destruct (_ || _).
    + bind_inv Hsel as zlo Hzlo. bind_inv Hsel as zhi Hzhi.
      rewrite Hzlo, Hzhi. cbn [bind ret]. eexists. reflexivity.
    + bind_inv Hsel as zhi Hzhi. bind_inv Hsel as zlo Hzlo.
      rewrite Hzhi, Hzlo. cbn [bind ret]. eexists. reflexivity.
  - bind_inv Hs as sel Hsel. unfold select_bin in *.
    bind_inv Hsel as fz Hfz. bind_inv Hsel as zhi Hzhi.
    bind_inv Hsel as zlo Hzlo. bind_inv Hsel as k Hk.
    rewrite Hfz. cbn [bind]. rewrite Hzhi, Hzlo. cbn [bind].
    rewrite Hk. cbn [bind]. rewrite Hkhi', Hklo'. cbn [bind ret].
    eexists. reflexivity.
Qed.

Lemma fill_average_unknown_method_any (t : P1DTable F) (cols : list string)
    (T : MeanTable F) (wm : string) (azw nomedians : bool) (nbins_z : nat)
    (zc ze : list F) (n_chunks : list Z) (nbins_k : nat) (ke : list F)
    (izbin ikbin : nat) (n : Z) (select : list bool) (rw : list F) (r : nat) :
  known_weight_method wm = false →
  n_chunks !! izbin = Some n → n ≠ 0 → cols ≠ [] →
  is_Some (zc !! izbin) → rows_available T nbins_k izbin ke →
  (ikbin < length (removelast ke))%nat →
  cell_selection t azw nbins_z zc ze ke izbin ikbin = inr (select, rw) →
  select !! r = Some true →
  fill_average_pk_redshift t cols T wm azw nomedians nbins_z zc ze
                           n_chunks nbins_k ke izbin = inl ValueError.
Proof.
  intros Hwm Hn Hne Hcols Hzc Hrows Hik Hsel Hr.
  destruct cols as [|col cols']; [contradiction|]. clear Hcols.
  destruct (cell_selection_k _ _ _ _ _ _ _ _ _ _ Hsel) as (k & Hk & _).
  unfold fill_average_pk_redshift.
  apply py_get_inr in Hn. rewrite Hn. simpl.
  destruct (n =? 0) eqn:En; [apply Z.eqb_eq in En; contradiction|].
  destruct Hzc as [c Hc]. apply py_get_inr in Hc.
  apply (foldM_first_raise (fun T1 => rows_available T1 nbins_k izbin ke));
    [exact Hrows| |].
  - intros T1 j Hj%elem_of_seq (Hlz & Hli & HlN).
    destruct (cell_selection_other_bin t azw nbins_z zc ze ke izbin ikbin j
                _ Hsel ltac:(lia)) as [[sel rw'] Hsel'].
    unfold fill_cell. rewrite Hsel'. simpl. rewrite Hc. simpl. unfold py_set.
    rewrite !decide_True by lia. simpl. rewrite Hk. simpl.
    rewrite decide_True by lia. simpl.
    destruct (length (mask k sel)) as [|num] eqn:Enum.
    + right. eexists. split; [apply fill_columns_empty|].
      unfold rows_available. simpl. rewrite !length_insert. auto.
    + left. simpl.
      rewrite (fill_column_raises _ _ _ _ _ _ _ _ _ _ ValueError);
        [reflexivity|discriminate|].
      apply column_stats_unknown, Hwm.
  - exists ikbin. split; [apply elem_of_seq; lia|]. intros T1 HT1.
    eapply fill_cell_raises;
      [exact Hsel|exact Hr|exact Hik|exact HT1| |].
    + apply py_get_inr in Hc. eauto.
    + intros num. apply column_stats_unknown, Hwm.
Qed.

(** With redshift weights over a single redshift bin there is no
    spacing to look at: [delta_z[0]] raises. *)
Lemma fill_average_no_spacing (t : P1DTable F) (cols : list string)
    (T : MeanTable F) (wm : string) (nomedians : bool) (nbins_z : nat)
    (zc ze : list F) (n_chunks : list Z) (nbins_k : nat) (ke : list F)
    (izbin : nat) (n : Z) :
  n_chunks !! izbin = Some n → n ≠ 0 →
  (2 ≤ length ke)%nat →
  zip_with fsub (tail zc) (removelast zc) = [] →
  fill_average_pk_redshift t cols T wm true nomedians nbins_z zc ze
                           n_chunks nbins_k ke izbin = inl IndexError.
Proof.
  intros Hn Hne Hke Hd.
  unfold fill_average_pk_redshift.
  apply py_get_inr in Hn. rewrite Hn. simpl.
  destruct (n =? 0) eqn:En; [apply Z.eqb_eq in En; contradiction|].
  rewrite length_removelast.
  destruct (length ke - 1)%nat as [|m] eqn:Em; [lia|]. simpl.
  unfold fill_cell, cell_selection, select_bin_z_weights.
  rewrite Hd. reflexivity.
Qed.

(** C8, as the code has it: the weighting strategy and the spacing of
    the redshift bins are checked inside [fill_average_pk_redshift],
    bin by bin and cell by cell, the spacing before the strategy.
    With a name that is none of ['fit_snr'], ['simple_snr'],
    ['no_weights'], the call on a redshift bin with chunks raises
    [ValueError] when one of its cells has a member, with or without
    redshift weights, as soon as the selection of that cell returns;
    with redshift weights and centres of the redshift bins that are
    not evenly spaced, the call on a redshift bin with chunks raises
    [ValueError] at its first k bin, and with a single redshift bin it
    raises [IndexError] there, whatever the name; the call on a
    redshift bin without chunks returns whatever the strategy and the
    spacing. *)
Theorem C8_configuration_checked_per_bin (t : P1DTable F)
    (cols : list string) (T : MeanTable F) (wm : string) (nomedians : bool)
    (nbins_z : nat) (zc ze : list F) (n_chunks : list Z) (nbins_k : nat)
    (ke : list F) (izbin : nat) :
  (∀ azw n ikbin select rw r,
      known_weight_method wm = false →
      n_chunks !! izbin = Some n → n ≠ 0 → cols ≠ [] →
      is_Some (zc !! izbin) → rows_available T nbins_k izbin ke →
      (ikbin < length (removelast ke))%nat →
      cell_selection t azw nbins_z zc ze ke izbin ikbin = inr (select, rw) →
      select !! r = Some true →
      fill_average_pk_redshift t cols T wm azw nomedians nbins_z zc ze
                               n_chunks nbins_k ke izbin = inl ValueError) ∧
  (∀ n fz k ikbin select r,
      known_weight_method wm = false →
      n_chunks !! izbin = Some n → n ≠ 0 → cols ≠ [] →
      is_Some (zc !! izbin) → (izbin + 1 < length ze)%nat →
      col_get t "forest_z" = inr fz → col_get t "k" = inr k →
      rows_available T nbins_k izbin ke →
      (ikbin < length (removelast ke))%nat →
      select_bin t ze ke izbin ikbin = inr select →
      select !! r = Some true →
      fill_average_pk_redshift t cols T wm false nomedians nbins_z zc ze
                               n_chunks nbins_k ke izbin = inl ValueError) ∧
  (∀ n d,
      n_chunks !! izbin = Some n → n ≠ 0 → (2 ≤ length ke)%nat →
      zip_with fsub (tail zc) (removelast zc) !! 0%nat = Some d →
      np_allclose (zip_with fsub (tail zc) (removelast zc)) d (flit 1 1000)
      = false →
      fill_average_pk_redshift t cols T wm true nomedians nbins_z zc ze
                               n_chunks nbins_k ke izbin = inl ValueError) ∧
  (∀ n,
      n_chunks !! izbin = Some n → n ≠ 0 → (2 ≤ length ke)%nat →
      zip_with fsub (tail zc) (removelast zc) = [] →
      fill_average_pk_redshift t cols T wm true nomedians nbins_z zc ze
                               n_chunks nbins_k ke izbin = inl IndexError) ∧
  (∀ azw,
      n_chunks !! izbin = Some 0 → is_Some (zc !! izbin) →
      returns (fill_average_pk_redshift t cols T wm azw nomedians nbins_z
                                        zc ze n_chunks nbins_k ke izbin)).
Proof.
  split_and!.
  - intros. eapply fill_average_unknown_method_any; eassumption.
  - intros. eapply fill_average_unknown_method; eassumption.
  - intros. eapply fill_average_uneven_bins; eassumption.
  - intros. eapply fill_average_no_spacing; eassumption.
  - intros. apply fill_average_empty_bin; assumption.
Qed.
End Failures.

(** ** The unweighted aggregation returns *)

Lemma foldM_returns {A S} (I : S → Prop) (body : S → A → res S)
    (l : list A) (s : S) :
  I s →
  (∀ s a, a ∈ l → I s → ∃ s', body s a = inr s' ∧ I s') →
  ∃ s', foldM body s l = inr s' ∧ I s'.
Proof.
  revert s. induction l as [|a l IH]; intros s Hs Hstep; simpl.
  - eauto.
  - destruct (Hstep s a ltac:(left) Hs) as (s1 & -> & Hs1). simpl.
    apply IH; [exact Hs1|]. intros s2 b Hb. apply Hstep. right. exact Hb.
Qed.

Section Totality.
Context {F : Type} `{Arith F} `{Env F}.

(** The column [name] of the statistics has a row [index]. *)
Definition has_room (T : MeanTable F) (name : string) (index : nat) : Prop :=
  ∃ c, stat T !! name = Some c ∧ (index < length c)%nat.

(** The table of statistics has the rows below [last] in the columns
    of the bins and in the statistics of [cols]. *)
Definition table_ready (T : MeanTable F) (cols : list string)
    (nomedians : bool) (last : nat) : Prop :=
  (last ≤ length (zbin T))%nat ∧ (last ≤ length (index_zbin T))%nat ∧
  (last ≤ length (N T))%nat ∧
  ∀ col s index, col ∈ cols → s ∈ stats_array_of nomedians →
                 (index < last)%nat → has_room T (s +:+ col) index.

Lemma has_room_shape (T T' : MeanTable F) (name : string) (index : nat) :
  (∀ name, length <$> stat T' !! name = length <$> stat T !! name) →
  has_room T name index → has_room T' name index.
Proof.
  intros Hlen (c & Hc & Hlt). specialize (Hlen name). rewrite Hc in Hlen.
  destruct (stat T' !! name) as [c'|] eqn:Ec'; [|discriminate].
  injection Hlen as Hlen. exists c'. split; [exact Ec'|lia].
Qed.

Lemma table_ready_shape (T T' : MeanTable F) (cols : list string)
    (nomedians : bool) (last : nat) :
  same_shape T T' → table_ready T cols nomedians last →
  table_ready T' cols nomedians last.
Proof.
  intros (Hz & Hi & Hn & Hs) (Hlz & Hli & HlN & Hroom).
  unfold table_ready. rewrite Hz, Hi, Hn. split_and!; try assumption.
  intros col s index Hcol Hs' Hidx.
  eapply has_room_shape; [exact Hs|]. apply Hroom; assumption.
Qed.

Lemma stat_set_returns (T : MeanTable F) (name : string) (index : nat)
    (v : F) :
  has_room T name index →
  ∃ T', stat_set T name index v = inr T' ∧ stats_frame index T T'.
Proof.
  intros (c & Hc & Hlt). unfold stat_set. rewrite Hc.
  unfold py_set. rewrite decide_True by exact Hlt. simpl.
  eexists. split; [reflexivity|].
  eapply (stat_set_spec T _ name index v).
  unfold stat_set. rewrite Hc. unfold py_set.
  rewrite decide_True by exact Hlt. reflexivity.
Qed.

Lemma fill_column_unweighted_returns (t : P1DTable F) (nomedians : bool)
    (select : list bool) (rw : list F) (num index : nat) (T : MeanTable F)
    (col : string) (c : list F) :
  col_get t col = inr c → (num ≠ 0%nat → mask c select ≠ []) →
  (∀ s, s ∈ stats_array_of nomedians → has_room T (s +:+ col) index) →
  ∃ T', fill_column t "no_weights" false nomedians select rw num index T col
        = inr T' ∧ stats_frame index T T'.
Proof.
  intros Hc Hvals Hroom. unfold fill_column.
  destruct (num =? 0)%nat eqn:En.
  { eexists. split; [reflexivity|apply stats_frame_refl]. }
  apply Nat.eqb_neq in En. specialize (Hvals En).
  unfold cell_stats, selected. rewrite Hc.
  cbn -[np_mean np_std np_min np_max np_median stat_set].
  destruct (mask c select) as [|v values] eqn:Ev; [contradiction|].
  cbn -[np_mean np_std np_median stat_set fmin fmax].
  assert (Hin : ∀ s, s ∈ ["mean"; "error"; "min"; "max"] →
                     s ∈ stats_array_of nomedians).
  { intros s Hs. unfold stats_array_of. apply elem_of_app. left. exact Hs. }
  destruct (stat_set_returns T ("mean" +:+ col) index
              (np_mean (v :: values))) as (T1 & -> & Hf1).
  { apply Hroom, Hin. repeat constructor. }
  cbn -[np_mean np_std np_median stat_set fmin fmax].
  destruct (stat_set_returns T1 ("error" +:+ col) index
              (np_std (v :: values)
               ⊘ fsqrt (of_Z (Z.of_nat num - 1)))) as (T2 & -> & Hf2).
  { eapply has_room_shape; [apply Hf1|]. apply Hroom, Hin. repeat constructor. }
  cbn -[np_mean np_std np_median stat_set fmin fmax].
  destruct (stat_set_returns T2 ("min" +:+ col) index
              (fold_left fmin values v)) as (T3 & -> & Hf3).
  { eapply has_room_shape; [apply Hf2|].
    eapply has_room_shape; [apply Hf1|]. apply Hroom, Hin. repeat constructor. }
  cbn -[np_mean np_std np_median stat_set fmin fmax].
  destruct (stat_set_returns T3 ("max" +:+ col) index
              (fold_left fmax values v)) as (T4 & -> & Hf4).
  { eapply has_room_shape; [apply Hf3|].
    eapply has_room_shape; [apply Hf2|].
    eapply has_room_shape; [apply Hf1|]. apply Hroom, Hin. repeat constructor. }
  cbn -[np_mean np_std np_median stat_set fmin fmax].
  assert (Hf : stats_frame index T T4) by eauto using stats_frame_trans.
  destruct nomedians.
  - eexists. split; [reflexivity|exact Hf].
  - destruct (stat_set_returns T4 ("median" +:+ col) index
                (np_median (v :: values))) as (T5 & -> & Hf5).
    { eapply has_room_shape; [apply Hf|]. apply Hroom.
      unfold stats_array_of. apply elem_of_app. right. left. }
    eexists. split; [reflexivity|]. eauto using stats_frame_trans.
Qed.

(** Without weights, the call on a redshift bin returns when the
    table of samples has its columns, all of one length, and the
    table of statistics has the rows of the bin. *)
Lemma fill_average_unweighted_returns (t : P1DTable F) (cols : list string)
    (T : MeanTable F) (nomedians : bool) (nbins_z : nat) (zc ze : list F)
    (n_chunks : list Z) (nbins_k : nat) (ke fz k : list F) (izbin : nat) :
  col_get t "forest_z" = inr fz → col_get t "k" = inr k →
  (∀ col, col ∈ cols → ∃ c, col_get t col = inr c ∧ length c = length k) →
  (izbin + 1 < length ze)%nat →
  is_Some (zc !! izbin) → is_Some (n_chunks !! izbin) →
  table_ready T cols nomedians (nbins_k * izbin + length (removelast ke)) →
  returns (fill_average_pk_redshift t cols T "no_weights" false nomedians
             nbins_z zc ze n_chunks nbins_k ke izbin).
Proof.
  intros Hfz Hk Hcols Hze [c Hc] [n Hn] Hready.
  unfold fill_average_pk_redshift.
  apply py_get_inr in Hn, Hc. rewrite Hn. simpl.
  destruct (n =? 0); [rewrite Hc; eexists; reflexivity|].
  set (last := (nbins_k * izbin + length (removelast ke))%nat) in *.
  destruct (foldM_returns (fun T1 => table_ready T1 cols nomedians last)
              (fill_cell t cols "no_weights" false nomedians nbins_z zc ze
                         nbins_k ke izbin)
              (seq 0 (length (removelast ke))) T Hready)
    as (T' & HT' & _); [|exists T'; exact HT'].
  intros T1 j Hj%elem_of_seq HT1.
  assert (Hstep : ∃ T2, fill_cell t cols "no_weights" false nomedians nbins_z
                          zc ze nbins_k ke izbin T1 j = inr T2).
  { destruct HT1 as (Hlz & Hli & HlN & Hroom).
    destruct (select_bin_returns t ze ke fz k izbin j Hfz Hk Hze
                ltac:(lia)) as [sel Hsel].
    unfold fill_cell, cell_selection. rewrite Hsel. simpl.
    rewrite Hc. simpl. unfold py_set.
    rewrite !decide_True by (unfold last in *; lia). simpl.
    rewrite Hk. simpl. rewrite decide_True by (unfold last in *; lia). simpl.
    set (T1' := {| zbin := _; index_zbin := _; N := _; stat := stat T1 |}).
    destruct (foldM_returns
                (fun T2 => ∀ name,
                     length <$> stat T2 !! name = length <$> stat T1 !! name)
                (fill_column t "no_weights" false nomedians sel []
                             (length (mask k sel)) (nbins_k * izbin + j))
                cols T1') as (T2 & HT2 & _); [reflexivity| |eauto].
    intros T2 col Hcol HT2.
    destruct (Hcols col Hcol) as (cc & Hcc & Hlen).
    destruct (fill_column_unweighted_returns t nomedians sel []
                (length (mask k sel)) (nbins_k * izbin + j) T2 col cc Hcc)
      as (T3 & HT3 & Hf3).
    - intros Hnum Hempty. apply Hnum.
      rewrite <- (length_mask_eq cc k sel Hlen), Hempty. reflexivity.
    - intros s Hs. eapply has_room_shape; [exact HT2|].
      apply Hroom; [exact Hcol|exact Hs|unfold last; lia].
    - exists T3. split; [exact HT3|]. intros name.
      destruct Hf3 as (_ & _ & _ & Hl3 & _). rewrite Hl3. apply HT2. }
  destruct Hstep as [T2 HT2]. exists T2. split; [exact HT2|].
  apply fill_cell_spec in HT2 as (Hsh & _).
  eapply table_ready_shape; eassumption.
Qed.
End Totality.

(** ** The unweighted run returns *)

Lemma alist_get_elem_of {A} (l : list (string * A)) (n : string) :
  n ∈ map fst l → ∃ v, alist_get l n = Some v.
Proof.
  induction l as [|[m v] l IH]; simpl; intros Hin; [inversion Hin|].
  destruct (String.eqb m n) eqn:E; [eauto|].
  apply elem_of_cons in Hin as [->|Hin]; [|apply IH, Hin].
  rewrite String.eqb_refl in E. discriminate.
Qed.

Section RunTotality.
Context {F : Type} `{Arith F} `{Env F}.

Lemma length_zbin_centers_of (ze : list F) :
  length (zbin_centers_of ze) = (length ze - 1)%nat.
Proof.
  unfold zbin_centers_of. rewrite length_zip_with, length_removelast.
  destruct ze; simpl; lia.
Qed.

(** Every statistic of every column is a column of the empty table. *)
Lemma init_mean_table_lookup (size : nat) (stats_array cols : list string)
    (s col : string) :
  s ∈ stats_array → col ∈ cols →
  stat (init_mean_table size stats_array cols) !! (s +:+ col)
  = Some (replicate size (fnan : F)).
Proof.
  intros Hs Hcol. unfold init_mean_table. simpl.
  set (v := replicate size (fnan : F)).
  assert (Hinner : ∀ (l : list string) c (m : gmap string (list F)) key,
             m !! key = Some v ∨ (∃ s', s' ∈ l ∧ key = s' +:+ c) →
             fold_left (fun m stats => <[stats +:+ c := v]> m) l m !! key
             = Some v).
  { induction l as [|s' l IH]; intros c m key Hkey; simpl.
    - destruct Hkey as [Hm|(s1 & Hin & _)]; [exact Hm|inversion Hin].
    - apply IH. destruct (decide (key = s' +:+ c)) as [->|Hne].
      + left. apply lookup_insert_eq.
      + destruct Hkey as [Hm|(s1 & Hin & ->)].
        * left. rewrite lookup_insert_ne by congruence. exact Hm.
        * apply elem_of_cons in Hin as [->|Hin]; [contradiction|].
          right. eauto. }
  assert (Houter : ∀ (l : list string) (m : gmap string (list F)) key,
             m !! key = Some v ∨
             (∃ s' c, s' ∈ stats_array ∧ c ∈ l ∧ key = s' +:+ c) →
             fold_left
               (fun m c =>
                  fold_left (fun m stats => <[stats +:+ c := v]> m)
                            stats_array m) l m !! key = Some v).
  { induction l as [|c l IH]; intros m key Hkey; simpl.
    - destruct Hkey as [Hm|(s1 & c1 & _ & Hin & _)]; [exact Hm|inversion Hin].
    - apply IH. destruct Hkey as [Hm|(s1 & c1 & Hs1 & Hin & ->)].
      + left. apply Hinner. left. exact Hm.
      + apply elem_of_cons in Hin as [->|Hin].
        * left. apply Hinner. right. eauto.
        * right. eauto. }
  apply Houter. right. eauto.
Qed.

Lemma init_mean_table_ready (size : nat) (cols : list string)
    (nomedians : bool) :
  table_ready (init_mean_table size (stats_array_of nomedians) cols : MeanTable F)
              cols nomedians size.
Proof.
  unfold table_ready. simpl. rewrite !length_replicate.
  split_and!; try lia.
  intros col s index Hcol Hs Hidx. exists (replicate size fnan).
  split; [apply init_mean_table_lookup; assumption|].
  rewrite length_replicate. exact Hidx.
Qed.

Lemma table_ready_le (T : MeanTable F) (cols : list string) (nomedians : bool)
    (last last' : nat) :
  (last' ≤ last)%nat → table_ready T cols nomedians last →
  table_ready T cols nomedians last'.
Proof.
  intros Hle (Hz & Hi & Hn & Hroom). unfold table_ready.
  split_and!; try lia. intros col s index Hcol Hs Hidx.
  apply Hroom; [assumption..|lia].
Qed.

(** Without weights, without conversion of units and without
    covariance, a run returns as soon as the table of samples has the
    columns ['forest_z'] and ['k'], all its columns have one length, the
    two arrays of edges are not empty and the count of chunks has one
    entry for each redshift bin. *)
Lemma compute_mean_pk1d_unweighted_returns (t : P1DTable F)
    (z_array ze ke fz k : list F) (nomedians : bool) (n_chunks : list Z) :
  col_get t "forest_z" = inr fz → col_get t "k" = inr k →
  (∀ name c, alist_get (cols t) name = Some c → length c = length k) →
  ze ≠ [] → ke ≠ [] →
  binned_statistic_count z_array ze = inr n_chunks →
  length n_chunks = (length ze - 1)%nat →
  returns (compute_mean_pk1d t z_array ze ke "no_weights" false nomedians
                             false false).
Proof.
  intros Hfz Hk Hlen Hze Hke Hcount Hn.
  assert (Hlze : (1 ≤ length ze)%nat) by (destruct ze; [contradiction|simpl; lia]).
  assert (Hlke : (1 ≤ length ke)%nat) by (destruct ke; [contradiction|simpl; lia]).
  set (nbins_z := (length ze - 1)%nat).
  set (nbins_k := (length ke - 1)%nat).
  unfold compute_mean_pk1d. simpl.
  unfold np_size.
  assert (((Z.of_nat (length ze) - 1) * (Z.of_nat (length ke) - 1) <? 0) = false)
    as -> by (apply Z.ltb_ge; nia).
  simpl.
  destruct (py_get_lt ke 0) as (kfirst & -> & _); [lia|]. simpl.
  assert ((Z.of_nat (length ze) - 1 <? 0) = false) as -> by (apply Z.ltb_ge; lia).
  simpl.
  destruct (py_get_lt ke (length ke - 1)) as (klast & -> & _); [lia|]. simpl.
  rewrite Hcount. simpl.
  replace (Z.to_nat ((Z.of_nat (length ze) - 1) * (Z.of_nat (length ke) - 1)))
    with (nbins_z * nbins_k)%nat by (unfold nbins_z, nbins_k; nia).
  replace (Z.to_nat (Z.of_nat (length ze) - 1)) with nbins_z
    by (unfold nbins_z; lia).
  replace (Z.to_nat (Z.of_nat (length ke) - 1)) with nbins_k
    by (unfold nbins_k; lia).
  unfold aggregate. rewrite length_removelast. fold nbins_z.
  destruct (foldM_returns
              (fun T => table_ready T (colnames_stats t) nomedians
                                    (nbins_z * nbins_k))
              (fun T izbin =>
                 fill_average_pk_redshift t (colnames_stats t) T "no_weights"
                   false nomedians nbins_z (zbin_centers_of ze) ze n_chunks
                   nbins_k ke izbin)
              (seq 0 nbins_z)
              (init_mean_table (nbins_z * nbins_k) (stats_array_of nomedians)
                               (colnames_stats t)))
    as (T & -> & _).
  - apply init_mean_table_ready.
  - intros T izbin Hiz%elem_of_seq HT.
    assert (Hlast : (nbins_k * izbin + length (removelast ke)
                     ≤ nbins_z * nbins_k)%nat)
      by (rewrite length_removelast; fold nbins_k; nia).
    destruct (fill_average_unweighted_returns t (colnames_stats t) T nomedians
                nbins_z (zbin_centers_of ze) ze n_chunks nbins_k ke fz k izbin
                Hfz Hk) as [T' HT'].
    + intros col Hcol. apply alist_get_elem_of in Hcol as [c Hc].
      exists c. unfold col_get. rewrite Hc. split; [reflexivity|].
      eapply Hlen, Hc.
    + unfold nbins_z in Hiz. lia.
    + apply lookup_lt_is_Some_2. rewrite length_zbin_centers_of.
      fold nbins_z. lia.
    + apply lookup_lt_is_Some_2. rewrite Hn. fold nbins_z. lia.
    + eapply table_ready_le; [exact Hlast|exact HT].
    + exists T'. split; [exact HT'|].
      pose proof HT as (Hz & Hi & _).
      apply fill_average_spec in HT' as (Hsh & _);
        [|apply length_removelast|rewrite length_removelast in Hlast; lia..].
      eapply table_ready_shape; eassumption.
  - simpl. eexists. reflexivity.
Qed.
End RunTotality.

(** ** The covariance of a redshift bin returns *)

Section CovarianceTotality.
Context {F : Type} `{Arith F}.

(** The four arrays have one entry for each pair of k bins. *)
Definition cov_room (nbins_k : nat) (st : CovArrays F) : Prop :=
  length (covariance_array st) = (nbins_k * nbins_k)%nat ∧
  length (n_array st) = (nbins_k * nbins_k)%nat ∧
  length (zbin_array st) = (nbins_k * nbins_k)%nat ∧
  length (index_zbin_array st) = (nbins_k * nbins_k)%nat.

Lemma accumulate_returns (nbins_k : nat) (st : CovArrays F) (a b : Z) (p : F) :
  cov_room nbins_k st →
  0 ≤ a < Z.of_nat nbins_k → 0 ≤ b < Z.of_nat nbins_k →
  ∃ st', accumulate nbins_k st a b p = inr st' ∧ cov_room nbins_k st'.
Proof.
  intros (Hc & Hn & Hz & Hi) Ha Hb. unfold accumulate.
  assert (Hidx : 0 ≤ Z.of_nat nbins_k * a + b < Z.of_nat (nbins_k * nbins_k))
    by nia.
  unfold py_index. rewrite Hc, Hn.
  destruct (decide (0 ≤ Z.of_nat nbins_k * a + b < Z.of_nat (nbins_k * nbins_k)));
    [|contradiction].
  simpl.
  destruct (py_get_lt (covariance_array st)
                      (Z.to_nat (Z.of_nat nbins_k * a + b)))
    as (c & -> & _); [lia|]. simpl.
  unfold py_set at 1.
  destruct (decide (Z.to_nat (Z.of_nat nbins_k * a + b)
                    < length (covariance_array st))%nat); [|lia].
  simpl.
  destruct (py_get_lt (n_array st) (Z.to_nat (Z.of_nat nbins_k * a + b)))
    as (m & -> & _); [lia|]. simpl.
  unfold py_set.
  destruct (decide (Z.to_nat (Z.of_nat nbins_k * a + b)
                    < length (n_array st))%nat); [|lia].
  simpl. eexists. split; [reflexivity|].
  unfold cov_room. simpl. rewrite !length_insert. auto.
Qed.

Lemma pair_loop_returns (nbins_k : nat) (a : Z) (pk : F) (l : list (Z * F))
    (st : CovArrays F) :
  cov_room nbins_k st → 0 ≤ a < Z.of_nat nbins_k →
  Forall (fun s => valid_bin nbins_k s.1) l →
  ∃ st', pair_loop nbins_k a pk l st = inr st' ∧ cov_room nbins_k st'.
Proof.
  intros Hst Ha Hl. unfold pair_loop.
  apply (foldM_returns (cov_room nbins_k)); [exact Hst|].
  intros s [b pk2] Hin Hs. rewrite Forall_forall in Hl.
  pose proof (Hl _ Hin) as Hb. cbn [fst] in Hb.
  destruct (b =? -1) eqn:E; [eauto|]. apply Z.eqb_neq in E.
  destruct Hb as [Hb|Hb]; [contradiction|].
  apply accumulate_returns; assumption.
Qed.

Lemma sample_loop_returns (nbins_k : nat) (selected : list (Z * F))
    (st : CovArrays F) :
  cov_room nbins_k st →
  Forall (fun s => valid_bin nbins_k s.1) selected →
  ∃ st', sample_loop nbins_k selected st = inr st' ∧ cov_room nbins_k st'.
Proof.
  intros Hst Hl. revert st Hst.
  induction Hl as [|[a pk] rest Ha Hrest IH]; intros st Hst;
    cbn [sample_loop].
  - eauto.
  - cbn [fst] in Ha.
    assert (Hstep : ∃ st1,
               (if a =? -1 then ret st
                else pair_loop nbins_k a pk ((a, pk) :: rest) st) = inr st1
               ∧ cov_room nbins_k st1).
    { destruct (a =? -1) eqn:E; [eauto|]. apply Z.eqb_neq in E.
      destruct Ha as [Ha|Ha]; [contradiction|].
      apply pair_loop_returns; [assumption..|].
      constructor; [right; exact Ha|exact Hrest]. }
    destruct Hstep as (st1 & -> & Hst1). cbn [bind]. apply IH, Hst1.
Qed.

Lemma select_sub_forest_returns (t : P1DTable F) (k_index : list Z)
    (select_z : list bool) (sub_id : string) (ids : list string)
    (pk : list F) :
  sub_forest_id t = Some ids → col_get t "Pk" = inr pk →
  length select_z = length ids → length pk = length ids →
  length k_index = length ids →
  returns (select_sub_forest t k_index select_z sub_id).
Proof.
  intros Hids Hpk Hs Hp Hk. unfold select_sub_forest, np_and, np_mask.
  rewrite Hids. cbn [bind ret]. rewrite length_map.
  destruct (decide (length select_z = length ids)); [|contradiction].
  cbn [bind ret]. rewrite Hpk. cbn [bind].
  rewrite length_and_arr, length_map, Hs, Nat.min_id.
  destruct (decide (length pk = length ids)); [|contradiction].
  cbn [bind ret].
  destruct (decide (length k_index = length ids)); [|contradiction].
  cbn [bind ret]. eexists. reflexivity.
Qed.

Lemma first_loop_returns (t : P1DTable F) (k_index : list Z) (nbins_k : nat)
    (select_z : list bool) (sub_forest_ids ids : list string) (pk : list F)
    (st : CovArrays F) :
  Forall (valid_bin nbins_k) k_index →
  sub_forest_id t = Some ids → col_get t "Pk" = inr pk →
  length select_z = length ids → length pk = length ids →
  length k_index = length ids →
  cov_room nbins_k st →
  ∃ st', first_loop t k_index nbins_k select_z sub_forest_ids st = inr st'
         ∧ cov_room nbins_k st'.
Proof.
  intros Hv Hids Hpk Hs Hp Hk Hst. unfold first_loop.
  apply (foldM_returns (cov_room nbins_k)); [exact Hst|].
  intros s sub_id _ Hroom.
  destruct (select_sub_forest_returns t k_index select_z sub_id ids pk)
    as [g Hg]; [assumption..|].
  rewrite Hg. cbn [bind]. apply sample_loop_returns; [exact Hroom|].
  eapply select_sub_forest_valid; eassumption.
Qed.

Lemma normalise_returns (T : MeanTable F) (zc : list F)
    (nbins_k izbin a : nat) (ma : F) (st : CovArrays F) (b : nat) :
  (∀ j, (j < nbins_k)%nat →
        returns (stat_get T "meanPk" (nbins_k * izbin + j))) →
  is_Some (zc !! izbin) →
  (a < nbins_k)%nat → (b < nbins_k)%nat → cov_room nbins_k st →
  ∃ st', normalise T zc nbins_k izbin a ma st b = inr st'
         ∧ cov_room nbins_k st'.
Proof.
  intros Hmean [z Hz] Ha Hb (Hc & Hn & Hzb & Hib). unfold normalise.
  destruct (Hmean b Hb) as [mb ->]. cbn [bind].
  pose proof (cell_lt nbins_k a b Ha Hb) as Hab.
  pose proof (cell_lt nbins_k b a Hb Ha) as Hba. unfold cell in Hab, Hba.
  destruct (py_get_lt (covariance_array st) (nbins_k * a + b))
    as (c & -> & _); [lia|]. cbn [bind].
  destruct (py_get_lt (n_array st) (nbins_k * a + b))
    as (n & Hget & _); [lia|]. rewrite !Hget. cbn [bind].
  apply py_get_inr in Hz. rewrite !Hz.
  unfold py_set. rewrite ?length_insert.
  repeat (case_decide; [|lia]). cbn [bind ret].
  destruct (b =? a)%nat.
  - eexists. split; [reflexivity|]. unfold cov_room. simpl.
    rewrite !length_insert. auto.
  - destruct (py_get_lt (<[(nbins_k * a + b)%nat :=
                             ((c ⊘ of_Z n) ⊖ ma ⊗ mb) ⊘ of_Z n]>
                           (covariance_array st)) (nbins_k * a + b))
      as (v & -> & _); [rewrite length_insert; lia|]. cbn [bind].
    rewrite ?length_insert.
    repeat (case_decide; [|lia]). cbn [bind ret].
    eexists. split; [reflexivity|]. unfold cov_room. simpl.
    rewrite !length_insert. auto.
Qed.

Lemma second_loop_returns (T : MeanTable F) (zc : list F)
    (nbins_k izbin : nat) (st : CovArrays F) :
  (∀ j, (j < nbins_k)%nat →
        returns (stat_get T "meanPk" (nbins_k * izbin + j))) →
  is_Some (zc !! izbin) → cov_room nbins_k st →
  returns (second_loop T zc nbins_k izbin st).
Proof.
  intros Hmean Hz Hst. unfold second_loop.
  destruct (foldM_returns (cov_room nbins_k)
              (fun st ikbin =>
                 let* mean_ikbin :=
                   stat_get T "meanPk" (nbins_k * izbin + ikbin) in
                 foldM (normalise T zc nbins_k izbin ikbin mean_ikbin)
                       st (seq ikbin (nbins_k - ikbin)))
              (seq 0 nbins_k) st Hst) as (st' & Hst' & _).
  - intros s a Ha%elem_of_seq Hs.
    destruct (Hmean a) as [ma ->]; [lia|]. cbn [bind].
    apply (foldM_returns (cov_room nbins_k)); [exact Hs|].
    intros s1 b Hb%elem_of_seq Hs1.
    apply normalise_returns; [assumption..|lia|lia|assumption].
  - exists st'. exact Hst'.
Qed.

(** [compute_cov] returns on a redshift bin as soon as the k bins of
    the samples are [-1] or a bin, the columns of the samples have one
    length, and the table of means has the mean of every k bin of the
    redshift bin. *)
Lemma compute_cov_returns (t : P1DTable F) (T : MeanTable F) (zc : list F)
    (n_chunks k_index : list Z) (nbins_k izbin : nat) (select_z : list bool)
    (sub_forest_ids ids : list string) (pk : list F) :
  Forall (valid_bin nbins_k) k_index →
  sub_forest_id t = Some ids → col_get t "Pk" = inr pk →
  length select_z = length ids → length pk = length ids →
  length k_index = length ids →
  is_Some (n_chunks !! izbin) → is_Some (zc !! izbin) →
  (∀ j, (j < nbins_k)%nat →
        returns (stat_get T "meanPk" (nbins_k * izbin + j))) →
  returns (compute_cov t T zc n_chunks k_index nbins_k izbin select_z
                       sub_forest_ids).
Proof.
  intros Hv Hids Hpk Hs Hp Hk [n Hn] Hz Hmean. unfold compute_cov.
  apply py_get_inr in Hn. rewrite Hn. cbn [bind].
  destruct (n =? 0).
  - destruct Hz as [z Hz]. apply py_get_inr in Hz. rewrite Hz.
    cbn [bind ret]. eexists. reflexivity.
  - destruct (first_loop_returns t k_index nbins_k select_z sub_forest_ids
                ids pk
                {| zbin_array := replicate (nbins_k * nbins_k) (of_Z 0);
                   index_zbin_array := replicate (nbins_k * nbins_k) 0;
                   n_array := replicate (nbins_k * nbins_k) 0;
                   covariance_array := replicate (nbins_k * nbins_k) (of_Z 0) |})
      as (st & -> & Hst); [assumption..| |].
    + unfold cov_room. simpl. rewrite !length_replicate. auto.
    + cbn [bind]. apply second_loop_returns; assumption.
Qed.
End CovarianceTotality.

(** * Further properties *)

(** ** The k bin of every sample *)

Section KIndex.
Context {F : Type} `{Arith F}.

Lemma last_bin_valid (ke : list F) (kv : F) (m : nat) :
  valid_bin m (last_bin ke kv m).
Proof.
  induction m as [|m IH]; simpl; [left; reflexivity|].
  destruct (in_open ke m kv); [right; lia|].
  destruct IH as [->|IH]; [left; reflexivity|right; lia].
Qed.

Lemma length_assign_where {A} (a : list A) (select : list bool) (v : A) :
  length (assign_where a select v) = (length a `min` length select)%nat.
Proof. apply length_zip_with. Qed.

Lemma compute_k_index_returns (k ke : list F) :
  ∃ ki, compute_k_index k ke = inr ki ∧ length ki = length k ∧
        Forall (valid_bin (length ke - 1)) ki.
Proof.
  destruct (foldM_returns (fun ki : list Z => length ki = length k)
              (fun k_index ikbin =>
                 let* khi := py_get ke (ikbin + 1) in
                 let* klo := py_get ke ikbin in
                 let select := and_arr (lt_arr k khi) (gt_arr k klo) in
                 ret (assign_where k_index select (Z.of_nat ikbin)))
              (seq 0 (length (removelast ke))) (replicate (length k) (-1)))
    as (ki & Hki & Hlen).
  - apply length_replicate.
  - intros s a Ha%elem_of_seq Hs. rewrite length_removelast in Ha.
    destruct (py_get_lt ke (a + 1)) as (khi & -> & _); [lia|].
    destruct (py_get_lt ke a) as (klo & -> & _); [lia|].
    cbn [bind ret]. eexists. split; [reflexivity|].
    rewrite length_assign_where, length_and_arr.
    unfold lt_arr, gt_arr. rewrite !length_map. lia.
  - exists ki. split_and!; [exact Hki|exact Hlen|].
    apply Forall_lookup. intros r x Hr.
    destruct (lookup_lt_is_Some_2 k r) as [kv Hkv];
      [rewrite <- Hlen; eapply lookup_lt_Some, Hr|].
    rewrite (compute_k_index_lookup _ _ _ _ _ Hki Hkv) in Hr.
    injection Hr as <-. rewrite length_removelast. apply last_bin_valid.
Qed.

(** X5: the assignment of k bins never raises; it gives every sample
    an entry, which is [-1] or the number of a k bin. *)
Theorem compute_k_index_valid (k ke : list F) :
  ∃ ki, compute_k_index k ke = inr ki ∧ length ki = length k ∧
        Forall (valid_bin (length ke - 1)) ki.
Proof. apply compute_k_index_returns. Qed.
End KIndex.

Section RunOptions.
Context {F : Type} `{Arith F} `{Env F}.

(** The conversion of units keeps the identifiers of the chunks. *)
Lemma convert_velunits_ids (t t' : P1DTable F) (l : list string) :
  convert_velunits t l = inr t' →
  forest_id t' = forest_id t ∧ sub_forest_id t' = sub_forest_id t.
Proof.
  intros Hc. unfold convert_velunits in Hc.
  bind_inv Hc as fz Hfz. bind_inv Hc as k Hk.
  apply (foldM_invariant
           (fun t' : P1DTable F =>
              forest_id t' = forest_id t ∧ sub_forest_id t' = sub_forest_id t))
    in Hc; [exact Hc| |split; reflexivity].
  intros s col s' _ [Hf Hs] Hb.
  destruct (substringb "Pk" col).
  - bind_inv Hb as c Hc'. injection Hb as <-. simpl. auto.
  - injection Hb as <-. auto.
Qed.

(** X6: in a run without bootstrap ([compute_bootstrap=False], as the
    embedding has it) a covariance that was asked for is left out
    without an error when the samples carry no ['sub_forest_id'], when
    the weighting is not ['no_weights'] or when redshift weights are
    applied; in every other run that returns the covariance table is
    there. *)
Theorem covariance_left_out (t : P1DTable F) (z_array ze ke : list F)
    (wm : string) (azw nomed velunits cc : bool) (out : Output F) :
  compute_mean_pk1d t z_array ze ke wm azw nomed velunits cc = inr out →
  (out_cov_table out = None ↔
   cc = false ∨ sub_forest_id t = None ∨ wm ≠ "no_weights" ∨ azw = true).
Proof.
  intros Hc. unfold compute_mean_pk1d in Hc.
  bind_inv Hc as t' Ht'. bind_inv Hc as size Hsize.
  bind_inv Hc as kfirst Hkfirst. bind_inv Hc as nz Hnz.
  bind_inv Hc as klast Hklast. bind_inv Hc as cov_init Hcov.
  bind_inv Hc as n_chunks Hn. bind_inv Hc as T HT.
  bind_inv Hc as ct Hct. injection Hc as <-. simpl.
  assert (Hsub : sub_forest_id t' = sub_forest_id t).
  { destruct velunits; [apply convert_velunits_ids in Ht' as [_ ?]; assumption|].
    injection Ht' as <-. reflexivity. }
  rewrite Hsub in Hcov.
  destruct cc; [|injection Hcov as <-; injection Hct as <-; tauto].
  destruct (sub_forest_id t) as [ids|];
    [|injection Hcov as <-; injection Hct as <-; tauto].
  destruct (String.eqb wm "no_weights") eqn:Ewm; simpl in Hcov.
  - apply String.eqb_eq in Ewm as ->.
    destruct azw; [injection Hcov as <-; injection Hct as <-; tauto|].
    bind_inv Hcov as csize Hcs. bind_inv Hcov as k Hk.
    bind_inv Hcov as k_index Hki. injection Hcov as <-.
    bind_inv Hct as ct' Hct'. injection Hct as <-.
    split; [discriminate|].
    intros [?|[?|[?|?]]]; congruence.
  - apply String.eqb_neq in Ewm.
    injection Hcov as <-. injection Hct as <-. tauto.
Qed.

End RunOptions.

Section FitNaN.
Context {F : Type} `{Arith F} `{Env F}.

Lemma mask_keep_no_nan (values : list F) :
  existsb (fun b : bool => b)
    (map fis_nan (mask values (map negb (map fis_nan values)))) = false.
Proof.
  induction values as [|x values IH]; [reflexivity|]. cbn [map mask].
  destruct (fis_nan x) eqn:E; cbn [negb]; [exact IH|].
  cbn [map existsb]. rewrite E. exact IH.
Qed.

Lemma mask_all_true {A} (a : list A) (m : list bool) :
  existsb (fun b : bool => b) (map negb m) = false →
  length a = length m → mask a m = a.
Proof.
  revert m. induction a as [|x a IH]; intros [|b m]; try discriminate;
    [reflexivity|]. cbn [map existsb mask length].
  destruct b; cbn [negb orb]; [|discriminate].
  intros Hm [= Hl]. f_equal. apply IH; assumption.
Qed.

(** X15: with weights fitted on the signal-to-noise ratio the mean and
    the error of a cell are those of its values that are not NaN. *)
Theorem fit_snr_drops_nan (rw values snr : list F) :
  length snr = length values →
  let keep := map negb (map fis_nan values) in
  stats_fit_snr false rw values snr
  = stats_fit_snr false rw (mask values keep) (mask snr keep).
Proof.
  intros Hlen keep. unfold stats_fit_snr.
  destruct MEANPK_FITRANGE_SNR as [snr_lo snr_hi].
  fold keep. rewrite mask_keep_no_nan.
  destruct (existsb (fun b : bool => b) (map fis_nan values)) eqn:E;
    [reflexivity|].
  assert (Hk : existsb (fun b : bool => b) (map negb keep) = false).
  { unfold keep. rewrite map_map.
    rewrite <- E. f_equal. rewrite map_map. apply map_ext.
    intros x. apply negb_involutive. }
  rewrite (mask_all_true values keep Hk)
    by (unfold keep; rewrite !length_map; reflexivity).
  rewrite (mask_all_true snr keep Hk)
    by (unfold keep; rewrite !length_map; exact Hlen).
  reflexivity.
Qed.
End FitNaN.

Lemma and_arr_comm (a b : list bool) : and_arr a b = and_arr b a.
Proof.
  revert b. induction a as [|x a IH]; intros [|y b]; simpl; try reflexivity.
  unfold and_arr in *. simpl. rewrite IH, andb_comm. reflexivity.
Qed.

Lemma and_arr_assoc (a b c : list bool) :
  and_arr (and_arr a b) c = and_arr a (and_arr b c).
Proof.
  revert b c. induction a as [|x a IH]; intros [|y b] [|z c]; simpl;
    try reflexivity.
  unfold and_arr in *. simpl. rewrite IH, andb_assoc. reflexivity.
Qed.

Lemma and_arr_rotate (a b c d : list bool) :
  and_arr (and_arr (and_arr a b) c) d = and_arr (and_arr (and_arr c d) b) a.
Proof.
  rewrite (and_arr_comm (and_arr (and_arr c d) b) a).
  rewrite (and_arr_comm (and_arr c d) b).
  rewrite <- !and_arr_assoc. reflexivity.
Qed.

Section RedshiftWeights.
Context {F : Type} `{Arith F} `{Env F}.

(** X13: with redshift weights the first and the last redshift bin
    select the samples of the plain selection. *)
Theorem z_weights_edge_bins (t : P1DTable F) (nbins_z : nat)
    (zc ze ke : list F) (izbin ikbin : nat) (sel : list bool) (rw : list F) :
  izbin = 0%nat ∨ Z.of_nat izbin = Z.of_nat nbins_z - 1 →
  select_bin_z_weights t nbins_z zc ze ke izbin ikbin = inr (sel, rw) →
  select_bin t ze ke izbin ikbin = inr sel.
Proof.
  intros Hedge Hs. unfold select_bin_z_weights in Hs.
  bind_inv Hs as d0 Hd0.
  destruct (negb _); [discriminate|].
  bind_inv Hs as k Hk. bind_inv Hs as khi Hkhi. bind_inv Hs as klo Hklo.
  bind_inv Hs as fz Hfz. bind_inv Hs as select Hsel.
  bind_inv Hs as c Hc. injection Hs as <- _.
  assert ((izbin =? 0)%nat || (Z.of_nat izbin =? Z.of_nat nbins_z - 1) = true)
    as Hb.
  { apply orb_true_iff. destruct Hedge as [->|He]; [left; reflexivity|].
    right. apply Z.eqb_eq, He. }
  rewrite Hb in Hsel. bind_inv Hsel as zlo Hzlo. bind_inv Hsel as zhi Hzhi.
  injection Hsel as <-.
  unfold select_bin. rewrite Hfz, Hzhi, Hzlo, Hk, Hkhi, Hklo. cbn [bind ret].
  f_equal.
  apply and_arr_rotate.
Qed.

(** X14: redshift weights need two redshift bins: over a single
    redshift bin that holds a chunk, the run stops with [IndexError] at
    the first k bin. *)
Theorem z_weights_single_redshift_bin (t : P1DTable F) (z_array : list F)
    (z0 z1 : F) (ke : list F) (wm : string) (nomed cc : bool)
    (n_chunks : list Z) (n : Z) :
  (2 ≤ length ke)%nat →
  binned_statistic_count z_array [z0; z1] = inr n_chunks →
  n_chunks !! 0%nat = Some n → n ≠ 0 →
  compute_mean_pk1d t z_array [z0; z1] ke wm true nomed false cc
  = inl IndexError.
Proof.
  intros Hke Hcount Hn Hne. unfold compute_mean_pk1d.
  cbn [bind ret length]. unfold np_size.
  assert (((Z.of_nat 2 - 1) * (Z.of_nat (length ke) - 1) <? 0) = false) as ->
    by (apply Z.ltb_ge; nia).
  cbn [bind ret].
  destruct (py_get_lt ke 0) as (kfirst & -> & _); [lia|]. cbn [bind ret].
  assert ((Z.of_nat 2 - 1 <? 0) = false) as -> by reflexivity.
  cbn [bind ret].
  destruct (py_get_lt ke (length ke - 1)) as (klast & -> & _); [lia|].
  cbn [bind ret].
  assert ((if cc
           then match sub_forest_id t with
                | Some _ =>
                    if negb (String.eqb wm "no_weights")
                    then ret (None : option (CovTable F * list Z))
                    else ret None
                | None => ret None
                end
           else ret None) = inr None) as Hcov.
  { destruct cc; [|reflexivity]. destruct (sub_forest_id t); [|reflexivity].
    destruct (negb _); reflexivity. }
  rewrite Hcov. cbn [bind ret]. rewrite Hcount. cbn [bind ret].
  unfold aggregate. cbn [removelast length seq foldM].
  unfold fill_average_pk_redshift at 1.
  apply py_get_inr in Hn. rewrite Hn. cbn [bind].
  apply Z.eqb_neq in Hne. rewrite Hne.
  rewrite length_removelast.
  destruct (length ke - 1)%nat as [|m] eqn:Em; [lia|].
  cbn [seq foldM]. unfold fill_cell at 1, cell_selection, select_bin_z_weights.
  unfold zbin_centers_of. cbn. reflexivity.
Qed.
End RedshiftWeights.

(** ** The order of the redshift bins *)

(** A loop run from two related states: each turn that returns from
    the first state returns from the second one, and the states stay
    related. *)
Lemma foldM_sim {A S} (R : S → S → Prop) (body : S → A → res S)
    (l : list A) (s1 s2 s1' : S) :
  (∀ a s1 s2 s1', a ∈ l → R s1 s2 → body s1 a = inr s1' →
                  ∃ s2', body s2 a = inr s2' ∧ R s1' s2') →
  R s1 s2 → foldM body s1 l = inr s1' →
  ∃ s2', foldM body s2 l = inr s2' ∧ R s1' s2'.
Proof.
  revert s1 s2. induction l as [|a l IH]; intros s1 s2 Hb HR Hf; simpl in *.
  - injection Hf as <-. eauto.
  - bind_inv Hf as s Hs.
    destruct (Hb a s1 s2 s ltac:(left) HR Hs) as (s' & -> & HR').
    simpl. eapply IH; [|exact HR'|exact Hf].
    intros b t1 t2 t1' Hin. apply Hb. right. exact Hin.
Qed.

Section Locality.
Context {F : Type} `{Arith F} `{Env F}.

(** Two tables of one shape whose rows in [S] are the same. *)
Definition agree (S : nat → Prop) (T1 T2 : MeanTable F) : Prop :=
  same_shape T1 T2 ∧ ∀ row, S row → row_eq T1 T2 row.

Lemma MeanTable_ext (T1 T2 : MeanTable F) :
  agree (fun _ => True) T1 T2 → T1 = T2.
Proof.
  intros [(Hlz & Hli & HlN & Hls) Hrows].
  destruct T1 as [z1 i1 n1 s1], T2 as [z2 i2 n2 s2]. simpl in *.
  assert (z1 = z2) as ->.
  { apply list_eq. intros r. destruct (Hrows r I) as (Hr & _). auto. }
  assert (i1 = i2) as ->.
  { apply list_eq. intros r. destruct (Hrows r I) as (_ & Hr & _). auto. }
  assert (n1 = n2) as ->.
  { apply list_eq. intros r. destruct (Hrows r I) as (_ & _ & Hr & _). auto. }
  f_equal. apply map_eq. intros name. specialize (Hls name). simpl in Hls.
  destruct (s1 !! name) as [c1|] eqn:E1, (s2 !! name) as [c2|] eqn:E2;
    try discriminate; [|reflexivity].
  f_equal. apply list_eq. intros r.
  destruct (Hrows r I) as (_ & _ & _ & Hr). specialize (Hr name).
  unfold stat_at in Hr. simpl in Hr. rewrite E1, E2 in Hr. auto.
Qed.

Lemma stat_set_sim (S : nat → Prop) (T1 T2 T1' : MeanTable F)
    (name : string) (index : nat) (v : F) :
  agree S T1 T2 → stat_set T1 name index v = inr T1' →
  ∃ T2', stat_set T2 name index v = inr T2' ∧ agree S T1' T2'.
Proof.
  intros [(Hlz & Hli & HlN & Hls) Hrows] Hs. unfold stat_set in *.
  destruct (stat T1 !! name) as [c1|] eqn:E1; [|discriminate].
  bind_inv Hs as c1' Hc1. injection Hs as <-.
  apply py_set_inr in Hc1 as [Hlt ->].
  pose proof (Hls name) as Hl. rewrite E1 in Hl.
  destruct (stat T2 !! name) as [c2|] eqn:E2; [|discriminate].
  simpl in Hl. injection Hl as Hl.
  unfold py_set. destruct (decide (index < length c2)%nat) as [Hlt2|]; [|lia].
  cbn [bind ret]. eexists. split; [reflexivity|].
  split.
  - unfold same_shape. simpl. split_and!; try assumption.
    intros name'. destruct (decide (name = name')) as [<-|Hne].
    + rewrite !lookup_insert_eq. simpl. rewrite !length_insert. congruence.
    + rewrite !lookup_insert_ne by exact Hne. apply Hls.
  - intros row Hrow. destruct (Hrows row Hrow) as (Hz & Hi & HN & Hst).
    unfold row_eq. simpl. split_and!; try assumption.
    intros name'. specialize (Hst name'). unfold stat_at in *. simpl.
    destruct (decide (name = name')) as [<-|Hne].
    + rewrite !lookup_insert_eq. rewrite E1, E2 in Hst.
      destruct (decide (row = index)) as [->|Hr].
      * rewrite !list_lookup_insert_eq by assumption. reflexivity.
      * rewrite !list_lookup_insert_ne by auto. exact Hst.
    + rewrite !lookup_insert_ne by exact Hne. exact Hst.
Qed.

Section Bin.
Variables (t : P1DTable F) (p1d_table_cols : list string).
Variables (weight_method : string) (apply_z_weights nomedians : bool).
Variables (nbins_z : nat) (zbin_centers zbin_edges : list F).
Variables (n_chunks : list Z) (nbins_k : nat) (kbin_edges : list F).
Hypothesis Hnk : length (removelast kbin_edges) = nbins_k.

Lemma fill_column_sim (S : nat → Prop) (select : list bool) (rw : list F)
    (num index : nat) (T1 T2 T1' : MeanTable F) (col : string) :
  agree S T1 T2 →
  fill_column t weight_method apply_z_weights nomedians select rw num index
              T1 col = inr T1' →
  ∃ T2', fill_column t weight_method apply_z_weights nomedians select rw num
                     index T2 col = inr T2' ∧ agree S T1' T2'.
Proof.
  intros HR Hf. unfold fill_column in *.
  destruct (num =? 0)%nat; [injection Hf as <-; eauto|].
  bind_inv Hf as me Hme. rewrite Hme. cbn [bind]. destruct me as [mean error].
  bind_inv Hf as values Hvalues. rewrite Hvalues. cbn [bind].
  bind_inv Hf as minimum Hmin. rewrite Hmin. cbn [bind].
  bind_inv Hf as maximum Hmax. rewrite Hmax. cbn [bind].
  bind_inv Hf as Ta E1.
  destruct (stat_set_sim _ _ _ _ _ _ _ HR E1) as (Ta' & -> & HRa).
  cbn [bind]. bind_inv Hf as Tb E2.
  destruct (stat_set_sim _ _ _ _ _ _ _ HRa E2) as (Tb' & -> & HRb).
  cbn [bind]. bind_inv Hf as Tc E3.
  destruct (stat_set_sim _ _ _ _ _ _ _ HRb E3) as (Tc' & -> & HRc).
  cbn [bind]. bind_inv Hf as Td E4.
  destruct (stat_set_sim _ _ _ _ _ _ _ HRc E4) as (Td' & -> & HRd).
  cbn [bind]. destruct nomedians.
  - injection Hf as <-. eauto.
  - eapply stat_set_sim; eassumption.
Qed.

Lemma fill_cell_sim (S : nat → Prop) (izbin : nat) (T1 T2 T1' : MeanTable F)
    (ikbin : nat) :
  agree S T1 T2 →
  fill_cell t p1d_table_cols weight_method apply_z_weights nomedians nbins_z
            zbin_centers zbin_edges nbins_k kbin_edges izbin T1 ikbin
  = inr T1' →
  ∃ T2', fill_cell t p1d_table_cols weight_method apply_z_weights nomedians
                   nbins_z zbin_centers zbin_edges nbins_k kbin_edges izbin
                   T2 ikbin = inr T2' ∧ agree S T1' T2'.
Proof.
  intros [(Hlz & Hli & HlN & Hls) Hrows] Hf. unfold fill_cell in *.
  bind_inv Hf as sel Hsel. rewrite Hsel. cbn [bind].
  destruct sel as [select rw].
  bind_inv Hf as c Hc. rewrite Hc. cbn [bind].
  bind_inv Hf as zb Hzb. bind_inv Hf as ib Hib.
  bind_inv Hf as k Hk. rewrite Hk. bind_inv Hf as nb Hnb.
  apply py_set_inr in Hzb as [Hz1 ->], Hib as [Hi1 ->], Hnb as [Hn1 ->].
  unfold py_set.
  destruct (decide (nbins_k * izbin + ikbin < length (zbin T2))%nat); [|lia].
  destruct (decide (nbins_k * izbin + ikbin < length (index_zbin T2))%nat);
    [|lia].
  destruct (decide (nbins_k * izbin + ikbin < length (N T2))%nat); [|lia].
  cbn [bind ret].
  eapply (foldM_sim (agree S)); [| |exact Hf].
  - intros col s1 s2 s1' _. apply fill_column_sim.
  - split.
    + unfold same_shape. simpl. rewrite !length_insert. auto.
    + intros row Hrow. destruct (Hrows row Hrow) as (Hz & Hi & HN & Hst).
      unfold row_eq. simpl. split_and!; [| | |exact Hst].
      * destruct (decide (row = nbins_k * izbin + ikbin)%nat) as [->|Hr].
        -- rewrite !list_lookup_insert_eq by assumption. reflexivity.
        -- rewrite !list_lookup_insert_ne by auto. exact Hz.
      * destruct (decide (row = nbins_k * izbin + ikbin)%nat) as [->|Hr].
        -- rewrite !list_lookup_insert_eq by assumption. reflexivity.
        -- rewrite !list_lookup_insert_ne by auto. exact Hi.
      * destruct (decide (row = nbins_k * izbin + ikbin)%nat) as [->|Hr].
        -- rewrite !list_lookup_insert_eq by assumption. reflexivity.
        -- rewrite !list_lookup_insert_ne by auto. exact HN.
Qed.

Let fill (T : MeanTable F) (izbin : nat) : res (MeanTable F) :=
  fill_average_pk_redshift t p1d_table_cols T weight_method apply_z_weights
    nomedians nbins_z zbin_centers zbin_edges n_chunks nbins_k kbin_edges
    izbin.

(** The rows of the redshift bin [izbin]. *)
Definition band (izbin : nat) (row : nat) : Prop :=
  (nbins_k * izbin ≤ row < nbins_k * izbin + nbins_k)%nat.

(** Whether the call for a redshift bin returns depends on the shape
    of the table alone, and the rows it leaves depend on the rows it
    finds alone. *)
Lemma fill_average_sim (S : nat → Prop) (izbin : nat)
    (T1 T2 T1' : MeanTable F) :
  agree S T1 T2 → fill T1 izbin = inr T1' →
  ∃ T2', fill T2 izbin = inr T2' ∧ agree S T1' T2'.
Proof.
  intros HR Hf. unfold fill, fill_average_pk_redshift in *.
  bind_inv Hf as n Hn. rewrite Hn. cbn [bind]. destruct (n =? 0).
  - bind_inv Hf as c Hc. rewrite Hc. cbn [bind ret]. injection Hf as <-.
    eexists. split; [reflexivity|].
    destruct HR as [(Hlz & Hli & HlN & Hls) Hrows]. split.
    + unfold same_shape. simpl. rewrite !length_set_slice. auto.
    + intros row Hrow. destruct (Hrows row Hrow) as (Hz & Hi & HN & Hst).
      unfold row_eq. simpl. rewrite !lookup_set_slice, Hz, Hi.
      split_and!; try reflexivity; assumption.
  - eapply (foldM_sim (agree S)); [|exact HR|exact Hf].
    intros ikbin s1 s2 s1' _. apply fill_cell_sim.
Qed.

(** The call for a redshift bin leaves the rows of the other bins as
    they were. *)
Lemma fill_average_frame (izbin : nat) (T T' : MeanTable F) :
  fill T izbin = inr T' → agree (fun row => ¬ band izbin row) T T'.
Proof.
  intros Hf. unfold fill, fill_average_pk_redshift in Hf.
  bind_inv Hf as n Hn. destruct (n =? 0).
  - bind_inv Hf as c Hc. injection Hf as <-. split.
    + unfold same_shape. simpl. rewrite !length_set_slice. auto.
    + intros row Hrow. unfold band in Hrow. unfold row_eq, stat_at. simpl.
      rewrite !lookup_set_slice.
      assert ((izbin * nbins_k <=? row)%nat
              && (row <? (izbin + 1) * nbins_k)%nat = false) as ->.
      { apply andb_false_iff. rewrite Nat.leb_gt, Nat.ltb_ge. lia. }
      split_and!; try reflexivity.
      * destruct (zbin T !! row); reflexivity.
      * destruct (index_zbin T !! row); reflexivity.
  - rewrite Hnk in Hf.
    apply fill_cells_spec in Hf as (Hsh & Hrows & _).
    split; [exact Hsh|]. intros row Hrow. apply Hrows. exact Hrow.
Qed.

Lemma agree_sym (S : nat → Prop) (T1 T2 : MeanTable F) :
  agree S T1 T2 → agree S T2 T1.
Proof.
  intros [(Hlz & Hli & HlN & Hls) Hrows]. split.
  - unfold same_shape. split_and!; auto.
  - intros row Hrow. destruct (Hrows row Hrow) as (Hz & Hi & HN & Hst).
    unfold row_eq. split_and!; auto.
Qed.

(** Two redshift bins can be filled in either order. *)
Lemma fill_average_swap (x y : nat) (T Ty Tyx : MeanTable F) :
  fill T y = inr Ty → fill Ty x = inr Tyx →
  ∃ Tx, fill T x = inr Tx ∧ fill Tx y = inr Tyx.
Proof.
  intros Hy Hyx.
  destruct (decide (x = y)) as [->|Hne]; [eauto|].
  pose proof (fill_average_frame _ _ _ Hy) as Fy.
  pose proof (fill_average_frame _ _ _ Hyx) as Fyx.
  destruct (fill_average_sim _ _ _ _ _ (agree_sym _ _ _ Fy) Hyx)
    as (Tx & Hx & Rx).
  pose proof (fill_average_frame _ _ _ Hx) as Fx.
  destruct (fill_average_sim _ _ _ _ _ Fx Hy) as (Txy & Hxy & Rxy).
  pose proof (fill_average_frame _ _ _ Hxy) as Fxy.
  exists Tx. split; [exact Hx|]. rewrite Hxy. f_equal.
  apply MeanTable_ext, agree_sym. split.
  - destruct Rx as [Rs _], Fxy as [Fs _].
    eapply same_shape_trans; eassumption.
  - intros row _. destruct (decide (band y row)) as [Hb|Hb].
    + assert (¬ band x row) as Hx' by (unfold band in *; nia).
      eapply row_eq_trans.
      * apply agree_sym in Fyx. apply Fyx, Hx'.
      * apply Rxy, Hx'.
    + eapply row_eq_trans.
      * apply Rx, Hb.
      * apply Fxy, Hb.
Qed.
End Bin.
End Locality.

Section Order.
Context {F : Type} `{Arith F} `{Env F}.
Variables (t : P1DTable F) (p1d_table_cols : list string).
Variables (weight_method : string) (apply_z_weights nomedians : bool).
Variables (nbins_z : nat) (zbin_centers zbin_edges : list F).
Variables (n_chunks : list Z) (nbins_k : nat) (kbin_edges : list F).

(** X10: the table of statistics does not depend on the order in which
    the redshift bins are filled: when the calls of
    [fill_average_pk_redshift] return in one order, they return in
    every other order and leave the same table. *)
Theorem aggregation_order (l l' : list nat) (T T' : MeanTable F) :
  length (removelast kbin_edges) = nbins_k →
  l ≡ₚ l' →
  foldM (fun T izbin =>
           fill_average_pk_redshift t p1d_table_cols T weight_method
             apply_z_weights nomedians nbins_z zbin_centers zbin_edges
             n_chunks nbins_k kbin_edges izbin) T l = inr T' →
  foldM (fun T izbin =>
           fill_average_pk_redshift t p1d_table_cols T weight_method
             apply_z_weights nomedians nbins_z zbin_centers zbin_edges
             n_chunks nbins_k kbin_edges izbin) T l' = inr T'.
Proof.
  intros Hnk Hp. revert T.
  induction Hp as [|x l l' Hp IH|x y l|l l' l'' Hp1 IH1 Hp2 IH2];
    intros T Hf; cbn [foldM] in *.
  - exact Hf.
  - bind_inv Hf as Tx Hx. rewrite Hx. cbn [bind]. apply IH, Hf.
  - bind_inv Hf as Ty Hy. bind_inv Hf as Tyx Hyx.
    destruct (fill_average_swap t p1d_table_cols weight_method
                apply_z_weights nomedians nbins_z zbin_centers zbin_edges
                n_chunks nbins_k kbin_edges Hnk x y T Ty Tyx Hy Hyx)
      as (Tx & Hx & Hxy).
    rewrite Hx. cbn [bind]. rewrite Hxy. cbn [bind]. exact Hf.
  - apply IH2, IH1, Hf.
Qed.
End Order.

Lemma seq_split (m i : nat) :
  (i < m)%nat → seq 0 m = seq 0 i ++ i :: seq (S i) (m - S i).
Proof.
  intros Hi. replace m with (i + S (m - S i))%nat at 1 by lia.
  rewrite seq_app. reflexivity.
Qed.

Section Extrema.
Context {F : Type} `{Arith F} `{Env F}.

Ltac key_neq := let Hk := fresh in intros Hk; cbv in Hk; congruence.

Section Cell.
Variables (t : P1DTable F) (weight_method : string).
Variables (apply_z_weights nomedians : bool).
Variables (select : list bool) (redshift_weights : list F).
Variables (num_chunks index : nat).

(** The row [index] of [T] holds the smallest, the largest and the
    median of the selected values of [col]. *)
Definition holds_extrema (T : MeanTable F) (col : string) : Prop :=
  ∃ values minimum maximum,
    selected t col select = inr values ∧
    np_min values = inr minimum ∧ np_max values = inr maximum ∧
    stat_at T ("min" +:+ col) index = Some minimum ∧
    stat_at T ("max" +:+ col) index = Some maximum ∧
    (nomedians = false →
     stat_at T ("median" +:+ col) index = Some (np_median values)).

Lemma fill_column_extrema (T T' : MeanTable F) (col : string) :
  num_chunks ≠ 0%nat →
  fill_column t weight_method apply_z_weights nomedians select
              redshift_weights num_chunks index T col = inr T' →
  holds_extrema T' col.
Proof.
  intros Hnum Hf. unfold fill_column in Hf.
  apply Nat.eqb_neq in Hnum. rewrite Hnum in Hf.
  bind_inv Hf as me Hme. destruct me as [mean error].
  bind_inv Hf as values Hvalues. bind_inv Hf as minimum Hmin.
  bind_inv Hf as maximum Hmax.
  bind_inv Hf as T1 E1. bind_inv Hf as T2 E2.
  bind_inv Hf as T3 E3. bind_inv Hf as T4 E4.
  apply stat_set_spec in E3 as (_ & Hv3 & _).
  apply stat_set_spec in E4 as (_ & Hv4 & Ho4).
  exists values, minimum, maximum.
  destruct nomedians.
  - injection Hf as <-. split_and!; try assumption.
    + rewrite Ho4 by key_neq. exact Hv3.
    + discriminate.
  - apply stat_set_spec in Hf as (_ & Hv5 & Ho5).
    split_and!; try assumption.
    + rewrite Ho5, Ho4 by key_neq. exact Hv3.
    + rewrite Ho5 by key_neq. exact Hv4.
    + intros _. exact Hv5.
Qed.

Lemma fill_columns_extrema (cols : list string) (T T' : MeanTable F) :
  num_chunks ≠ 0%nat →
  foldM (fill_column t weight_method apply_z_weights nomedians select
                     redshift_weights num_chunks index) T cols = inr T' →
  ∀ col, col ∈ cols → holds_extrema T' col.
Proof.
  intros Hnum. revert T'.
  induction cols as [|a cols IH] using rev_ind; intros T' Hf col Hin.
  - inversion Hin.
  - rewrite foldM_app in Hf. bind_inv Hf as T1 H1. simpl in Hf.
    bind_inv Hf as T2 H2. injection Hf as <-.
    pose proof (fill_column_extrema _ _ _ Hnum H2) as Ha.
    apply fill_column_spec in H2 as (_ & Hoth & _).
    apply elem_of_app in Hin as [Hin|Hin].
    + destruct (decide (col = a)) as [->|Hne]; [exact Ha|].
      destruct (IH _ H1 col Hin)
        as (values & mn & mx & Hv & Hmn & Hmx & Smn & Smx & Smed).
      exists values, mn, mx. split_and!; try assumption.
      * rewrite Hoth; [exact Smn|]. intros s Hs Heq.
        apply stat_key_inj in Heq as [_ ?];
          [congruence|unfold stats_all; repeat constructor|exact Hs].
      * rewrite Hoth; [exact Smx|]. intros s Hs Heq.
        apply stat_key_inj in Heq as [_ ?];
          [congruence|unfold stats_all; repeat constructor|exact Hs].
      * intros Hm. rewrite Hoth; [exact (Smed Hm)|]. intros s Hs Heq.
        apply stat_key_inj in Heq as [_ ?];
          [congruence|unfold stats_all; repeat constructor|exact Hs].
    + apply list_elem_of_singleton in Hin as ->. exact Ha.
Qed.
End Cell.

Section Bin.
Variables (t : P1DTable F) (p1d_table_cols : list string).
Variables (weight_method : string) (apply_z_weights nomedians : bool).
Variables (nbins_z : nat) (zbin_centers zbin_edges : list F).
Variables (n_chunks : list Z) (nbins_k : nat) (kbin_edges : list F).
Hypothesis Hnk : length (removelast kbin_edges) = nbins_k.

Let cell_call (izbin : nat) :=
  fill_cell t p1d_table_cols weight_method apply_z_weights nomedians nbins_z
            zbin_centers zbin_edges nbins_k kbin_edges izbin.

Let fill (T : MeanTable F) (izbin : nat) : res (MeanTable F) :=
  fill_average_pk_redshift t p1d_table_cols T weight_method apply_z_weights
    nomedians nbins_z zbin_centers zbin_edges n_chunks nbins_k kbin_edges
    izbin.

(** The cells of a redshift bin other than [(izbin, ikbin)] leave its
    row as it is. *)
Lemma fill_cells_keep (izbin ikbin : nat) (l : list nat)
    (T T' : MeanTable F) :
  ikbin ∉ l → foldM (cell_call izbin) T l = inr T' →
  row_eq T T' (nbins_k * izbin + ikbin).
Proof.
  intros Hl Hf.
  apply (foldM_invariant
           (fun T' => row_eq T T' (nbins_k * izbin + ikbin)%nat)) in Hf;
    [exact Hf| |apply row_eq_refl].
  intros s a s' Ha Hs Hb. apply fill_cell_spec in Hb as (_ & Hrows & _).
  eapply row_eq_trans; [exact Hs|]. apply Hrows.
  intros Heq. assert (a = ikbin) by nia. congruence.
Qed.

(** The other redshift bins leave the rows of [izbin] as they are. *)
Lemma fill_bins_keep (izbin : nat) (l : list nat) (T T' : MeanTable F)
    (row : nat) :
  izbin ∉ l → band nbins_k izbin row → foldM fill T l = inr T' →
  row_eq T T' row.
Proof.
  intros Hl Hrow Hf.
  apply (foldM_invariant (fun T' => row_eq T T' row)) in Hf;
    [exact Hf| |apply row_eq_refl].
  intros s a s' Ha Hs Hb.
  apply (fill_average_frame t p1d_table_cols weight_method apply_z_weights
           nomedians nbins_z zbin_centers zbin_edges n_chunks nbins_k
           kbin_edges Hnk) in Hb as [_ Hrows].
  eapply row_eq_trans; [exact Hs|]. apply Hrows.
  unfold band in *. intros Hb.
  assert (a = izbin) by nia. congruence.
Qed.

(** The row of a cell in the table the loop over the redshift bins
    returns is the row a call of [fill_cell] for that cell has left,
    made on a table with the row of the initial table. *)
Lemma aggregate_row (m : nat) (T0 T : MeanTable F) (izbin ikbin : nat)
    (n : Z) :
  foldM fill T0 (seq 0 m) = inr T →
  (izbin < m)%nat → (ikbin < nbins_k)%nat →
  n_chunks !! izbin = Some n → n ≠ 0 →
  ∃ Tin Tout,
    cell_call izbin Tin ikbin = inr Tout ∧
    row_eq T0 Tin (nbins_k * izbin + ikbin) ∧
    row_eq Tout T (nbins_k * izbin + ikbin).
Proof.
  intros Hf Hiz Hik Hn Hne.
  assert (Hband : band nbins_k izbin (nbins_k * izbin + ikbin))
    by (unfold band; lia).
  rewrite (seq_split m izbin Hiz), foldM_app in Hf.
  bind_inv Hf as T1 H1. cbn [foldM] in Hf. bind_inv Hf as T2 H2.
  apply fill_bins_keep with (izbin := izbin) (row := (nbins_k * izbin + ikbin)%nat)
    in H1; [|intros Hin%elem_of_seq; lia|exact Hband].
  apply fill_bins_keep with (izbin := izbin) (row := (nbins_k * izbin + ikbin)%nat)
    in Hf; [|intros Hin%elem_of_seq; lia|exact Hband].
  unfold fill, fill_average_pk_redshift in H2.
  apply py_get_inr in Hn. rewrite Hn in H2. cbn [bind] in H2.
  apply Z.eqb_neq in Hne. rewrite Hne, Hnk in H2.
  rewrite (seq_split nbins_k ikbin Hik), foldM_app in H2.
  bind_inv H2 as Tin Hin. cbn [foldM] in H2. bind_inv H2 as Tout Hout.
  apply fill_cells_keep with (ikbin := ikbin) in Hin;
    [|intros Hx%elem_of_seq; lia].
  apply fill_cells_keep with (ikbin := ikbin) in H2;
    [|intros Hx%elem_of_seq; lia].
  exists Tin, Tout. split_and!; [exact Hout| |].
  - eapply row_eq_trans; eassumption.
  - eapply row_eq_trans; eassumption.
Qed.
End Bin.
End Extrema.

Section Cells.
Context {F : Type} `{Arith F} `{Env F}.

(** The samples strictly inside the cell [(i, j)]: pairs of a redshift
    and a wavenumber. *)
Definition members (ze ke : list F) (i j : nat) (fz k : list F)
    : list (F * F) :=
  List.filter (fun p => in_open ze i p.1 && in_open ke j p.2) (zip fz k).

Lemma select_bin_count (t : P1DTable F) (ze ke : list F) (i j : nat)
    (sel : list bool) (fz k : list F) :
  select_bin t ze ke i j = inr sel →
  col_get t "forest_z" = inr fz → col_get t "k" = inr k →
  length (mask k sel) = length (members ze ke i j fz k).
Proof.
  intros Hs Hfz Hk. unfold select_bin in Hs. rewrite Hfz, Hk in Hs.
  cbn [bind] in Hs.
  bind_inv Hs as zhi Hzhi. bind_inv Hs as zlo Hzlo.
  bind_inv Hs as khi Hkhi. bind_inv Hs as klo Hklo. injection Hs as <-.
  apply py_get_inr in Hzhi, Hzlo, Hkhi, Hklo.
  unfold members, in_open. rewrite Hzhi, Hzlo, Hkhi, Hklo.
  clear. revert k. induction fz as [|z fz IH]; intros [|kv k];
    try reflexivity.
  specialize (IH k). unfold and_arr, lt_arr, gt_arr in *. cbn.
  destruct (z ≺ zhi), (zlo ≺ z), (kv ≺ khi), (klo ≺ kv); cbn;
    rewrite IH; reflexivity.
Qed.

Lemma fill_cell_row (t : P1DTable F) (cols : list string) (wm : string)
    (azw nomed : bool) (nbins_z : nat) (zc ze : list F) (nbins_k : nat)
    (ke : list F) (izbin ikbin : nat) (Tin Tout : MeanTable F) :
  fill_cell t cols wm azw nomed nbins_z zc ze nbins_k ke izbin Tin ikbin
  = inr Tout →
  ∃ select rw k,
    cell_selection t azw nbins_z zc ze ke izbin ikbin = inr (select, rw) ∧
    col_get t "k" = inr k ∧
    N Tout !! (nbins_k * izbin + ikbin)%nat
    = Some (Z.of_nat (length (mask k select))) ∧
    (length (mask k select) ≠ 0%nat →
     ∀ col, col ∈ cols →
       holds_extrema t nomed select (nbins_k * izbin + ikbin) Tout col).
Proof.
  intros Hf. unfold fill_cell in Hf.
  bind_inv Hf as sel Hsel. destruct sel as [select rw].
  bind_inv Hf as c Hc. bind_inv Hf as zb Hzb. bind_inv Hf as ib Hib.
  bind_inv Hf as k Hk. bind_inv Hf as nb Hnb.
  apply py_set_inr in Hnb as [Hln ->].
  exists select, rw, k. split_and!; [exact Hsel|exact Hk| |].
  - apply fill_columns_spec in Hf as ((_ & _ & Hn & _) & _).
    rewrite Hn. simpl. apply list_lookup_insert_eq, Hln.
  - intros Hnum. eapply fill_columns_extrema; eassumption.
Qed.

Lemma holds_extrema_row_eq (t : P1DTable F) (nomed : bool)
    (select : list bool) (index : nat) (T T' : MeanTable F) (col : string) :
  row_eq T T' index → holds_extrema t nomed select index T col →
  holds_extrema t nomed select index T' col.
Proof.
  intros (_ & _ & _ & Hst)
    (values & mn & mx & Hv & Hmn & Hmx & Smn & Smx & Smed).
  exists values, mn, mx. rewrite !Hst. split_and!; assumption.
Qed.

Section Run.
Variables (t : P1DTable F) (z_array ze ke : list F) (wm : string).
Variables (azw nomed velunits cc : bool) (out : Output F).
Variables (n_chunks : list Z) (izbin ikbin : nat) (n : Z).
Hypothesis Hrun :
  compute_mean_pk1d t z_array ze ke wm azw nomed velunits cc = inr out.
Hypothesis Hcount : binned_statistic_count z_array ze = inr n_chunks.
Hypothesis Hiz : (izbin < length ze - 1)%nat.
Hypothesis Hik : (ikbin < length ke - 1)%nat.
Hypothesis Hn : n_chunks !! izbin = Some n.

Let t' := out_p1d_table out.
Let T := out_mean_p1d_table out.
Let index := ((length ke - 1) * izbin + ikbin)%nat.

Lemma run_cell :
  n ≠ 0 →
  ∃ Tin Tout,
    fill_cell t' (colnames_stats t) wm azw nomed (length ze - 1)
              (zbin_centers_of ze) ze (length ke - 1) ke izbin Tin ikbin
    = inr Tout ∧
    row_eq Tout T index.
Proof.
  intros Hne.
  destruct (compute_mean_pk1d_inv _ _ _ _ _ _ _ _ _ _ Hrun)
    as (n_chunks' & stats_array & Hcount' & Hagg).
  rewrite Hcount in Hcount'. injection Hcount' as <-.
  unfold aggregate in Hagg. rewrite length_removelast in Hagg.
  destruct (aggregate_row _ _ _ _ _ _ _ _ _ _ _ (length_removelast ke)
              _ _ _ izbin ikbin n Hagg Hiz Hik Hn Hne)
    as (Tin & Tout & Hcell & _ & Hrow).
  eauto.
Qed.

(** X11: the count [N] of a cell is the number of samples whose
    redshift and wavenumber lie strictly inside the cell when the
    redshift bin holds a chunk, and 0 when the redshift bin holds no
    chunk, whatever the samples of the table. *)
Theorem cell_count_is_number_of_members :
  (n = 0 → N T !! index = Some 0) ∧
  (n ≠ 0 → azw = false →
   ∃ fz k, col_get t' "forest_z" = inr fz ∧ col_get t' "k" = inr k ∧
     N T !! index
     = Some (Z.of_nat (length (members ze ke izbin ikbin fz k)))).
Proof.
  split.
  - intros Hn0.
    destruct (compute_mean_pk1d_inv _ _ _ _ _ _ _ _ _ _ Hrun)
      as (n_chunks' & stats_array & Hcount' & Hagg).
    rewrite Hcount in Hcount'. injection Hcount' as <-.
    unfold aggregate in Hagg. rewrite length_removelast in Hagg.
    apply aggregate_prefix in Hagg as (_ & _ & Hcells);
      [|apply length_removelast
       |simpl; rewrite length_replicate; lia
       |simpl; rewrite length_replicate; lia].
    destruct (Hcells izbin ikbin Hiz Hik) as (n' & c & Hn' & _ & _ & _ & Hcase).
    rewrite Hn in Hn'. injection Hn' as <-.
    destruct Hcase as [(_ & HN & _)|(Hne & _)]; [|contradiction].
    fold T index in HN. rewrite HN. simpl.
    apply lookup_replicate_2. unfold index. nia.
  - intros Hne Hazw. destruct (run_cell Hne) as (Tin & Tout & Hcell & Hrow).
    apply fill_cell_row in Hcell
      as (select & rw & k & Hsel & Hk & HN & _).
    unfold cell_selection in Hsel. rewrite Hazw in Hsel. bind_inv Hsel as sel Hs.
    injection Hsel as -> _.
    pose proof Hs as Hs'. unfold select_bin in Hs'.
    bind_inv Hs' as fz Hfz. clear Hs'.
    exists fz, k. split_and!; [exact Hfz|exact Hk|].
    destruct Hrow as (_ & _ & HNr & _). rewrite HNr. fold index in HN.
    rewrite HN. do 2 f_equal. eapply select_bin_count; eassumption.
Qed.

(** X12: the smallest, the largest and the median value stored for a
    cell that has members are those of the values of its members,
    whatever the weighting method and the redshift weights. *)
Theorem cell_extrema_ignore_weights :
  n ≠ 0 →
  ∃ select rw k,
    cell_selection t' azw (length ze - 1) (zbin_centers_of ze) ze ke
                   izbin ikbin = inr (select, rw) ∧
    col_get t' "k" = inr k ∧
    (length (mask k select) ≠ 0%nat →
     ∀ col, col ∈ colnames_stats t →
       ∃ values minimum maximum,
         selected t' col select = inr values ∧
         np_min values = inr minimum ∧ np_max values = inr maximum ∧
         stat_at T ("min" +:+ col) index = Some minimum ∧
         stat_at T ("max" +:+ col) index = Some maximum ∧
         (nomed = false →
          stat_at T ("median" +:+ col) index = Some (np_median values))).
Proof.
  intros Hne. destruct (run_cell Hne) as (Tin & Tout & Hcell & Hrow).
  apply fill_cell_row in Hcell as (select & rw & k & Hsel & Hk & _ & Hex).
  exists select, rw, k. split_and!; [exact Hsel|exact Hk|].
  intros Hnum col Hcol.
  apply (holds_extrema_row_eq _ _ _ _ _ _ _ Hrow), Hex; assumption.
Qed.
End Run.
End Cells.

(** ** The covariance table of a run *)

(** After a loop, what each turn establishes and every turn keeps
    holds for all the turns. *)
Lemma foldM_all {A S} (Q : A → S → Prop) (body : S → A → res S)
    (l : list A) (s s' : S) :
  (∀ a s s', a ∈ l → body s a = inr s' → Q a s') →
  (∀ a b s s', b ∈ l → Q a s → body s b = inr s' → Q a s') →
  foldM body s l = inr s' → ∀ a, a ∈ l → Q a s'.
Proof.
  revert s s'.
  induction l as [|b l IH] using rev_ind; intros s s' Hest Hkeep Hf a Hin.
  - inversion Hin.
  - rewrite foldM_app in Hf. bind_inv Hf as s1 H1. simpl in Hf.
    bind_inv Hf as s2 H2. injection Hf as <-.
    apply elem_of_app in Hin as [Hin|Hin].
    + eapply Hkeep; [|eapply (IH s s1); [| |exact H1|exact Hin]|exact H2].
      * apply elem_of_app. right. left.
      * intros a' t1 t1' Ha'. apply Hest, elem_of_app. left. exact Ha'.
      * intros a' b' t1 t1' Hb'. apply Hkeep, elem_of_app. left. exact Hb'.
    + apply list_elem_of_singleton in Hin as ->.
      eapply Hest; [|exact H2]. apply elem_of_app. right. left.
Qed.



Section CovarianceShape.
Context {F : Type} `{Arith F}.

Lemma accumulate_room (nbins_k : nat) (st st' : CovArrays F) (a b : Z)
    (p : F) :
  accumulate nbins_k st a b p = inr st' →
  cov_room nbins_k st → cov_room nbins_k st'.
Proof.
  intros Ha (Hc & Hn & Hz & Hi). unfold accumulate in Ha.
  bind_inv Ha as i Hi1. bind_inv Ha as c Hc1. bind_inv Ha as cov' Hcov.
  bind_inv Ha as i' Hi2. bind_inv Ha as m Hm. bind_inv Ha as n' Hn'.
  injection Ha as <-.
  apply py_set_inr in Hcov as [_ ->], Hn' as [_ ->].
  unfold cov_room. simpl. rewrite !length_insert. auto.
Qed.

Lemma sample_loop_room (nbins_k : nat) (selected : list (Z * F))
    (st st' : CovArrays F) :
  sample_loop nbins_k selected st = inr st' →
  cov_room nbins_k st → cov_room nbins_k st'.
Proof.
  revert st. induction selected as [|[a pk] rest IH]; intros st Hs Hst;
    cbn [sample_loop] in Hs.
  - injection Hs as <-. exact Hst.
  - bind_inv Hs as st1 H1. eapply IH; [exact Hs|].
    destruct (a =? -1); [injection H1 as <-; exact Hst|].
    unfold pair_loop in H1.
    eapply (foldM_invariant (cov_room nbins_k)); [|exact Hst|exact H1].
    intros s [b pk2] s' _ Hs' Hb.
    destruct (b =? -1); [injection Hb as <-; exact Hs'|].
    eapply accumulate_room; eassumption.
Qed.

Lemma first_loop_room (t : P1DTable F) (k_index : list Z) (nbins_k : nat)
    (select_z : list bool) (ids : list string) (st st' : CovArrays F) :
  first_loop t k_index nbins_k select_z ids st = inr st' →
  cov_room nbins_k st → cov_room nbins_k st'.
Proof.
  intros Hf Hst. unfold first_loop in Hf.
  eapply (foldM_invariant (cov_room nbins_k)); [|exact Hst|exact Hf].
  intros s sub_id s' _ Hs Hb. bind_inv Hb as g Hg.
  eapply sample_loop_room; eassumption.
Qed.

Section SecondLoop.
Variables (T : MeanTable F) (zbin_centers : list F) (nbins_k izbin : nat).
Variable c : F.
Hypothesis Hc : zbin_centers !! izbin = Some c.

(** The entry [p] carries the centre and the index of the redshift
    bin. *)
Definition identified (st : CovArrays F) (p : nat) : Prop :=
  zbin_array st !! p = Some c ∧
  index_zbin_array st !! p = Some (Z.of_nat izbin).

Lemma normalise_ids (a b : nat) (ma : F) (st st' : CovArrays F) :
  normalise T zbin_centers nbins_k izbin a ma st b = inr st' →
  (cov_room nbins_k st → cov_room nbins_k st') ∧
  identified st' (cell nbins_k a b) ∧ identified st' (cell nbins_k b a) ∧
  ∀ p, identified st p → identified st' p.
Proof.
  intros Hn. unfold normalise in Hn.
  bind_inv Hn as mb Hmb. bind_inv Hn as c0 Hc0. bind_inv Hn as n Hn0.
  bind_inv Hn as cov Hcov. bind_inv Hn as zc Hzc.
  apply py_get_inr in Hzc. rewrite Hc in Hzc. injection Hzc as <-.
  bind_inv Hn as zb Hzb. bind_inv Hn as ib Hib.
  apply py_set_inr in Hcov as [Hl1 ->], Hzb as [Hl2 ->], Hib as [Hl3 ->].
  fold (cell nbins_k a b) in *.
  destruct (b =? a)%nat eqn:Eba.
  - apply Nat.eqb_eq in Eba as ->. injection Hn as <-.
    unfold identified, cov_room. simpl. rewrite !length_insert.
    split_and!; try tauto;
      try (apply list_lookup_insert_eq; assumption).
    intros p [Hp1 Hp2].
    destruct (decide (p = cell nbins_k a a)) as [->|Hne].
    + split; apply list_lookup_insert_eq; assumption.
    + rewrite !list_lookup_insert_ne by auto. auto.
  - bind_inv Hn as v Hv. bind_inv Hn as cov2 Hcov2.
    bind_inv Hn as n2 Hn2. bind_inv Hn as na Hna.
    bind_inv Hn as zc2 Hzc2. apply py_get_inr in Hzc2.
    rewrite Hc in Hzc2. injection Hzc2 as <-.
    bind_inv Hn as zb2 Hzb2. bind_inv Hn as ib2 Hib2. injection Hn as <-.
    apply py_set_inr in Hcov2 as [Hl4 ->], Hna as [Hl5 ->],
      Hzb2 as [Hl6 ->], Hib2 as [Hl7 ->].
    fold (cell nbins_k b a) in *. rewrite length_insert in Hl4. rewrite length_insert in Hl6.
    rewrite length_insert in Hl7.
    unfold identified, cov_room. simpl. rewrite !length_insert.
    split_and!; try tauto.
    + destruct (decide (cell nbins_k a b = cell nbins_k b a)) as [<-|Hne].
      * apply list_lookup_insert_eq. rewrite length_insert. assumption.
      * rewrite list_lookup_insert_ne by auto.
        apply list_lookup_insert_eq. assumption.
    + destruct (decide (cell nbins_k a b = cell nbins_k b a)) as [<-|Hne].
      * apply list_lookup_insert_eq. rewrite length_insert. assumption.
      * rewrite list_lookup_insert_ne by auto.
        apply list_lookup_insert_eq. assumption.
    + apply list_lookup_insert_eq. rewrite length_insert. assumption.
    + apply list_lookup_insert_eq. rewrite length_insert. assumption.
    + intros p [Hp1 Hp2]. split.
      * destruct (decide (p = cell nbins_k b a)) as [->|Hne1].
        -- apply list_lookup_insert_eq. rewrite length_insert. assumption.
        -- rewrite list_lookup_insert_ne by auto.
           destruct (decide (p = cell nbins_k a b)) as [->|Hne2].
           ++ apply list_lookup_insert_eq. assumption.
           ++ rewrite list_lookup_insert_ne by auto. exact Hp1.
      * destruct (decide (p = cell nbins_k b a)) as [->|Hne1].
        -- apply list_lookup_insert_eq. rewrite length_insert. assumption.
        -- rewrite list_lookup_insert_ne by auto.
           destruct (decide (p = cell nbins_k a b)) as [->|Hne2].
           ++ apply list_lookup_insert_eq. assumption.
           ++ rewrite list_lookup_insert_ne by auto. exact Hp2.
Qed.

Lemma second_loop_ids (st st' : CovArrays F) :
  second_loop T zbin_centers nbins_k izbin st = inr st' →
  (cov_room nbins_k st → cov_room nbins_k st') ∧
  ∀ p, (p < nbins_k * nbins_k)%nat → identified st' p.
Proof.
  intros Hs. unfold second_loop in Hs. split.
  - intros Hst.
    eapply (foldM_invariant (cov_room nbins_k)); [|exact Hst|exact Hs].
    intros s a s' _ Hroom Hb. bind_inv Hb as ma Hma.
    eapply (foldM_invariant (cov_room nbins_k)); [|exact Hroom|exact Hb].
    intros s1 b s1' _ Hroom1 Hb1.
    apply normalise_ids in Hb1 as (Hr & _). auto.
  - assert (Hall : ∀ a, a ∈ seq 0 nbins_k →
               ∀ b, (a ≤ b < nbins_k)%nat →
                    identified st' (cell nbins_k a b) ∧
                    identified st' (cell nbins_k b a)).
    { eapply (foldM_all
                (fun a st' => ∀ b, (a ≤ b < nbins_k)%nat →
                    identified st' (cell nbins_k a b) ∧
                    identified st' (cell nbins_k b a))); [| |exact Hs].
      - intros a s s' _ Hb b Hab. bind_inv Hb as ma Hma.
        eapply (foldM_all
                  (fun b st' => identified st' (cell nbins_k a b) ∧
                                identified st' (cell nbins_k b a)));
          [| |exact Hb|apply elem_of_seq; lia].
        + intros b' t1 t1' _ Hn. apply normalise_ids in Hn as (_ & ? & ? & _).
          auto.
        + intros a' b' t1 t1' _ [Q1 Q2] Hn.
          apply normalise_ids in Hn as (_ & _ & _ & Hk). auto.
      - intros a b s s' _ HQ Hb x Hx. bind_inv Hb as mb Hmb.
        specialize (HQ x Hx).
        eapply (foldM_invariant
                  (fun st' => identified st' (cell nbins_k a x) ∧
                              identified st' (cell nbins_k x a)));
          [|exact HQ|exact Hb].
        intros t1 y t1' _ [Q1 Q2] Hn.
        apply normalise_ids in Hn as (_ & _ & _ & Hk). auto. }
    intros p Hp.
    assert (Hnk : (0 < nbins_k)%nat) by nia.
    pose proof (Nat.div_mod_eq p nbins_k) as Hdm.
    pose proof (Nat.mod_upper_bound p nbins_k ltac:(lia)) as Hm.
    assert (Hd : (p / nbins_k < nbins_k)%nat)
      by (apply Nat.Div0.div_lt_upper_bound; lia).
    replace p with (cell nbins_k (p / nbins_k) (p mod nbins_k))
      by (unfold cell; lia).
    destruct (decide (p / nbins_k ≤ p mod nbins_k)%nat) as [Hle|Hgt].
    + apply (Hall (p / nbins_k)%nat); [apply elem_of_seq; lia|lia].
    + apply (Hall (p mod nbins_k)%nat); [apply elem_of_seq; lia|lia].
Qed.
End SecondLoop.

(** The four arrays [compute_cov] returns have one entry for each
    pair of k bins, and every entry carries the centre and the index
    of the redshift bin. *)
Lemma compute_cov_ids (t : P1DTable F) (T : MeanTable F) (zc : list F)
    (n_chunks k_index : list Z) (nbins_k izbin : nat) (select_z : list bool)
    (ids : list string) (out : CovArrays F) :
  compute_cov t T zc n_chunks k_index nbins_k izbin select_z ids = inr out →
  cov_room nbins_k out ∧
  ∀ p, (p < nbins_k * nbins_k)%nat →
       ∃ c, zc !! izbin = Some c ∧ identified izbin c out p.
Proof.
  intros Hc. unfold compute_cov in Hc. bind_inv Hc as n Hn.
  destruct (n =? 0).
  - bind_inv Hc as c Hzc. injection Hc as <-. apply py_get_inr in Hzc.
    split; [unfold cov_room; simpl; rewrite !length_replicate; auto|].
    intros p Hp. exists c. split; [exact Hzc|]. unfold identified. simpl.
    split; apply lookup_replicate_2; exact Hp.
  - bind_inv Hc as st Hst.
    apply first_loop_room in Hst;
      [|unfold cov_room; simpl; rewrite !length_replicate; auto].
    destruct (zc !! izbin) as [c|] eqn:Ezc.
    + destruct (second_loop_ids T zc nbins_k izbin c Ezc _ _ Hc) as [Hr Hid].
      split; [auto|]. intros p Hp. exists c. auto.
    + split.
      * unfold second_loop in Hc.
        eapply (foldM_invariant (cov_room nbins_k)); [|exact Hst|exact Hc].
        intros s a s' _ Hroom Hb. bind_inv Hb as ma Hma.
        eapply (foldM_invariant (cov_room nbins_k)); [|exact Hroom|exact Hb].
        intros s1 b s1' _ Hroom1 Hb1. unfold normalise in Hb1.
        do 4 bind_inv Hb1. bind_inv Hb1 as zc0 Hzc0.
        apply py_get_inr in Hzc0. congruence.
      * intros p Hp. exfalso.
        destruct nbins_k as [|m]; [lia|].
        unfold second_loop in Hc. cbn [seq foldM] in Hc.
        bind_inv Hc as s1 H1. bind_inv H1 as ma Hma.
        rewrite Nat.sub_0_r in H1. cbn [seq foldM] in H1.
        bind_inv H1 as s2 H2. unfold normalise in H2.
        do 4 bind_inv H2. bind_inv H2 as zc0 Hzc0.
        apply py_get_inr in Hzc0. congruence.
Qed.
End CovarianceShape.

Lemma foldM_ext {A S} (body body' : S → A → res S) (l : list A) (s : S) :
  (∀ s a, body s a = body' s a) → foldM body s l = foldM body' s l.
Proof.
  intros Hb. revert s. induction l as [|a l IH]; intros s; simpl;
    [reflexivity|].
  rewrite Hb. destruct (body' s a); simpl; [reflexivity|apply IH].
Qed.

Section CovarianceTable.
Context {F : Type} `{Arith F} `{Env F}.



End CovarianceTable.

(** ** The covariance of a run on one worker *)

Lemma foldM_collect_map {A B C} (f : A → res B) (g : B → C) (l : list A)
    (acc : list B) :
  foldM (fun out x => let* o := f x in ret (out ++ [g o])) (map g acc) l
  = let* r := foldM (fun out x => let* o := f x in ret (out ++ [o])) acc l in
    ret (map g r).
Proof.
  revert acc. induction l as [|x l IH]; intros acc; simpl; [reflexivity|].
  destruct (f x) as [e|o]; simpl; [reflexivity|].
  rewrite <- IH, map_app. reflexivity.
Qed.

Lemma foldM_map {A B S} (body : S → B → res S) (g : A → B) (l : list A)
    (s : S) :
  foldM body s (map g l) = foldM (fun s x => body s (g x)) s l.
Proof.
  revert s. induction l as [|x l IH]; intros s; simpl; [reflexivity|].
  destruct (body s (g x)); simpl; [reflexivity|apply IH].
Qed.

Section OneWorkerFacts.
Context {F : Type} `{Arith F}.

Lemma params_pool_returns (t : P1DTable F) (ze fz : list F)
    (ids : list string) (l : list nat)
    (acc : list (nat * list bool * list string)) :
  col_get t "forest_z" = inr fz → sub_forest_id t = Some ids →
  length ids = length fz →
  (∀ izbin, izbin ∈ l → (izbin + 1 < length ze)%nat) →
  ∃ pool,
    foldM (fun pool izbin =>
             let* forest_z := col_get t "forest_z" in
             let* zhi := py_get ze (izbin + 1) in
             let* zlo := py_get ze izbin in
             let select_z := and_arr (lt_arr forest_z zhi) (gt_arr forest_z zlo) in
             let* ids :=
               match sub_forest_id t with
               | Some ids => ret ids
               | None => raise KeyError
               end in
             let* ids_z := np_mask ids select_z in
             ret (pool ++ [(izbin, select_z, np_unique ids_z)]))
          acc l = inr pool ∧
    length pool = (length acc + length l)%nat.
Proof.
  intros Hfz Hids Hlen.
  set (body := fun (pool : list (nat * list bool * list string)) izbin => _).
  assert (Hstep : ∀ a izbin, (izbin + 1 < length ze)%nat →
                    ∃ p, body a izbin = inr (a ++ [p])).
  { intros a izbin Hi. unfold body. rewrite Hfz, Hids. cbn [bind ret].
    destruct (py_get_lt ze (izbin + 1)) as (zhi & -> & _); [exact Hi|].
    destruct (py_get_lt ze izbin) as (zlo & -> & _); [lia|].
    cbn [bind ret]. unfold np_mask.
    rewrite length_and_arr. unfold lt_arr, gt_arr. rewrite !length_map.
    destruct (decide (length ids = (length fz `min` length fz)%nat));
      [|lia].
    cbn [bind ret]. eexists. reflexivity. }
  clearbody body. revert acc.
  induction l as [|izbin l IH]; intros acc Hl; simpl.
  - exists acc. split; [reflexivity|lia].
  - destruct (Hstep acc izbin) as (p & ->); [apply Hl; left|].
    cbn [bind].
    destruct (IH (acc ++ [p])) as (pool & Hpool & Hlp).
    + intros i Hi. apply Hl. right. exact Hi.
    + exists pool. split; [exact Hpool|].
      rewrite Hlp, length_app. simpl. lia.
Qed.

(** An entry of [params_pool], as the list the program builds. *)
Definition entry (p : nat * list bool * list string) : pyval :=
  PyList [PyInt p.1.1; PyMask p.1.2; PyIds p.2].

(** The entries of [params_pool] are the parameters of the redshift
    bins, one list each. *)
Lemma params_pool_entries (t : P1DTable F) (ze : list F) (l : list nat) :
  foldM (fun pool izbin =>
           let* forest_z := col_get t "forest_z" in
           let* zhi := py_get ze (izbin + 1) in
           let* zlo := py_get ze izbin in
           let select_z := and_arr (lt_arr forest_z zhi) (gt_arr forest_z zlo) in
           let* ids :=
             match sub_forest_id t with
             | Some ids => ret ids
             | None => raise KeyError
             end in
           let* ids_z := np_mask ids select_z in
           ret (pool ++ [PyList [PyInt izbin; PyMask select_z;
                                 PyIds (np_unique ids_z)]]))
        [] l
  = let* r :=
      foldM (fun pool izbin =>
               let* forest_z := col_get t "forest_z" in
               let* zhi := py_get ze (izbin + 1) in
               let* zlo := py_get ze izbin in
               let select_z :=
                 and_arr (lt_arr forest_z zhi) (gt_arr forest_z zlo) in
               let* ids :=
                 match sub_forest_id t with
                 | Some ids => ret ids
                 | None => raise KeyError
                 end in
               let* ids_z := np_mask ids select_z in
               ret (pool ++ [(izbin, select_z, np_unique ids_z)]))
            [] l in
    ret (map entry r).
Proof.
  set (params := fun izbin : nat =>
         let* forest_z := col_get t "forest_z" in
         let* zhi := py_get ze (izbin + 1) in
         let* zlo := py_get ze izbin in
         let select_z := and_arr (lt_arr forest_z zhi) (gt_arr forest_z zlo) in
         let* ids :=
           match sub_forest_id t with
           | Some ids => ret ids
           | None => raise KeyError
           end in
         let* ids_z := np_mask ids select_z in
         ret (izbin, select_z, np_unique ids_z)).
  match goal with
  | |- foldM ?b1 _ _ = bind (foldM ?b2 _ _) _ =>
      set (B1 := b1); set (B2 := b2)
  end.
  rewrite (foldM_ext B1 (fun pool izbin =>
             let* o := params izbin in ret (pool ++ [entry o]))).
  2:{ intros s a. unfold B1, params.
      destruct (col_get t "forest_z"); [reflexivity|]. cbn [bind].
      destruct (py_get ze (a + 1)); [reflexivity|]. cbn [bind].
      destruct (py_get ze a); [reflexivity|]. cbn [bind].
      destruct (sub_forest_id t); [|reflexivity]. cbn [bind ret].
      destruct (np_mask _ _); reflexivity. }
  rewrite (foldM_ext B2 (fun pool izbin =>
             let* o := params izbin in ret (pool ++ [o]))).
  2:{ intros s a. unfold B2, params.
      destruct (col_get t "forest_z"); [reflexivity|]. cbn [bind].
      destruct (py_get ze (a + 1)); [reflexivity|]. cbn [bind].
      destruct (py_get ze a); [reflexivity|]. cbn [bind].
      destruct (sub_forest_id t); [|reflexivity]. cbn [bind ret].
      destruct (np_mask _ _); reflexivity. }
  apply (foldM_collect_map params entry l []).
Qed.

(** With more than one worker the calls are those of
    [covariance_loop]. *)
Lemma covariance_loop_starmap (number_worker : Z) (t : P1DTable F)
    (T : MeanTable F) (zc ze : list F) (n_chunks k_index : list Z)
    (nbins_z nbins_k : nat) (ct : CovTable F) :
  1 < number_worker →
  covariance_loop_workers number_worker t T zc ze n_chunks k_index nbins_z
                          nbins_k ct
  = covariance_loop t T zc ze n_chunks k_index nbins_z nbins_k ct.
Proof.
  intros Hnw. unfold covariance_loop_workers, covariance_loop.
  rewrite params_pool_entries.
  destruct (foldM _ [] (seq 0 nbins_z)) as [e|pool]; [reflexivity|].
  cbn [bind ret].
  assert ((number_worker =? 1) = false) as -> by (apply Z.eqb_neq; lia).
  assert ((number_worker <? 1) = false) as -> by (apply Z.ltb_ge; lia).
  rewrite foldM_map.
  rewrite (foldM_ext _ (fun out '(izbin, select_z, sub_forest_ids) =>
             let* o := compute_cov t T zc n_chunks k_index nbins_k izbin
                                   select_z sub_forest_ids in
             ret (out ++ [o])))
    by (intros s [[a b] c]; reflexivity).
  reflexivity.
Qed.

(** X9: with [number_worker == 1] the covariance is not computed: the
    comprehension hands every entry of [params_pool] to [func] as one
    argument, and as soon as there is a redshift bin the first call
    raises [TypeError], two arguments of [compute_cov] missing; with
    more workers [pool.starmap] unpacks the entries and the calls are
    those of [covariance_loop]. *)
Theorem one_worker_covariance_raises (t : P1DTable F) (T : MeanTable F)
    (zc ze fz : list F) (ids : list string) (n_chunks k_index : list Z)
    (nbins_z nbins_k : nat) (ct : CovTable F) :
  col_get t "forest_z" = inr fz → sub_forest_id t = Some ids →
  length ids = length fz →
  (0 < nbins_z)%nat → (nbins_z < length ze)%nat →
  covariance_loop_workers 1 t T zc ze n_chunks k_index nbins_z nbins_k ct
  = inl TypeError ∧
  ∀ number_worker, 1 < number_worker →
    covariance_loop_workers number_worker t T zc ze n_chunks k_index nbins_z
                            nbins_k ct
    = covariance_loop t T zc ze n_chunks k_index nbins_z nbins_k ct.
Proof.
  intros Hfz Hids Hlen Hpos Hze.
  split; [|intros nw Hnw; apply covariance_loop_starmap, Hnw].
  unfold covariance_loop_workers. rewrite params_pool_entries.
  assert (Hin : ∀ izbin, izbin ∈ seq 0 nbins_z → (izbin + 1 < length ze)%nat)
    by (intros i Hi%elem_of_seq; lia).
  destruct (params_pool_returns t ze fz ids (seq 0 nbins_z) [] Hfz Hids Hlen
              Hin) as (pool & Hpool & Hlp).
  cbv zeta in Hpool. cbv zeta. rewrite Hpool. cbn [bind ret].
  rewrite length_seq in Hlp.
  simpl in Hlp.
  destruct pool as [|p pool]; [simpl in Hlp; lia|]. reflexivity.
Qed.
End OneWorkerFacts.

(** ** A run without weights returns *)

Lemma set_block_returns {A} (a : list A) (lo : nat) (vs : list A) :
  (lo + length vs ≤ length a)%nat →
  ∃ a', set_block a lo vs = inr a' ∧ length a' = length a.
Proof.
  intros Hle. unfold set_block.
  destruct (decide (lo + length vs ≤ length a)%nat); [|lia].
  eexists. split; [reflexivity|].
  rewrite !length_app, length_take, length_drop. lia.
Qed.

Lemma foldM_collect_returns {A B} (Q : B → Prop) (f : A → res B)
    (l : list A) (acc : list B) :
  Forall (fun x => ∃ o, f x = inr o ∧ Q o) l → Forall Q acc →
  ∃ out, foldM (fun out x => let* o := f x in ret (out ++ [o])) acc l
         = inr out ∧
         length out = (length acc + length l)%nat ∧ Forall Q out.
Proof.
  revert acc. induction l as [|x l IH]; intros acc Hl Hacc; simpl.
  - exists acc. split_and!; [reflexivity|lia|exact Hacc].
  - apply Forall_cons in Hl as [(o & -> & Ho) Hl]. cbn [bind ret].
    destruct (IH (acc ++ [o]) Hl) as (out & -> & Hlen & Hout).
    + apply Forall_app. split; [exact Hacc|]. constructor; [exact Ho|constructor].
    + exists out. split_and!; [reflexivity| |exact Hout].
      rewrite Hlen, length_app. simpl. lia.
Qed.

Section RunReturns.
Context {F : Type} `{Arith F} `{Env F}.

Lemma covariance_loop_returns (t : P1DTable F) (T : MeanTable F)
    (zc ze fz : list F) (ids : list string) (n_chunks k_index : list Z)
    (nbins_z nbins_k : nat) (ct : CovTable F) :
  col_get t "forest_z" = inr fz → sub_forest_id t = Some ids →
  length ids = length fz → (nbins_z < length ze)%nat →
  (∀ izbin select_z sub_ids,
     (izbin < nbins_z)%nat → length select_z = length fz →
     returns (compute_cov t T zc n_chunks k_index nbins_k izbin select_z
                          sub_ids)) →
  length (cov_zbin ct) = (nbins_z * nbins_k * nbins_k)%nat →
  length (cov_index_zbin ct) = (nbins_z * nbins_k * nbins_k)%nat →
  length (cov_N ct) = (nbins_z * nbins_k * nbins_k)%nat →
  length (covariance ct) = (nbins_z * nbins_k * nbins_k)%nat →
  returns (covariance_loop t T zc ze n_chunks k_index nbins_z nbins_k ct).
Proof.
  intros Hfz Hids Hlen Hze Hcov L1 L2 L3 L4. unfold covariance_loop.
  (* the parameters *)
  set (params := fun izbin : nat =>
         let* forest_z := col_get t "forest_z" in
         let* zhi := py_get ze (izbin + 1) in
         let* zlo := py_get ze izbin in
         let select_z := and_arr (lt_arr forest_z zhi) (gt_arr forest_z zlo) in
         let* ids :=
           match sub_forest_id t with
           | Some ids => ret ids
           | None => raise KeyError
           end in
         let* ids_z := np_mask ids select_z in
         ret (izbin, select_z, np_unique ids_z)).
  rewrite (foldM_ext _ (fun pool izbin =>
                          let* o := params izbin in ret (pool ++ [o]))).
  2:{ intros s a. unfold params.
      destruct (col_get t "forest_z"); [reflexivity|]. cbn [bind].
      destruct (py_get ze (a + 1)); [reflexivity|]. cbn [bind].
      destruct (py_get ze a); [reflexivity|]. cbn [bind].
      destruct (sub_forest_id t); [|reflexivity]. cbn [bind ret].
      destruct (np_mask _ _); reflexivity. }
  destruct (foldM_collect_returns
              (fun p : nat * list bool * list string =>
                 (p.1.1 < nbins_z)%nat ∧ length p.1.2 = length fz)
              params (seq 0 nbins_z) []) as (pool & -> & Hlp & Hpool);
    [|constructor|].
  { apply Forall_forall. intros izbin Hiz%elem_of_seq. unfold params.
    rewrite Hfz, Hids. cbn [bind ret].
    destruct (py_get_lt ze (izbin + 1)) as (zhi & -> & _); [lia|].
    destruct (py_get_lt ze izbin) as (zlo & -> & _); [lia|].
    cbn [bind ret]. unfold np_mask.
    assert (Hsel : length (and_arr (lt_arr fz zhi) (gt_arr fz zlo))
                   = length fz).
    { rewrite length_and_arr. unfold lt_arr, gt_arr. rewrite !length_map.
      lia. }
    rewrite Hsel.
    destruct (decide (length ids = length fz)); [|contradiction].
    cbn [bind ret]. eexists. split; [reflexivity|]. simpl.
    split; [lia|exact Hsel]. }
  cbn [bind]. simpl in Hlp. rewrite length_seq in Hlp.
  (* the covariance of every redshift bin *)
  set (cov := fun x : nat * list bool * list string =>
         compute_cov t T zc n_chunks k_index nbins_k x.1.1 x.1.2 x.2).
  rewrite (foldM_ext _ (fun out x => let* o := cov x in ret (out ++ [o])))
    by (intros s [[a b] c]; reflexivity).
  destruct (foldM_collect_returns (cov_room nbins_k) cov pool [])
    as (outs & -> & Hlo & Houts); [|constructor|].
  { eapply Forall_impl; [exact Hpool|]. intros [[izbin select_z] sub_ids].
    simpl. intros [Hiz Hsel].
    destruct (Hcov izbin select_z sub_ids Hiz Hsel) as [o Ho].
    exists o. split; [exact Ho|].
    apply compute_cov_ids in Ho as [Hroom _]. exact Hroom. }
  cbn [bind]. simpl in Hlo. rewrite Hlp in Hlo.
  (* the blocks of the table *)
  destruct (foldM_returns
              (fun ct : CovTable F =>
                 length (cov_zbin ct) = (nbins_z * nbins_k * nbins_k)%nat ∧
                 length (cov_index_zbin ct) = (nbins_z * nbins_k * nbins_k)%nat ∧
                 length (cov_N ct) = (nbins_z * nbins_k * nbins_k)%nat ∧
                 length (covariance ct) = (nbins_z * nbins_k * nbins_k)%nat)
              (fun ct izbin =>
                 let* o := py_get outs izbin in
                 let i_min := (izbin * nbins_k * nbins_k)%nat in
                 let* zb := set_block (cov_zbin ct) i_min (zbin_array o) in
                 let* ib := set_block (cov_index_zbin ct) i_min
                                      (index_zbin_array o) in
                 let* na := set_block (cov_N ct) i_min (n_array o) in
                 let* cv := set_block (covariance ct) i_min
                                      (covariance_array o) in
                 ret {| cov_zbin := zb; cov_index_zbin := ib; cov_N := na;
                        covariance := cv |})
              (seq 0 nbins_z) ct) as (ct' & Hct' & _).
  - auto.
  - intros s izbin Hiz%elem_of_seq (M1 & M2 & M3 & M4).
    destruct (py_get_lt outs izbin) as (o & -> & Ho); [lia|].
    cbn [bind].
    pose proof (proj1 (Forall_lookup _ _) Houts _ _ Ho) as (R4 & R3 & R1 & R2).
    assert (Hb : (izbin * nbins_k * nbins_k + nbins_k * nbins_k
                  ≤ nbins_z * nbins_k * nbins_k)%nat) by nia.
    destruct (set_block_returns (cov_zbin s) (izbin * nbins_k * nbins_k)
                (zbin_array o)) as (zb & -> & Hzb); [rewrite R1, M1; exact Hb|].
    destruct (set_block_returns (cov_index_zbin s) (izbin * nbins_k * nbins_k)
                (index_zbin_array o)) as (ib & -> & Hib);
      [rewrite R2, M2; exact Hb|].
    destruct (set_block_returns (cov_N s) (izbin * nbins_k * nbins_k)
                (n_array o)) as (na & -> & Hna); [rewrite R3, M3; exact Hb|].
    destruct (set_block_returns (covariance s) (izbin * nbins_k * nbins_k)
                (covariance_array o)) as (cv & -> & Hcv);
      [rewrite R4, M4; exact Hb|].
    cbn [bind ret]. eexists. split; [reflexivity|]. simpl.
    rewrite Hzb, Hib, Hna, Hcv. auto.
  - exists ct'. exact Hct'.
Qed.

Lemma aggregate_unweighted_returns (t : P1DTable F) (ze ke fz k : list F)
    (nomedians : bool) (n_chunks : list Z) :
  col_get t "forest_z" = inr fz → col_get t "k" = inr k →
  (∀ name c, alist_get (cols t) name = Some c → length c = length k) →
  length n_chunks = (length ze - 1)%nat →
  let nbins_z := (length ze - 1)%nat in
  let nbins_k := (length ke - 1)%nat in
  ∃ T, aggregate t (colnames_stats t)
         (init_mean_table (nbins_z * nbins_k) (stats_array_of nomedians)
                          (colnames_stats t))
         "no_weights" false nomedians nbins_z (zbin_centers_of ze) ze
         n_chunks nbins_k ke = inr T ∧
       table_ready T (colnames_stats t) nomedians (nbins_z * nbins_k).
Proof.
  intros Hfz Hk Hlen Hn nbins_z nbins_k.
  unfold aggregate. rewrite length_removelast. fold nbins_z.
  apply foldM_returns; [apply init_mean_table_ready|].
  intros T izbin Hiz%elem_of_seq HT.
  assert (Hlast : (nbins_k * izbin + length (removelast ke)
                   ≤ nbins_z * nbins_k)%nat)
    by (rewrite length_removelast; fold nbins_k; nia).
  destruct (fill_average_unweighted_returns t (colnames_stats t) T nomedians
              nbins_z (zbin_centers_of ze) ze n_chunks nbins_k ke fz k izbin
              Hfz Hk) as [T' HT'].
  - intros col Hcol. apply alist_get_elem_of in Hcol as [c Hc].
    exists c. unfold col_get. rewrite Hc. split; [reflexivity|].
    eapply Hlen, Hc.
  - unfold nbins_z in Hiz. lia.
  - apply lookup_lt_is_Some_2. rewrite length_zbin_centers_of.
    fold nbins_z. lia.
  - apply lookup_lt_is_Some_2. rewrite Hn. fold nbins_z. lia.
  - eapply table_ready_le; [exact Hlast|exact HT].
  - exists T'. split; [exact HT'|].
    pose proof HT as (Hz & Hi & _).
    apply fill_average_spec in HT' as (Hsh & _);
      [|apply length_removelast|rewrite length_removelast in Hlast; lia..].
    eapply table_ready_shape; eassumption.
Qed.

Lemma col_get_elem_of (t : P1DTable F) (name : string) (c : list F) :
  col_get t name = inr c → name ∈ colnames_stats t.
Proof.
  unfold col_get, colnames_stats.
  destruct (alist_get (cols t) name) as [c'|] eqn:E; [intros _|discriminate].
  induction (cols t) as [|[m v] l IH]; simpl in *; [discriminate|].
  destruct (String.eqb m name) eqn:Em.
  - apply String.eqb_eq in Em as ->. left.
  - right. apply IH, E.
Qed.

(** X18: without weights and without conversion of units a run never
    raises on a table of samples that has the columns ['forest_z'], ['k']
    and ['Pk'], whose columns and identifiers have one length, for
    edges that are not empty and a count of chunks with one entry for
    each redshift bin, whether the covariance is asked for or not. *)
Theorem run_without_weights_returns (t : P1DTable F)
    (z_array ze ke fz k pk : list F) (nomedians compute_covariance : bool)
    (n_chunks : list Z) :
  col_get t "forest_z" = inr fz → col_get t "k" = inr k →
  col_get t "Pk" = inr pk →
  (∀ name c, alist_get (cols t) name = Some c → length c = length k) →
  (∀ ids, sub_forest_id t = Some ids → length ids = length k) →
  ze ≠ [] → ke ≠ [] →
  binned_statistic_count z_array ze = inr n_chunks →
  length n_chunks = (length ze - 1)%nat →
  returns (compute_mean_pk1d t z_array ze ke "no_weights" false nomedians
                             false compute_covariance).
Proof.
  intros Hfz Hk Hpk Hlen Hids Hze Hke Hcount Hn.
  assert (Hlze : (1 ≤ length ze)%nat) by (destruct ze; [contradiction|simpl; lia]).
  assert (Hlke : (1 ≤ length ke)%nat) by (destruct ke; [contradiction|simpl; lia]).
  set (nbins_z := (length ze - 1)%nat).
  set (nbins_k := (length ke - 1)%nat).
  assert (Lfz : length fz = length k).
  { unfold col_get in Hfz.
    destruct (alist_get (cols t) "forest_z") as [c|] eqn:E; [|discriminate].
    injection Hfz as <-. eapply Hlen, E. }
  assert (Lpk : length pk = length k).
  { unfold col_get in Hpk.
    destruct (alist_get (cols t) "Pk") as [c|] eqn:E; [|discriminate].
    injection Hpk as <-. eapply Hlen, E. }
  destruct (aggregate_unweighted_returns t ze ke fz k nomedians n_chunks
              Hfz Hk Hlen Hn) as (T & HT & Hready).
  fold nbins_z nbins_k in HT, Hready.
  unfold compute_mean_pk1d. cbn [bind ret].
  unfold np_size.
  assert (((Z.of_nat (length ze) - 1) * (Z.of_nat (length ke) - 1) <? 0) = false)
    as -> by (apply Z.ltb_ge; nia).
  cbn [bind ret].
  destruct (py_get_lt ke 0) as (kfirst & -> & _); [lia|]. cbn [bind ret].
  assert ((Z.of_nat (length ze) - 1 <? 0) = false) as -> by (apply Z.ltb_ge; lia).
  cbn [bind ret].
  destruct (py_get_lt ke (length ke - 1)) as (klast & -> & _); [lia|].
  cbn [bind ret].
  assert (((Z.of_nat (length ze) - 1) * (Z.of_nat (length ke) - 1)
           * (Z.of_nat (length ke) - 1) <? 0) = false)
    as -> by (apply Z.ltb_ge; repeat apply Z.mul_nonneg_nonneg; lia).
  replace (Z.to_nat ((Z.of_nat (length ze) - 1) * (Z.of_nat (length ke) - 1)
                     * (Z.of_nat (length ke) - 1)))
    with (nbins_z * nbins_k * nbins_k)%nat
    by (unfold nbins_z, nbins_k;
        rewrite !Z2Nat.inj_mul by (try apply Z.mul_nonneg_nonneg; lia); lia).
  replace (Z.to_nat ((Z.of_nat (length ze) - 1) * (Z.of_nat (length ke) - 1)))
    with (nbins_z * nbins_k)%nat by (unfold nbins_z, nbins_k; nia).
  replace (Z.to_nat (Z.of_nat (length ze) - 1)) with nbins_z
    by (unfold nbins_z; lia).
  replace (Z.to_nat (Z.of_nat (length ke) - 1)) with nbins_k
    by (unfold nbins_k; lia).
  assert (Hnone :
    returns (let* n_chunks := binned_statistic_count z_array ze in
             let* mean_p1d_table :=
               aggregate t (colnames_stats t)
                 (init_mean_table (nbins_z * nbins_k)
                    (stats_array_of nomedians) (colnames_stats t))
                 "no_weights" false nomedians nbins_z (zbin_centers_of ze) ze
                 n_chunks nbins_k ke in
             let* cov_table := (ret None : res (option (CovTable F))) in
             ret {| out_p1d_table := t;
                    out_mean_p1d_table := mean_p1d_table;
                    out_metadata_table :=
                      {| z_min := removelast ze; z_max := tail ze;
                         k_min := replicate nbins_z kfirst;
                         k_max := replicate nbins_z klast;
                         N_chunks := n_chunks |};
                    out_cov_table := cov_table |})).
  { rewrite Hcount. cbn [bind]. rewrite HT. cbn [bind ret]. eexists.
    reflexivity. }
  destruct compute_covariance; [|exact Hnone].
  destruct (sub_forest_id t) as [ids|] eqn:Eids; [|exact Hnone].
  specialize (Hids ids eq_refl).
  simpl negb. cbv iota.
  cbn [bind ret]. rewrite Hk. cbn [bind ret].
  destruct (compute_k_index_returns k ke) as (k_index & -> & Lki & Hvalid).
  cbn [bind ret]. rewrite Hcount. cbn [bind]. rewrite HT. cbn [bind].
  destruct (covariance_loop_returns t T (zbin_centers_of ze) ze fz ids
              n_chunks k_index nbins_z nbins_k
              {| cov_zbin := replicate (nbins_z * nbins_k * nbins_k) (of_Z 0);
                 cov_index_zbin := replicate (nbins_z * nbins_k * nbins_k) 0;
                 cov_N := replicate (nbins_z * nbins_k * nbins_k) 0;
                 covariance := replicate (nbins_z * nbins_k * nbins_k) (of_Z 0) |})
    as (ct & ->); try (simpl; apply length_replicate);
    [exact Hfz|exact Eids|lia|unfold nbins_z; lia| |].
  - intros izbin select_z sub_ids Hiz Hsel.
    apply (compute_cov_returns t T (zbin_centers_of ze) n_chunks k_index
             nbins_k izbin select_z sub_ids ids pk); try assumption; try lia.
    + apply lookup_lt_is_Some_2. rewrite Hn. fold nbins_z. lia.
    + apply lookup_lt_is_Some_2. rewrite length_zbin_centers_of.
      fold nbins_z. lia.
    + intros j Hj. destruct Hready as (_ & _ & _ & Hroom).
      destruct (Hroom "Pk" "mean" (nbins_k * izbin + j)%nat)
        as (c & Hc & Hlt).
      * eapply col_get_elem_of, Hpk.
      * unfold stats_array_of. set_solver.
      * nia.
      * unfold stat_get. change ("mean" +:+ "Pk") with "meanPk" in Hc.
        rewrite Hc. destruct (py_get_lt c _ Hlt) as (x & -> & _).
        eexists. reflexivity.
  - cbn [bind ret]. eexists. reflexivity.
Qed.
End RunReturns.

(** ** The chunks the reader keeps *)

Lemma take_indices_where {A} (a : list A) (m : list bool) (i : nat) :
  (i + length m ≤ length a)%nat →
  take_indices a (np_where_from i m) = inr (mask (drop i a) m).
Proof.
  revert i. induction m as [|b m IH]; intros i Hlen; simpl in *.
  - destruct (drop i a); reflexivity.
  - destruct (lookup_lt_is_Some_2 a i) as [x Hx]; [lia|].
    rewrite (drop_S _ _ _ Hx).
    destruct b; simpl.
    + apply py_get_inr in Hx. rewrite Hx. cbn [bind].
      rewrite IH by lia. reflexivity.
    + apply IH. lia.
Qed.

Lemma existsb_masked {A B} (f : A → B → bool) (a : list A) (b : list B)
    (m : list bool) :
  existsb (fun x : bool => x) (zip_with f (mask a m) (mask b m)) = true ↔
  ∃ r x y, m !! r = Some true ∧ a !! r = Some x ∧ b !! r = Some y ∧
           f x y = true.
Proof.
  revert a b. induction m as [|c m IH]; intros a b.
  - assert (mask a [] = []) as -> by (destruct a; reflexivity).
    simpl. split; [discriminate|].
    intros (r & x & y & Hm & _). rewrite lookup_nil in Hm. discriminate.
  - destruct a as [|x a].
    { simpl. split; [discriminate|].
      intros (r & x & y & _ & Ha & _). rewrite lookup_nil in Ha.
      discriminate. }
    destruct b as [|y b].
    { assert (zip_with f (mask (x :: a) (c :: m)) (mask [] (c :: m)) = [])
        as -> by (simpl; destruct (if c then _ else _); reflexivity).
      simpl. split; [discriminate|].
      intros (r & x' & y' & _ & _ & Hb & _). rewrite lookup_nil in Hb.
      discriminate. }
    simpl. destruct c; simpl.
    + rewrite orb_true_iff, IH. split.
      * intros [Hf|(r & x' & y' & Hr)].
        -- exists 0%nat, x, y. auto.
        -- exists (S r), x', y'. exact Hr.
      * intros ([|r] & x' & y' & Hm & Ha & Hb & Hf); simpl in *.
        -- left. congruence.
        -- right. eauto 10.
    + rewrite IH. split.
      * intros (r & x' & y' & Hr). exists (S r), x', y'. exact Hr.
      * intros ([|r] & x' & y' & Hm & Ha & Hb & Hf); simpl in *;
          [discriminate|eauto 10].
Qed.

Lemma alist_rename_columns {A} (P : list A → Prop) (l : list (string * list A))
    (n n' : string) :
  Forall (fun c => P c.2) l → Forall (fun c => P c.2) (alist_rename l n n').
Proof.
  induction 1 as [|[m v] l Hv Hl IH]; simpl; [constructor|].
  destruct (String.eqb m n); constructor; assumption.
Qed.

Lemma alist_get_Forall {A} (P : A → Prop) (l : list (string * A))
    (n : string) (v : A) :
  Forall (fun c => P c.2) l → alist_get l n = Some v → P v.
Proof.
  induction 1 as [|[m w] l Hw Hl IH]; simpl; [discriminate|].
  destruct (String.eqb m n); [intros [= <-]; exact Hw|exact IH].
Qed.

Section Verdict.
Context {F : Type} `{Arith F} `{Astropy F}.

Lemma rename_columns_Forall (P : list F → Prop)
    (data : list (string * list F)) :
  Forall (fun c => P c.2) data → Forall (fun c => P c.2) (rename_columns data).
Proof.
  unfold rename_columns.
  generalize ["k"; "Pk"; "Pk_raw"; "Pk_noise"; "Pk_diff"; "cor_reso";
              "Pk_noise_miss"].
  intros names. revert data.
  induction names as [|n names IH]; intros data Hd; simpl; [exact Hd|].
  apply IH. unfold rename_column.
  destruct (alist_get data (upper n)); [|exact Hd].
  destruct (alist_get data n); [exact Hd|]. simpl.
  apply alist_rename_columns, Hd.
Qed.

(** The columns the noise test reads are those of the HDU, under the
    names of the program. *)
Lemma read_chunk_table_col (data t : list (string * list F)) (name : string) :
  read_chunk_table data = inr t → name ≠ "Pk" →
  alist_get t name = alist_get (rename_columns data) name.
Proof.
  unfold read_chunk_table, derive_Pk. intros Hr Hne.
  bind_inv Hr as pk Hpk. destruct (np_nansum pk ≗ of_Z 0).
  - bind_inv Hr as a Ha. bind_inv Hr as b Hb. bind_inv Hr as c Hc.
    injection Hr as <-. rewrite alist_get_set.
    destruct (String.eqb "Pk" name) eqn:E; [|reflexivity].
    apply String.eqb_eq in E. congruence.
  - injection Hr as <-. reflexivity.
Qed.

(** Some mode of the chunk lies below the last wavenumber edge with a
    noise power above a million times its raw power. *)
Definition has_noisy_mode (k pk_noise pk_raw : list F) (klast : F) : Prop :=
  ∃ row kv pn pr,
    k !! row = Some kv ∧ pk_noise !! row = Some pn ∧
    pk_raw !! row = Some pr ∧
    (kv ≺ klast) = true ∧ ((of_Z 1000000 ⊗ pr) ≺ pn) = true.

Lemma very_noisy_inv (chunk_table : list (string * list F))
    (kbin_edges : list F) (rows : nat) (noisy : bool) :
  (∀ name c, name ∈ ["k"; "Pk_noise"; "Pk_raw"] →
             alist_get chunk_table name = Some c → length c = rows) →
  very_noisy chunk_table kbin_edges = inr noisy →
  ∃ k pk_noise pk_raw klast,
    alist_get chunk_table "k" = Some k ∧
    alist_get chunk_table "Pk_noise" = Some pk_noise ∧
    alist_get chunk_table "Pk_raw" = Some pk_raw ∧
    last kbin_edges = Some klast ∧
    (noisy = true ↔ has_noisy_mode k pk_noise pk_raw klast).
Proof.
  intros Hrows Hv. unfold very_noisy, chunk_col in Hv.
  destruct (alist_get chunk_table "k") as [k|] eqn:Ek; [|discriminate].
  cbn [bind ret] in Hv. bind_inv Hv as i Hi. bind_inv Hv as klast Hklast.
  destruct (alist_get chunk_table "Pk_noise") as [pn|] eqn:En;
    [|discriminate].
  cbn [bind ret] in Hv. bind_inv Hv as noise Hnoise.
  destruct (alist_get chunk_table "Pk_raw") as [pr|] eqn:Er; [|discriminate].
  cbn [bind ret] in Hv. bind_inv Hv as raw Hraw. injection Hv as <-.
  pose proof (Hrows "k" k ltac:(set_solver) Ek) as Lk.
  pose proof (Hrows "Pk_noise" pn ltac:(set_solver) En) as Ln.
  pose proof (Hrows "Pk_raw" pr ltac:(set_solver) Er) as Lr.
  unfold np_where in Hnoise, Hraw.
  rewrite take_indices_where in Hnoise
    by (unfold lt_arr; rewrite length_map; lia).
  rewrite take_indices_where in Hraw
    by (unfold lt_arr; rewrite length_map; lia).
  injection Hnoise as <-. injection Hraw as <-. rewrite !drop_0.
  exists k, pn, pr, klast. split_and!; try reflexivity.
  - apply py_get_inr in Hklast. unfold py_index in Hi.
    destruct (decide (0 ≤ -1 < Z.of_nat (length kbin_edges))); [lia|].
    destruct (decide (- Z.of_nat (length kbin_edges) ≤ -1 < 0));
      [|discriminate].
    injection Hi as <-. rewrite last_lookup. rewrite <- Hklast. f_equal. lia.
  - rewrite existsb_masked. unfold has_noisy_mode, lt_arr. split.
    + intros (r & x & y & Hm & Hx & Hy & Hf).
      rewrite list_lookup_fmap in Hm.
      destruct (k !! r) as [kv|] eqn:Ekr; [|discriminate].
      injection Hm as Hm. exists r, kv, x, y. auto.
    + intros (r & kv & x & y & Hkv & Hx & Hy & Hlt & Hf).
      exists r, x, y. rewrite list_lookup_fmap, Hkv. simpl. rewrite Hlt. auto.
Qed.
End Verdict.

Section Verdict2.
Context {F : Type} `{Arith F} `{Astropy F}.

(** The mean signal-to-noise ratio of the chunk is below the cut of
    its redshift. *)
Definition below_cut (snrcut zbins_snrcut : option (list F))
    (meanz meansnr : F) : Prop :=
  ∃ cuts cut, snrcut = Some cuts ∧
              snrcut_chunk_of cuts zbins_snrcut meanz = inr cut ∧
              (meansnr ≺ cut) = true.

(** X1: a chunk the reader has gone through is left out exactly when
    its mean signal-to-noise ratio is below the cut of its redshift, or
    when one of its modes below the last wavenumber edge has a noise
    power above a million times its raw power; a chunk that is kept
    comes with its mean redshift. *)
Theorem read_chunk_verdict (kbin_edges : list F)
    (snrcut zbins_snrcut : option (list F)) (hdu : Hdu F) (rows : nat)
    (chunk : option (P1DTable F * F)) :
  Forall (fun c => length c.2 = rows) (hdu_data hdu) →
  read_chunk kbin_edges snrcut zbins_snrcut hdu = inr chunk →
  ∃ meanz meansnr,
    MEANZ (hdu_header hdu) = Some meanz ∧
    MEANSNR (hdu_header hdu) = Some meansnr ∧
    (∀ t z, chunk = Some (t, z) → z = meanz) ∧
    (chunk = None ↔
     below_cut snrcut zbins_snrcut meanz meansnr ∨
     ∃ k pk_noise pk_raw klast,
       alist_get (rename_columns (hdu_data hdu)) "k" = Some k ∧
       alist_get (rename_columns (hdu_data hdu)) "Pk_noise" = Some pk_noise ∧
       alist_get (rename_columns (hdu_data hdu)) "Pk_raw" = Some pk_raw ∧
       last kbin_edges = Some klast ∧
       has_noisy_mode k pk_noise pk_raw klast).
Proof.
  intros Hrows Hr. unfold read_chunk in Hr.
  bind_inv Hr as ct Hct. bind_inv Hr as meanz Hz. bind_inv Hr as meansnr Hs.
  bind_inv Hr as los Hlos. bind_inv Hr as below Hbelow.
  unfold header_get in Hz, Hs.
  destruct (MEANZ (hdu_header hdu)) as [z|]; [|discriminate].
  injection Hz as ->.
  destruct (MEANSNR (hdu_header hdu)) as [sn|]; [|discriminate].
  injection Hs as ->.
  exists meanz, meansnr. split_and!; [reflexivity|reflexivity| |].
  - intros t z Hc. subst chunk. destruct below; [discriminate|].
    bind_inv Hr as noisy Hn. destruct noisy; [discriminate|].
    injection Hr as _ <-. reflexivity.
  - assert (Hb : below = true ↔ below_cut snrcut zbins_snrcut meanz meansnr).
    { unfold below_cut. destruct snrcut as [cuts|].
      - bind_inv Hbelow as cut Hcut. injection Hbelow as <-. split.
        + intros Hlt. exists cuts, cut. auto.
        + intros (cuts' & cut' & [= <-] & Hcut' & Hlt). congruence.
      - injection Hbelow as <-. split; [discriminate|].
        intros (? & ? & ? & _). discriminate. }
    destruct below.
    + injection Hr as <-. split; [intros _; left; apply Hb; reflexivity|].
      reflexivity.
    + bind_inv Hr as noisy Hn.
      assert (Hcol : ∀ name, name ≠ "Pk" → name ≠ "forest_z" →
                name ≠ "forest_snr" →
                alist_get
                  (alist_set
                     (alist_set ct "forest_z"
                        (replicate (table_len ct) meanz))
                     "forest_snr" (replicate (table_len ct) meansnr)) name
                = alist_get (rename_columns (hdu_data hdu)) name).
      { intros name N1 N2 N3. rewrite !alist_get_set.
        destruct (String.eqb "forest_snr" name) eqn:E1;
          [apply String.eqb_eq in E1; congruence|].
        destruct (String.eqb "forest_z" name) eqn:E2;
          [apply String.eqb_eq in E2; congruence|].
        eapply read_chunk_table_col; eassumption. }
      apply (very_noisy_inv _ _ rows) in Hn
        as (k & pn & pr & klast & Hk & Hpn & Hpr & Hlast & Hnoisy).
      2:{ intros name c Hin Hget.
          rewrite Hcol in Hget
            by (intros ->; repeat (apply elem_of_cons in Hin as [Hin|Hin];
                                   [discriminate|]); inversion Hin).
          apply (alist_get_Forall (fun c => length c = rows) _ _ _
                   (rename_columns_Forall _ _ Hrows) Hget). }
      rewrite Hcol in Hk, Hpn, Hpr by discriminate.
      split.
      * intros ->. destruct noisy; [|discriminate]. right.
        exists k, pn, pr, klast. split_and!; try assumption.
        apply Hnoisy. reflexivity.
      * intros [Hbc|(k' & pn' & pr' & klast' & Hk' & Hpn' & Hpr' & Hl' & Hm)].
        -- apply Hb in Hbc. discriminate.
        -- assert (noisy = true) as ->; [|injection Hr as <-; reflexivity].
           apply Hnoisy. congruence.
Qed.

(** The loop over the HDUs: the verdicts of [read_chunk], one per HDU. *)
Lemma read_loop_inv (kbin_edges : list F) (snrcut zbins_snrcut : option (list F))
    (hdus : list (Hdu F)) (acc acc' : list (P1DTable F) * list F) :
  foldM (fun '(p1d_table, z_array) hdu =>
           let* chunk := read_chunk kbin_edges snrcut zbins_snrcut hdu in
           match chunk with
           | Some (chunk_table, meanz) =>
               ret (p1d_table ++ [chunk_table], z_array ++ [meanz])
           | None => ret (p1d_table, z_array)
           end) acc hdus = inr acc' →
  ∃ verdicts,
    Forall2 (fun hdu v => read_chunk kbin_edges snrcut zbins_snrcut hdu = inr v)
            hdus verdicts ∧
    acc'.1 = acc.1 ++ omap (fmap fst) verdicts ∧
    acc'.2 = acc.2 ++ omap (fmap snd) verdicts.
Proof.
  revert acc. induction hdus as [|hdu hdus IH]; intros [tables zs] Hf;
    simpl in Hf.
  - injection Hf as <-. exists []. simpl. rewrite !app_nil_r.
    split_and!; [constructor|reflexivity|reflexivity].
  - bind_inv Hf as acc1 H1. bind_inv H1 as v Hv.
    destruct (IH _ Hf) as (vs & Hvs & Ht & Hz).
    exists (v :: vs). split; [constructor; assumption|].
    destruct v as [[c z]|]; injection H1 as <-; simpl in *.
    + rewrite Ht, Hz, <- !app_assoc. auto.
    + auto.
Qed.

(** X3: the array of redshifts the reader returns lists the mean
    redshifts of the chunks it has kept, in the order of the file, one
    per stacked table; the reader returns [None] exactly when it has
    kept no chunk. *)
Theorem read_pk1d_redshifts (hdus : list (Hdu F)) (kbin_edges : list F)
    (snrcut zbins_snrcut : option (list F))
    (r : option (P1DTable F * list F)) :
  read_pk1d hdus kbin_edges snrcut zbins_snrcut = inr r →
  ∃ verdicts,
    Forall2 (fun hdu v => read_chunk kbin_edges snrcut zbins_snrcut hdu = inr v)
            hdus verdicts ∧
    match r with
    | None => Forall (fun v => v = None) verdicts
    | Some (_, z_array) =>
        z_array = omap (fmap snd) verdicts ∧ z_array ≠ [] ∧
        returns (vstack (omap (fmap fst) verdicts))
    end.
Proof.
  intros Hr. unfold read_pk1d in Hr. bind_inv Hr as acc Hloop.
  destruct acc as [tables zs].
  apply read_loop_inv in Hloop as (vs & Hvs & Ht & Hz). simpl in Ht, Hz.
  exists vs. split; [exact Hvs|]. subst tables zs.
  assert (Hlen : length (omap (fmap fst) vs)
                 = length (omap (fmap (M := option) snd) vs)).
  { clear. induction vs as [|[[c z]|] vs IH]; simpl; auto. }
  destruct (length (omap (fmap fst) vs) =? 0)%nat eqn:E.
  - injection Hr as <-. apply Nat.eqb_eq in E.
    clear -E. induction vs as [|[[c z]|] vs IH]; simpl in *;
      [constructor|discriminate|]. constructor; [reflexivity|apply IH, E].
  - apply Nat.eqb_neq in E. bind_inv Hr as t Ht.
    bind_inv Hr as d2 Hd2. bind_inv Hr as nr Hnr. bind_inv Hr as nn Hnn.
    bind_inv Hr as nw Hnw. bind_inv Hr as t' Ht'. injection Hr as <-.
    split_and!; [reflexivity| |eexists; exact Ht].
    intros Hnil. rewrite Hlen, Hnil in E. apply E. reflexivity.
Qed.

(** X2: the sizes of the two arrays of the cut are compared when a
    chunk is read, not before: a file without HDU is read without
    error, and the first chunk of a file raises [ValueError] when the
    cut has several values and the redshifts are missing or of another
    length. *)
Theorem snrcut_sizes_checked_per_chunk (kbin_edges cuts : list F)
    (zbins_snrcut : option (list F)) (hdu : Hdu F) (hdus : list (Hdu F)) :
  (1 < length cuts)%nat →
  (∀ zbins, zbins_snrcut = Some zbins → length zbins ≠ length cuts) →
  returns (read_chunk_table (hdu_data hdu)) →
  is_Some (MEANZ (hdu_header hdu)) → is_Some (MEANSNR (hdu_header hdu)) →
  is_Some (LOS_ID (hdu_header hdu)) →
  read_pk1d [] kbin_edges (Some cuts) zbins_snrcut = inr None ∧
  read_pk1d (hdu :: hdus) kbin_edges (Some cuts) zbins_snrcut
  = inl ValueError.
Proof.
  intros Hcuts Hz [ct Hct] [meanz Hmz] [meansnr Hms] [los Hlos].
  split; [reflexivity|].
  unfold read_pk1d. cbn [foldM]. unfold read_chunk.
  rewrite Hct, Hmz, Hms, Hlos. cbn [bind ret header_get].
  unfold snrcut_chunk_of. apply Nat.ltb_lt in Hcuts. rewrite Hcuts.
  destruct zbins_snrcut as [zbins|]; [|reflexivity].
  specialize (Hz zbins eq_refl). apply Nat.eqb_neq in Hz. rewrite Hz.
  reflexivity.
Qed.
End Verdict2.

(** ** The command line *)

Section ArgMin.
Context {F : Type} `{Arith F}.

Lemma argmin_from_lt (l : list F) (mp : F) (min_ind i : nat) :
  (min_ind < i)%nat → (argmin_from mp min_ind i l < i + length l)%nat.
Proof.
  revert mp min_ind i. induction l as [|x l IH]; intros mp min_ind i Hlt;
    simpl; [lia|].
  destruct (negb (mp ≼ x)).
  - destruct (fis_nan x); [lia|].
    specialize (IH x i (S i) ltac:(lia)). lia.
  - specialize (IH mp min_ind (S i) ltac:(lia)). lia.
Qed.

Lemma np_argmin_lt (a : list F) (i : nat) :
  np_argmin a = inr i → (i < length a)%nat.
Proof.
  destruct a as [|x a]; [discriminate|]. simpl. intros [= <-].
  destruct (fis_nan x); [lia|].
  pose proof (argmin_from_lt a x 0 1 ltac:(lia)). lia.
Qed.

(** A cut with as many values as redshifts, and at least one, is
    defined at every redshift. *)
Lemma snrcut_chunk_of_returns (cuts zbins : list F) (meanz : F) :
  length zbins = length cuts → (0 < length cuts)%nat →
  returns (snrcut_chunk_of cuts (Some zbins) meanz).
Proof.
  intros Hlen Hpos. unfold snrcut_chunk_of.
  destruct (1 <? length cuts)%nat.
  - rewrite Hlen, Nat.eqb_refl. cbn [negb].
    destruct (np_argmin (map (fun z => fabs (z ⊖ meanz)) zbins))
      as [e|i] eqn:Ei.
    + destruct zbins; [simpl in Hlen; lia|discriminate].
    + cbn [bind]. apply np_argmin_lt in Ei. rewrite length_map in Ei.
      destruct (py_get_lt cuts i) as (c & -> & _); [lia|]. eexists.
      reflexivity.
  - destruct (py_get_lt cuts 0) as (c & -> & _); [lia|]. eexists.
    reflexivity.
Qed.
End ArgMin.

Lemma sbind_inr {A B} (m : Script.sres A) (k : A → Script.sres B) (b : B) :
  Script.sbind m k = inr b → ∃ a, m = inr a ∧ k a = inr b.
Proof. destruct m as [e|a]; simpl; [discriminate|eauto]. Qed.

Tactic Notation "sbind_inv" hyp(H) "as" ident(a) ident(E) :=
  apply sbind_inr in H; destruct H as (a & E & H).

Section CommandLine.
Import Script.

(** X16: the defaults of the wavenumber array are computed before the
    values given on the command line are looked at: the call raises
    for a pixel size or a rebinning factor of zero whatever is given,
    and a call that returns hands back the values given as they
    are. *)
Theorem defaults_computed_first (k_min k_max k_dist : option float)
    (velunits : bool) (pixsize : float) (rebinfac : Z) :
  (rebinfac = 0 →
   define_wavenumber_array k_min k_max k_dist velunits pixsize rebinfac
   = inl (Raised ZeroDivisionError)) ∧
  (PrimFloat.eqb pixsize 0 = true →
   ∃ e, define_wavenumber_array k_min k_max k_dist velunits pixsize rebinfac
        = inl e) ∧
  (∀ a b c,
     define_wavenumber_array k_min k_max k_dist velunits pixsize rebinfac
     = inr (a, b, c) →
     (∀ v, k_min = Some v → a = v) ∧ (∀ v, k_max = Some v → b = v) ∧
     (∀ v, k_dist = Some v → c = v)).
Proof.
  split_and!.
  - intros ->. reflexivity.
  - intros Hp. unfold define_wavenumber_array.
    destruct (py_float rebinfac) as [e|r]; [eauto|]. cbn [sbind].
    destruct (py_truediv _ r) as [e|f]; [eauto|]. cbn [sbind].
    destruct (py_truediv _ f) as [e|kmin]; [eauto|]. cbn [sbind].
    unfold py_truediv at 1. rewrite Hp. cbn [sbind]. eauto.
  - intros a b c Hd. unfold define_wavenumber_array in Hd.
    sbind_inv Hd as r Hr. sbind_inv Hd as f Hf. sbind_inv Hd as kmin Hkmin.
    sbind_inv Hd as kmax Hkmax. sbind_inv Hd as ratio Hratio.
    sbind_inv Hd as nb Hnb. sbind_inv Hd as nb' Hnb'. sbind_inv Hd as kd Hkd.
    destruct velunits; injection Hd as <- <- <-;
      split_and!; intros v ->; reflexivity.
Qed.

Section Main.
Context `{Numpy}.

(** The length of [np.arange(start, stop, step)] is
    [ceil((stop - start) / step)], and 0 when this is negative. *)
Definition arange_length : Prop :=
  ∀ start stop step l,
    np_arange start stop step = inr l →
    ∃ n, py_ceil (PrimFloat.div (PrimFloat.sub stop start) step) = inr n ∧
         length l = Z.to_nat n.

(** X17: the script passes a cut on the signal-to-noise ratio only
    to a run without weights; the cut of the ['eboss'] scheme has 21
    values for 21 redshifts, so that the reader finds a cut for every
    chunk. *)
Theorem cut_of_the_script (args : Args) (call : Call) :
  arange_length →
  main args = inr call →
  (snrcut call = None ↔ apply_mean_snr_cut args = false) ∧
  (apply_mean_snr_cut args = true →
   call_weight_method call = "no_weights" ∧
   ∃ cuts zbins,
     snrcut call = Some cuts ∧ zbins_snrcut call = Some zbins ∧
     length cuts = 21%nat ∧ length zbins = 21%nat ∧
     ∀ meanz, returns (snrcut_chunk_of cuts (Some zbins) meanz)).
Proof.
  intros Hlaw Hm. unfold main in Hm.
  destruct (negb (String.eqb (weight_method args) "no_weights")
            && apply_mean_snr_cut args) eqn:Echeck; [discriminate|].
  sbind_inv Hm as cut Hcut. destruct cut as [c z].
  sbind_inv Hm as k3 Hk3. destruct k3 as [[kmin kmax] kbin].
  sbind_inv Hm as ke Hke. sbind_inv Hm as ze Hze. injection Hm as <-. simpl.
  destruct (apply_mean_snr_cut args) eqn:Ecut.
  - destruct (String.eqb (snr_cut_scheme args) "eboss"); [|discriminate].
    sbind_inv Hcut as zbins Hzb. injection Hcut as <- <-.
    split; [split; discriminate|]. intros _.
    rewrite andb_true_r in Echeck. apply negb_false_iff in Echeck.
    apply String.eqb_eq in Echeck. split; [exact Echeck|].
    destruct (Hlaw _ _ _ _ Hzb) as (n & Hn & Hlen).
    vm_compute in Hn. injection Hn as <-.
    exists snr_cut_mean_eboss, zbins.
    split_and!; [reflexivity|reflexivity|reflexivity|exact Hlen|].
    intros meanz. apply snrcut_chunk_of_returns; [exact Hlen|].
    simpl. lia.
  - injection Hcut as <- <-. split; [split; reflexivity|discriminate].
Qed.
End Main.
End CommandLine.

(** * The properties on concrete tables (IEEE binary64) *)

Section Examples.
Local Open Scope float_scope.

(** Three chunks of one object at redshift 2 with signal-to-noise
    ratio 5, two wavenumbers each. *)
Definition three_chunks : P1DTable float :=
  {| cols := [("k", [0.1; 0.2; 0.1; 0.2; 0.1; 0.2]);
              ("Pk", [1; 2; 3; 4; 5; 6]);
              ("forest_z", [2; 2; 2; 2; 2; 2]);
              ("forest_snr", [5; 5; 5; 5; 5; 5])];
     forest_id := [1; 1; 1; 1; 1; 1]%Z;
     sub_forest_id := Some ["1_0"; "1_0"; "1_1"; "1_1"; "1_2"; "1_2"] |}.

Definition two_zbins : list float := [1.5; 2.5; 3.5].
Definition three_kbins : list float := [0.05; 0.15; 0.25; 0.35].

Definition empty_mean_table : MeanTable float :=
  {| zbin := []; index_zbin := []; N := []; stat := ∅ |}.

Definition empty_output : Output float :=
  {| out_p1d_table := {| cols := []; forest_id := []; sub_forest_id := None |};
     out_mean_p1d_table := empty_mean_table;
     out_metadata_table :=
       {| z_min := []; z_max := []; k_min := []; k_max := []; N_chunks := [] |};
     out_cov_table := None |}.

(** The value of a run that returns. *)
Definition returned {A} (default : A) (r : res A) : A :=
  match r with
  | inr a => a
  | inl _ => default
  end.

(** *** Membership *)

Definition on_the_edge : P1DTable float :=
  {| cols := [("k", [0.05]); ("Pk", [1]); ("forest_z", [2]);
              ("forest_snr", [5])];
     forest_id := [1]%Z; sub_forest_id := None |}.

(** C1 fails as stated: a sample whose wavenumber is the lower edge of
    the first k bin belongs to the cell (0, 0) by the half-open
    convention, and the selection leaves it out. *)
Lemma C1_lower_edge_is_excluded :
  ¬ (∀ (t : P1DTable float) (ze ke : list float) (i j : nat)
       (sel : list bool) (fz k : list float) (r : nat) (z kv : float),
        select_bin t ze ke i j = inr sel →
        col_get t "forest_z" = inr fz → col_get t "k" = inr k →
        fz !! r = Some z → k !! r = Some kv →
        (sel !! r = Some true ↔
         in_half_open ze i z = true ∧ in_half_open ke j kv = true)).
Proof.
  intros Hclaim.
  specialize (Hclaim on_the_edge two_zbins three_kbins 0%nat 0%nat [false]
                     [2] [0.05] 0%nat 2 0.05
                     eq_refl eq_refl eq_refl eq_refl eq_refl).
  destruct Hclaim as [_ Hback].
  specialize (Hback (conj eq_refl eq_refl)). discriminate.
Qed.

Lemma C1_membership_witness :
  ([true; false; true; false; true; false] !! 0%nat = Some true ↔
   in_open two_zbins 0 2 = true ∧ in_open three_kbins 0 0.1 = true) ∧
  ([0; 1; 0; 1; 0; 1]%Z !! 1%nat = Some (Z.of_nat 1) ↔
   in_open three_kbins 1 0.2 = true ∧
   ∀ j', (1 < j')%nat → in_open three_kbins j' 0.2 = false).
Proof.
  split.
  - apply (proj1 C1_membership_is_open_interval three_chunks two_zbins
             three_kbins 0%nat 0%nat _ [2; 2; 2; 2; 2; 2]
             [0.1; 0.2; 0.1; 0.2; 0.1; 0.2] 0%nat 2 0.1);
      reflexivity.
  - apply (proj2 C1_membership_is_open_interval
             [0.1; 0.2; 0.1; 0.2; 0.1; 0.2] three_kbins _ 1%nat 0.2 1%nat);
      reflexivity.
Defined.

(** *** The table of statistics *)

Definition unweighted_run : res (Output float) :=
  compute_mean_pk1d three_chunks [2; 2; 2] two_zbins three_kbins
                    "no_weights" false false false true.

Lemma unweighted_run_returns :
  unweighted_run = inr (returned empty_output unweighted_run).
Proof. vm_compute. reflexivity. Qed.

(** The six rows of the example: three members in the first two cells
    of the first redshift bin, none elsewhere. *)
Example unweighted_run_table :
  let T := out_mean_p1d_table (returned empty_output unweighted_run) in
  N T = [3; 3; 0; 0; 0; 0]%Z ∧
  zbin T = [2; 2; 2; 3; 3; 3] ∧
  index_zbin T = [0; 0; 0; 1; 1; 1]%Z ∧
  stat T !! "meanPk" = Some [3; 4; nan; nan; nan; nan].
Proof. vm_compute. auto. Qed.


(** *** Velocity units *)

Definition velocity_run : res (Output float) :=
  compute_mean_pk1d three_chunks [2; 2; 2] two_zbins three_kbins
                    "no_weights" false false true false.

Lemma velocity_run_returns :
  velocity_run = inr (returned empty_output velocity_run).
Proof. vm_compute. reflexivity. Qed.

Lemma three_chunks_names : NoDup (colnames_stats three_chunks).
Proof. apply (bool_decide_unpack _). vm_compute. exact I. Qed.

Lemma C10_velunits_witness :
  let t' := out_p1d_table (returned empty_output velocity_run) in
  let cf := conversion_factor_of [2; 2; 2; 2; 2; 2] in
  alist_get (cols t') "k"
  = Some (zip_with fmul [0.1; 0.2; 0.1; 0.2; 0.1; 0.2] cf) ∧
  alist_get (cols t') "Pk" = Some (zip_with fdiv [1; 2; 3; 4; 5; 6] cf) ∧
  alist_get (cols t') "forest_z" = alist_get (cols three_chunks) "forest_z" ∧
  alist_get (cols t') "forest_snr" = alist_get (cols three_chunks) "forest_snr" ∧
  colnames_stats t' = colnames_stats three_chunks.
Proof.
  pose proof (C10_velunits_rescales_k_and_Pk three_chunks [2; 2; 2] two_zbins
                three_kbins "no_weights" false false true false _
                three_chunks_names velocity_run_returns) as [_ Hvel].
  destruct (Hvel eq_refl)
    as (_ & _ & Hnames & fz & Hfz & Hk & _ & _ & Hdiv & Hkept).
  injection Hfz as <-.
  split_and!;
    [exact Hk|apply (Hdiv "Pk"%string)|apply Hkept|apply Hkept|exact Hnames];
    repeat constructor.
Defined.

(** The values of the example: the factor of every row is
    [1215.67 * (1 + 2) / 299792.458], about 0.01217. *)
Example velocity_run_columns :
  let t' := out_p1d_table (returned empty_output velocity_run) in
  let f := (1215.67 * (1 + 2) / 299792.458)%float in
  alist_get (cols t') "k"
  = Some [0.1 * f; 0.2 * f; 0.1 * f; 0.2 * f; 0.1 * f; 0.2 * f]%float ∧
  alist_get (cols t') "Pk"
  = Some [1 / f; 2 / f; 3 / f; 4 / f; 5 / f; 6 / f]%float ∧
  alist_get (cols t') "Pk" ≠ alist_get (cols three_chunks) "Pk".
Proof. vm_compute. split_and!; [reflexivity..|discriminate]. Qed.

(** *** The clean power *)

(** A chunk whose clean power is supplied, is not identically zero and
    sums to zero. *)
Definition cancelling_chunk : list (string * list float) :=
  [("K", [0.1; 0.2]); ("PK", [1; -1]); ("PK_RAW", [5; 5]);
   ("PK_NOISE", [0; 0]); ("COR_RESO", [1; 1])].

(** A chunk without clean power. *)
Definition chunk_without_Pk : list (string * list float) :=
  [("K", [0.1; 0.2]); ("PK_RAW", [5; 5]); ("PK_NOISE", [0; 0]);
   ("COR_RESO", [1; 1])].

(** C9 fails as stated: the clean power [1, -1] is supplied and not
    identically zero, and it is replaced; and a chunk without the
    column makes the reader raise instead of computing it. *)
Lemma C9_supplied_power_replaced :
  ¬ (∀ (data : list (string * list float)) (pk : list float),
        alist_get (rename_columns data) "Pk" = Some pk →
        identically_zero pk = false →
        ∃ t', read_chunk_table data = inr t' ∧
              alist_get t' "Pk" = Some pk) ∧
  read_chunk_table chunk_without_Pk = inl KeyError.
Proof.
  split; [|reflexivity]. intros Hclaim.
  destruct (Hclaim cancelling_chunk [1; -1] eq_refl eq_refl)
    as (t' & Hread & Hpk).
  vm_compute in Hread. injection Hread as <-.
  vm_compute in Hpk. discriminate.
Qed.

(** A chunk of nine modes whose clean power holds a large value, its
    opposite and seven units. *)
Definition large_and_small_chunk : list (string * list float) :=
  [("K", [0.1; 0.2; 0.3; 0.4; 0.5; 0.6; 0.7; 0.8; 0.9]);
   ("PK", [1e16; 1; 1; 1; 1; 1; 1; 1; -1e16]);
   ("PK_RAW", [5; 5; 5; 5; 5; 5; 5; 5; 5]);
   ("PK_NOISE", [0; 0; 0; 0; 0; 0; 0; 0; 0]);
   ("COR_RESO", [1; 1; 1; 1; 1; 1; 1; 1; 1])].

(** The sum of the test is numpy's: on nine entries the first eight
    are added in pairs before the ninth, which keeps six of the units
    that a sum from left to right loses. *)
Example large_and_small_chunk_sum :
  np_nansum [1e16; 1; 1; 1; 1; 1; 1; 1; -1e16] = 6 ∧
  fold_left PrimFloat.add [1e16; 1; 1; 1; 1; 1; 1; 1; -1e16] 0 = 0.
Proof. vm_compute. split; reflexivity. Qed.

(** The clean power [1, -1] sums to zero and is replaced; the clean
    power of the nine modes does not and is kept. *)
Lemma C9_clean_power_witness :
  (∃ t', read_chunk_table cancelling_chunk = inr t' ∧
         alist_get t' "Pk" = Some [5; 5] ∧
         map fst t' = ["k"; "Pk"; "Pk_raw"; "Pk_noise"; "cor_reso"] ∧
         ∀ name, name ≠ "Pk" →
                 alist_get t' name
                 = alist_get (rename_columns cancelling_chunk) name) ∧
  read_chunk_table large_and_small_chunk
  = inr (rename_columns large_and_small_chunk).
Proof.
  split.
  - exact (proj2 (proj2 (C9_clean_power_on_zero_sum cancelling_chunk))
             [1; -1] [5; 5] [0; 0] [1; 1] eq_refl eq_refl eq_refl eq_refl
             eq_refl).
  - exact (proj1 (proj2 (C9_clean_power_on_zero_sum large_and_small_chunk))
             [1e16; 1; 1; 1; 1; 1; 1; 1; -1e16] eq_refl eq_refl).
Defined.
End Examples.

Section MoreExamples.
Local Open Scope float_scope.

(** *** Covariance *)

Definition empty_cov_arrays : CovArrays float :=
  {| zbin_array := []; index_zbin_array := []; n_array := [];
     covariance_array := [] |}.

(** The covariance of the first redshift bin of the example. *)
Definition first_bin_cov : res (CovArrays float) :=
  compute_cov three_chunks
    (out_mean_p1d_table (returned empty_output unweighted_run))
    [2; 3] [3; 0]%Z [0; 1; 0; 1; 0; 1]%Z 3 0
    [true; true; true; true; true; true] ["1_0"; "1_1"; "1_2"].

Lemma first_bin_cov_returns :
  first_bin_cov = inr (returned empty_cov_arrays first_bin_cov).
Proof. vm_compute. reflexivity. Qed.

(** The coefficient (0, 1): the three products 1*2, 3*4 and 5*6, the
    means 3 and 4. *)
Example first_bin_cov_01 :
  covariance_array (returned empty_cov_arrays first_bin_cov) !! 1%nat
  = Some ((((0 + 1 * 2 + 3 * 4 + 5 * 6) / 3) - 3 * 4) / 3) ∧
  n_array (returned empty_cov_arrays first_bin_cov) !! 1%nat = Some 3%Z.
Proof. vm_compute. auto. Qed.



(** The three sub-forests of the example, two samples each, and the
    pairs of the coefficient (0, 1). *)
Example first_bin_groups :
  map (group_of [true; true; true; true; true; true]
                ["1_0"; "1_0"; "1_1"; "1_1"; "1_2"; "1_2"]
                [0; 1; 0; 1; 0; 1]%Z [1; 2; 3; 4; 5; 6])
      ["1_0"; "1_1"; "1_2"]
  = [[(0%Z, 1); (1%Z, 2)]; [(0%Z, 3); (1%Z, 4)]; [(0%Z, 5); (1%Z, 6)]] ∧
  all_products [[(0%Z, 1); (1%Z, 2)]; [(0%Z, 3); (1%Z, 4)];
                [(0%Z, 5); (1%Z, 6)]] 0 1
  = [1 * 2; 3 * 4; 5 * 6].
Proof. vm_compute. split; reflexivity. Qed.

(** One sub-forest whose two samples are stored by descending k. *)
Definition descending_pair : P1DTable float :=
  {| cols := [("k", [0.2; 0.1]); ("Pk", [2; 3]); ("forest_z", [2; 2]);
              ("forest_snr", [5; 5])];
     forest_id := [1; 1]%Z;
     sub_forest_id := Some ["1_0"; "1_0"] |}.

Definition descending_run : res (Output float) :=
  compute_mean_pk1d descending_pair [2] two_zbins three_kbins
                    "no_weights" false false false false.

Definition descending_cov : res (CovArrays float) :=
  compute_cov descending_pair
    (out_mean_p1d_table (returned empty_output descending_run))
    [2; 3] [1; 0]%Z [1; 0]%Z 3 0 [true; true] ["1_0"].


(** The coefficient (0, 1) of the example: no pair counted, where the
    sub-forest has one pair of samples in the k bins 0 and 1. *)
Example descending_cov_01 :
  let out := returned empty_cov_arrays descending_cov in
  n_array out !! cell 3 0 1 = Some 0%Z ∧
  (∃ v, covariance_array out !! cell 3 0 1 = Some v ∧ fis_nan v = true) ∧
  unordered_products (group_of [true; true] ["1_0"; "1_0"] [1; 0]%Z [2; 3]
                               "1_0") 0 1 = [2 * 3].
Proof. vm_compute. split_and!; [reflexivity|eexists; split; reflexivity|reflexivity]. Qed.


Lemma C5_symmetric_witness :
  let out := returned empty_cov_arrays first_bin_cov in
  ∃ v m,
    covariance_array out !! cell 3 0 1 = Some v ∧
    covariance_array out !! cell 3 1 0 = Some v ∧
    n_array out !! cell 3 0 1 = Some m ∧
    n_array out !! cell 3 1 0 = Some m.
Proof.
  apply (C5_covariance_symmetric three_chunks _ [2; 3] [3; 0]%Z
           [0; 1; 0; 1; 0; 1]%Z 3 0 [true; true; true; true; true; true]
           ["1_0"; "1_1"; "1_2"] _ first_bin_cov_returns 0%nat 1%nat); lia.
Defined.

(** *** NaN among the members of a cell *)

(** Two chunks in the cell (0, 0), the clean power of the second one
    being NaN. *)
Definition with_nan : P1DTable float :=
  {| cols := [("k", [0.1; 0.1]); ("Pk", [1; nan]); ("forest_z", [2; 2]);
              ("forest_snr", [5; 5])];
     forest_id := [1; 2]%Z; sub_forest_id := None |}.

(** C6 on the code: without weights and with the weights of
    ['simple_snr'], the NaN of one member is the mean and the error of
    the cell. *)
Theorem C6_nan_reaches_mean_and_error :
  (∃ out,
      compute_mean_pk1d with_nan [2; 2] two_zbins three_kbins "no_weights"
                        false false false false = inr out ∧
      N (out_mean_p1d_table out) !! 0%nat = Some 2%Z ∧
      stat_at (out_mean_p1d_table out) "meanPk" 0 = Some nan ∧
      stat_at (out_mean_p1d_table out) "errorPk" 0 = Some nan) ∧
  (∃ out,
      compute_mean_pk1d with_nan [2; 2] two_zbins three_kbins "simple_snr"
                        false false false false = inr out ∧
      N (out_mean_p1d_table out) !! 0%nat = Some 2%Z ∧
      stat_at (out_mean_p1d_table out) "meanPk" 0 = Some nan ∧
      stat_at (out_mean_p1d_table out) "errorPk" 0 = Some nan).
Proof.
  split; eexists; (split; [vm_compute; reflexivity|]); vm_compute; auto.
Qed.

(** *** A chunk of quality 1 *)

(** The second chunk has a signal-to-noise ratio of exactly 1. *)
Definition with_low_snr : P1DTable float :=
  {| cols := [("k", [0.1; 0.2; 0.1; 0.2]); ("Pk", [1; 2; 3; 4]);
              ("forest_z", [2; 2; 2; 2]); ("forest_snr", [5; 5; 1; 1])];
     forest_id := [1; 1; 2; 2]%Z; sub_forest_id := None |}.

Definition six_rows : MeanTable float :=
  init_mean_table 6 (stats_array_of false) ["k"; "Pk"; "forest_z"; "forest_snr"].

(** The run on this table ends with the error of the quality check. *)
Example low_snr_run_raises :
  compute_mean_pk1d with_low_snr [2; 2] two_zbins three_kbins "simple_snr"
                    false false false false = inl RuntimeError.
Proof. vm_compute. reflexivity. Qed.

Lemma C7_low_quality_witness :
  (∀ num col,
      column_stats with_low_snr "simple_snr" false
                   [true; false; true; false] [] num col
      = inl RuntimeError) ∧
  (∀ T1, rows_available T1 3 0 three_kbins → is_Some ([2; 3] !! 0%nat) →
         fill_cell with_low_snr ["k"; "Pk"; "forest_z"; "forest_snr"]
                   "simple_snr" false false 2 [2; 3] two_zbins 3 three_kbins
                   0 T1 0 = inl RuntimeError) ∧
  raises (fill_average_pk_redshift with_low_snr
            ["k"; "Pk"; "forest_z"; "forest_snr"] six_rows "simple_snr"
            false false 2 [2; 3] two_zbins [2; 0]%Z 3 three_kbins 0).
Proof.
  apply (C7_simple_snr_low_quality_is_fatal with_low_snr
           ["k"; "Pk"; "forest_z"; "forest_snr"] six_rows false false 2
           [2; 3] two_zbins [2; 0]%Z 3 three_kbins 0 0 2%Z
           [true; false; true; false] [] [5; 5; 1; 1] 2 1);
    try reflexivity; try discriminate. simpl. lia.
Defined.

(** *** Configuration *)

(** A chunk at redshift 9, outside the redshift bins. *)
Definition far_away : P1DTable float :=
  {| cols := [("k", [0.1; 0.2]); ("Pk", [1; 2]); ("forest_z", [9; 9]);
              ("forest_snr", [5; 5])];
     forest_id := [1; 1]%Z; sub_forest_id := None |}.

Definition uneven_zbins : list float := [1.5; 2.5; 4.5; 5].

(** C8 fails as stated: a run with an unknown weighting strategy, and
    a run with redshift weights over redshift bins of different
    widths, return their tables when no chunk falls in a redshift
    bin. *)
Lemma C8_configuration_not_checked_upfront :
  ¬ (∀ (t : P1DTable float) (z_array ze ke : list float) (wm : string)
       (azw nomedians velunits cc : bool),
        known_weight_method wm = false →
        raises (compute_mean_pk1d t z_array ze ke wm azw nomedians
                                  velunits cc)) ∧
  ¬ (∀ (t : P1DTable float) (z_array ze ke : list float) (wm : string)
       (nomedians velunits cc : bool) (d : float),
        let delta_z :=
          zip_with fsub (tail (zbin_centers_of ze))
                   (removelast (zbin_centers_of ze)) in
        delta_z !! 0%nat = Some d →
        np_allclose delta_z d (flit 1 1000) = false →
        raises (compute_mean_pk1d t z_array ze ke wm true nomedians
                                  velunits cc)).
Proof.
  split; intros Hclaim.
  - destruct (Hclaim far_away [9] two_zbins three_kbins "bogus"%string
                     false false false false eq_refl) as [e He].
    vm_compute in He. discriminate.
  - destruct (Hclaim far_away [9] uneven_zbins three_kbins
                     "no_weights"%string false false false 1.5
                     eq_refl eq_refl) as [e He].
    vm_compute in He. discriminate.
Qed.

(** The same configurations on the chunks of the example end in the
    aggregation with [ValueError]. *)
Example unknown_strategy_run_raises :
  compute_mean_pk1d three_chunks [2; 2; 2] two_zbins three_kbins "bogus"
                    false false false false = inl ValueError ∧
  compute_mean_pk1d three_chunks [2; 2; 2] uneven_zbins three_kbins
                    "no_weights" true false false false = inl ValueError.
Proof. vm_compute. auto. Qed.

(** The selection of the first cell of the example with redshift
    weights over evenly spaced centres. *)
Lemma weighted_first_cell :
  cell_selection three_chunks true 2 [2; 3] two_zbins three_kbins 0 0
  = inr ([true; false; true; false; true; false], [1; 1; 1]).
Proof. vm_compute. reflexivity. Qed.

Lemma C8_per_bin_witness :
  fill_average_pk_redshift three_chunks ["k"; "Pk"; "forest_z"; "forest_snr"]
    six_rows "bogus" false false 2 [2; 3] two_zbins [3; 0]%Z 3 three_kbins 0
  = inl ValueError ∧
  fill_average_pk_redshift three_chunks ["k"; "Pk"; "forest_z"; "forest_snr"]
    six_rows "bogus" true false 2 [2; 3] two_zbins [3; 0]%Z 3 three_kbins 0
  = inl ValueError ∧
  fill_average_pk_redshift three_chunks ["k"; "Pk"; "forest_z"; "forest_snr"]
    six_rows "no_weights" true false 3 [2; 3.5; 4.75] uneven_zbins
    [3; 0; 0]%Z 3 three_kbins 0
  = inl ValueError ∧
  fill_average_pk_redshift three_chunks ["k"; "Pk"; "forest_z"; "forest_snr"]
    six_rows "bogus" true false 1 [2] [1.5; 2.5] [3]%Z 3 three_kbins 0
  = inl IndexError ∧
  returns (fill_average_pk_redshift three_chunks
             ["k"; "Pk"; "forest_z"; "forest_snr"] six_rows "bogus" true
             false 2 [2; 3] two_zbins [3; 0]%Z 3 three_kbins 1).
Proof.
  assert (Hrows : rows_available six_rows 3 0 three_kbins)
    by (unfold rows_available; simpl; lia).
  split_and!.
  - apply (proj1 (proj2 (C8_configuration_checked_per_bin three_chunks
                    ["k"; "Pk"; "forest_z"; "forest_snr"] six_rows "bogus"
                    false 2 [2; 3] two_zbins [3; 0]%Z 3 three_kbins 0))
             3%Z [2; 2; 2; 2; 2; 2] [0.1; 0.2; 0.1; 0.2; 0.1; 0.2] 0%nat
             [true; false; true; false; true; false] 0%nat);
      try reflexivity; try discriminate; try exact Hrows; try (simpl; lia).
    eexists. reflexivity.
  - apply (proj1 (C8_configuration_checked_per_bin three_chunks
                    ["k"; "Pk"; "forest_z"; "forest_snr"] six_rows "bogus"
                    false 2 [2; 3] two_zbins [3; 0]%Z 3 three_kbins 0)
             true 3%Z 0%nat [true; false; true; false; true; false]
             [1; 1; 1] 0%nat);
      try reflexivity; try discriminate; try exact Hrows; try (simpl; lia);
      try exact weighted_first_cell.
    eexists. reflexivity.
  - apply (proj1 (proj2 (proj2 (C8_configuration_checked_per_bin three_chunks
                    ["k"; "Pk"; "forest_z"; "forest_snr"] six_rows
                    "no_weights" false 3 [2; 3.5; 4.75] uneven_zbins
                    [3; 0; 0]%Z 3 three_kbins 0))) 3%Z 1.5);
      try reflexivity; try discriminate. simpl. lia.
  - apply (proj1 (proj2 (proj2 (proj2 (C8_configuration_checked_per_bin
                    three_chunks ["k"; "Pk"; "forest_z"; "forest_snr"]
                    six_rows "bogus" false 1 [2] [1.5; 2.5] [3]%Z 3
                    three_kbins 0)))) 3%Z);
      try reflexivity; try discriminate. simpl. lia.
  - apply (proj2 (proj2 (proj2 (proj2 (C8_configuration_checked_per_bin
                    three_chunks ["k"; "Pk"; "forest_z"; "forest_snr"]
                    six_rows "bogus" false 2 [2; 3] two_zbins [3; 0]%Z 3
                    three_kbins 1)))) true);
      [reflexivity|eexists; reflexivity].
Defined.
End MoreExamples.

(** * The unweighted estimate on a concrete table (exact arithmetic) *)

Section ExactExample.
Local Open Scope R_scope.

(** Two chunks in one cell, with clean power 1 and 3. *)
Definition two_samples : P1DTable Rx :=
  {| cols := [("k", [Some (1 / 10); Some (1 / 10)]);
              ("Pk", [Some 1; Some 3]);
              ("forest_z", [Some 2; Some 2])];
     forest_id := [1; 2]%Z; sub_forest_id := None |}.

Definition one_zbin : list Rx := [Some (3 / 2); Some (5 / 2)].
Definition one_kbin : list Rx := [Some (1 / 20); Some (3 / 20)].

Definition one_row : MeanTable Rx :=
  init_mean_table 1 (stats_array_of true) ["Pk"].

Ltac decide_R :=
  repeat match goal with
  | |- context [Rlt_dec ?a ?b] =>
      destruct (Rlt_dec a b); try (exfalso; lra)
  end.

Lemma two_samples_selected :
  select_bin two_samples one_zbin one_kbin 0 0 = inr [true; true].
Proof. unfold select_bin. cbn. decide_R. reflexivity. Qed.

Lemma two_samples_run_returns :
  returns (fill_average_pk_redshift two_samples ["Pk"] one_row "no_weights"
             false true 1 [Some 2] one_zbin [2%Z] 1 one_kbin 0).
Proof.
  apply (fill_average_unweighted_returns two_samples ["Pk"] one_row true 1
           [Some 2] one_zbin [2%Z] 1 one_kbin [Some 2; Some 2]
           [Some (1 / 10); Some (1 / 10)] 0);
    try reflexivity; try (simpl; lia); try (eexists; reflexivity).
  - intros col ->%list_elem_of_singleton. eexists. split; reflexivity.
  - unfold table_ready. simpl. split_and!; try lia.
    intros col s index ->%list_elem_of_singleton Hs Hidx.
    unfold stats_array_of in Hs. simpl in Hs.
    repeat (apply elem_of_cons in Hs as [->|Hs]);
      [| | | |inversion Hs];
      (eexists; split; [reflexivity|simpl; lia]).
Qed.

Lemma C3_unweighted_witness :
  ∃ T', fill_average_pk_redshift two_samples ["Pk"] one_row "no_weights"
          false true 1 [Some 2] one_zbin [2%Z] 1 one_kbin 0 = inr T' ∧
        N T' !! 0%nat = Some 2%Z ∧
        stat_at T' "meanPk" 0 = Some (Some (Rmean [1; 3])) ∧
        stat_at T' "errorPk" 0 = Some (Some (standard_error [1; 3])).
Proof.
  destruct two_samples_run_returns as [T' HT']. exists T'.
  split; [exact HT'|].
  pose proof (C3_unweighted_mean_and_error two_samples ["Pk"] one_row T'
                true 1 [Some 2] one_zbin [2%Z] 1 one_kbin 0 0 2%Z "Pk"
                [Some 1; Some 3] [Some (1 / 10); Some (1 / 10)]
                [true; true] [1; 3]
                eq_refl HT' eq_refl ltac:(discriminate) ltac:(lia)
                ltac:(left) two_samples_selected eq_refl eq_refl eq_refl
                eq_refl ltac:(discriminate)) as (HN & Hm & He & Heq).
  split_and!; [exact HN|exact Hm|].
  transitivity (Some (np_std (map Some [1; 3])
                      ⊘ fsqrt (of_Z (Z.of_nat (length [1; 3]) - 1))));
    [exact He|f_equal; exact Heq].
Defined.
End ExactExample.

(** * Further properties on concrete tables (IEEE binary64) *)

Section Witnesses.
Local Open Scope float_scope.

(** *** Reading *)

(** A chunk of three modes, stored under upper-case names. *)
Definition quiet_hdu : Hdu float :=
  {| hdu_data := [("K", [0.1; 0.2; 0.4]); ("PK", [1; 2; 3]);
                  ("PK_RAW", [2; 3; 4]); ("PK_NOISE", [1; 1; 1]);
                  ("PK_DIFF", [0; 0; 0]); ("COR_RESO", [1; 1; 1])];
     hdu_header := {| MEANZ := Some 2.3; MEANSNR := Some 3;
                      LOS_ID := Some 7%Z; CHUNK_ID := Some 0%Z |} |}.

(** The same chunk with a noise power beyond a million times the raw
    power in its second mode. *)
Definition noisy_hdu : Hdu float :=
  {| hdu_data := [("K", [0.1; 0.2; 0.4]); ("PK", [1; 2; 3]);
                  ("PK_RAW", [2; 3; 4]); ("PK_NOISE", [1; 4000000; 1]);
                  ("PK_DIFF", [0; 0; 0]); ("COR_RESO", [1; 1; 1])];
     hdu_header := {| MEANZ := Some 2.5; MEANSNR := Some 3;
                      LOS_ID := Some 7%Z; CHUNK_ID := Some 1%Z |} |}.

Lemma read_chunk_verdict_witness :
  has_noisy_mode [0.1; 0.2; 0.4] [1; 4000000; 1] [2; 3; 4] 0.35.
Proof.
  destruct (read_chunk_verdict three_kbins None None noisy_hdu 3 None)
    as (meanz & meansnr & _ & _ & _ & Hnone).
  - repeat constructor.
  - vm_compute. reflexivity.
  - destruct (proj1 Hnone eq_refl)
      as [(cuts & cut & Hcut & _)|(k & pn & pr & klast & Hk & Hpn & Hpr & Hl & Hm)];
      [discriminate|].
    vm_compute in Hk, Hpn, Hpr, Hl.
    injection Hk as <-. injection Hpn as <-. injection Hpr as <-.
    injection Hl as <-. exact Hm.
Defined.

Lemma snrcut_sizes_witness :
  read_pk1d [] three_kbins (Some [2.5; 3.5]) None = inr None ∧
  read_pk1d [quiet_hdu] three_kbins (Some [2.5; 3.5]) None = inl ValueError.
Proof.
  apply (snrcut_sizes_checked_per_chunk three_kbins [2.5; 3.5] None
           quiet_hdu []).
  - simpl. lia.
  - discriminate.
  - eexists. vm_compute. reflexivity.
  - eexists. reflexivity.
  - eexists. reflexivity.
  - eexists. reflexivity.
Defined.

Definition three_hdus : list (Hdu float) := [quiet_hdu; noisy_hdu; quiet_hdu].

Definition three_hdus_table : P1DTable float :=
  match read_pk1d three_hdus three_kbins None None with
  | inr (Some (t, _)) => t
  | _ => {| cols := []; forest_id := []; sub_forest_id := None |}
  end.

Lemma three_hdus_run :
  read_pk1d three_hdus three_kbins None None
  = inr (Some (three_hdus_table, [2.3; 2.3])).
Proof. vm_compute. reflexivity. Qed.

Lemma read_pk1d_redshifts_witness :
  ∃ verdicts,
    Forall2 (fun hdu v => read_chunk three_kbins None None hdu = inr v)
            three_hdus verdicts ∧
    [2.3; 2.3] = omap (fmap snd) verdicts.
Proof.
  destruct (read_pk1d_redshifts three_hdus three_kbins None None _
              three_hdus_run) as (vs & Hvs & Hz & _).
  exists vs. split; [exact Hvs|exact Hz].
Defined.

(** *** Runs *)

(** The samples of the example without the identifier of their chunk. *)
Definition no_chunk_id : P1DTable float :=
  {| cols := cols three_chunks; forest_id := forest_id three_chunks;
     sub_forest_id := None |}.

Definition no_chunk_id_run : res (Output float) :=
  compute_mean_pk1d no_chunk_id [2; 2; 2] two_zbins three_kbins
                    "no_weights" false false false true.

Lemma no_chunk_id_run_returns :
  no_chunk_id_run = inr (returned empty_output no_chunk_id_run).
Proof. vm_compute. reflexivity. Qed.

(** The covariance is asked for and left out: the statistics are those
    of the example, there is no covariance table; with the identifiers
    the table is there. *)
Example no_chunk_id_run_table :
  out_cov_table (returned empty_output no_chunk_id_run) = None ∧
  out_mean_p1d_table (returned empty_output no_chunk_id_run)
  = out_mean_p1d_table (returned empty_output unweighted_run) ∧
  out_cov_table (returned empty_output unweighted_run) ≠ None.
Proof. vm_compute. split_and!; [reflexivity..|discriminate]. Qed.

Lemma covariance_left_out_witness :
  out_cov_table (returned empty_output no_chunk_id_run) = None ↔
  true = false ∨ sub_forest_id no_chunk_id = None ∨
  "no_weights" ≠ "no_weights" ∨ false = true.
Proof.
  apply (covariance_left_out no_chunk_id [2; 2; 2] two_zbins three_kbins
           "no_weights" false false false true _ no_chunk_id_run_returns).
Defined.


Definition unweighted_cov_table : CovTable float :=
  match out_cov_table (returned empty_output unweighted_run) with
  | Some ct => ct
  | None => {| cov_zbin := []; cov_index_zbin := []; cov_N := [];
               covariance := [] |}
  end.



Lemma one_worker_covariance_witness :
  let T := out_mean_p1d_table (returned empty_output unweighted_run) in
  let ct := {| cov_zbin := replicate 18 0; cov_index_zbin := replicate 18 0%Z;
               cov_N := replicate 18 0%Z; covariance := replicate 18 0 |} in
  covariance_loop_workers 1 three_chunks T [2; 3] two_zbins [3; 0]%Z
                          [0; 1; 0; 1; 0; 1]%Z 2 3 ct
  = inl TypeError ∧
  ∀ number_worker, (1 < number_worker)%Z →
    covariance_loop_workers number_worker three_chunks T [2; 3] two_zbins
                            [3; 0]%Z [0; 1; 0; 1; 0; 1]%Z 2 3 ct
    = covariance_loop three_chunks T [2; 3] two_zbins [3; 0]%Z
                      [0; 1; 0; 1; 0; 1]%Z 2 3 ct.
Proof.
  apply (one_worker_covariance_raises three_chunks _ [2; 3] two_zbins
           [2; 2; 2; 2; 2; 2]
           ["1_0"; "1_0"; "1_1"; "1_1"; "1_2"; "1_2"]);
    [reflexivity|reflexivity|reflexivity|lia|simpl; lia].
Defined.

(** On the example two workers compute the covariance table that one
    worker does not get to. *)
Example two_workers_covariance :
  let T := out_mean_p1d_table (returned empty_output unweighted_run) in
  let ct := {| cov_zbin := replicate 18 0; cov_index_zbin := replicate 18 0%Z;
               cov_N := replicate 18 0%Z; covariance := replicate 18 0 |} in
  covariance_loop_workers 2 three_chunks T [2; 3] two_zbins [3; 0]%Z
                          [0; 1; 0; 1; 0; 1]%Z 2 3 ct
  = inr unweighted_cov_table ∧
  covariance_loop_workers 0 three_chunks T [2; 3] two_zbins [3; 0]%Z
                          [0; 1; 0; 1; 0; 1]%Z 2 3 ct
  = inl ValueError.
Proof. vm_compute. split; reflexivity. Qed.

(** The empty table of statistics of the example. *)
Definition six_nan_rows : MeanTable float :=
  init_mean_table 6 (stats_array_of false) (colnames_stats three_chunks).

Definition filled_in_order : res (MeanTable float) :=
  foldM (fun T izbin =>
           fill_average_pk_redshift three_chunks (colnames_stats three_chunks)
             T "no_weights" false false 2 [2; 3] two_zbins [3; 0]%Z 3
             three_kbins izbin) six_nan_rows [0; 1]%nat.

Lemma filled_in_order_returns :
  filled_in_order = inr (returned empty_mean_table filled_in_order).
Proof. vm_compute. reflexivity. Qed.

Lemma aggregation_order_witness :
  foldM (fun T izbin =>
           fill_average_pk_redshift three_chunks (colnames_stats three_chunks)
             T "no_weights" false false 2 [2; 3] two_zbins [3; 0]%Z 3
             three_kbins izbin) six_nan_rows [1; 0]%nat
  = inr (returned empty_mean_table filled_in_order).
Proof.
  apply (aggregation_order three_chunks (colnames_stats three_chunks)
           "no_weights" false false 2 [2; 3] two_zbins [3; 0]%Z 3
           three_kbins [0; 1]%nat [1; 0]%nat six_nan_rows).
  - reflexivity.
  - apply perm_swap.
  - exact filled_in_order_returns.
Defined.

Lemma cell_count_witness :
  let T := out_mean_p1d_table (returned empty_output unweighted_run) in
  let t' := out_p1d_table (returned empty_output unweighted_run) in
  (3%Z = 0%Z → N T !! 0%nat = Some 0%Z) ∧
  (3%Z ≠ 0%Z → false = false →
   ∃ fz k, col_get t' "forest_z" = inr fz ∧ col_get t' "k" = inr k ∧
     N T !! 0%nat
     = Some (Z.of_nat (length (members two_zbins three_kbins 0 0 fz k)))).
Proof.
  apply (cell_count_is_number_of_members three_chunks [2; 2; 2] two_zbins
           three_kbins "no_weights" false false false true _ [3; 0]%Z
           0%nat 0%nat 3%Z unweighted_run_returns).
  - vm_compute. reflexivity.
  - simpl. lia.
  - simpl. lia.
  - reflexivity.
Defined.

Lemma cell_extrema_witness :
  let T := out_mean_p1d_table (returned empty_output unweighted_run) in
  let t' := out_p1d_table (returned empty_output unweighted_run) in
  ∃ select rw k,
    cell_selection t' false 2 (zbin_centers_of two_zbins) two_zbins
                   three_kbins 0 1 = inr (select, rw) ∧
    col_get t' "k" = inr k ∧
    (length (mask k select) ≠ 0%nat →
     ∀ col, col ∈ colnames_stats three_chunks →
       ∃ values minimum maximum,
         selected t' col select = inr values ∧
         np_min values = inr minimum ∧ np_max values = inr maximum ∧
         stat_at T ("min" +:+ col) 1 = Some minimum ∧
         stat_at T ("max" +:+ col) 1 = Some maximum ∧
         (false = false →
          stat_at T ("median" +:+ col) 1 = Some (np_median values))).
Proof.
  apply (cell_extrema_ignore_weights three_chunks [2; 2; 2] two_zbins
           three_kbins "no_weights" false false false true _ [3; 0]%Z
           0%nat 1%nat 3%Z unweighted_run_returns).
  - vm_compute. reflexivity.
  - simpl. lia.
  - simpl. lia.
  - reflexivity.
  - discriminate.
Defined.

Lemma z_weights_edge_bins_witness :
  select_bin three_chunks two_zbins three_kbins 0 0
  = inr [true; false; true; false; true; false].
Proof.
  apply (z_weights_edge_bins three_chunks 2 [2; 3] two_zbins three_kbins
           0%nat 0%nat _ [1; 1; 1]).
  - left. reflexivity.
  - vm_compute. reflexivity.
Defined.

Lemma z_weights_single_bin_witness :
  compute_mean_pk1d three_chunks [2; 2; 2] [1.5; 2.5] three_kbins
                    "no_weights" true false false false
  = inl IndexError.
Proof.
  apply (z_weights_single_redshift_bin three_chunks [2; 2; 2] 1.5 2.5
           three_kbins "no_weights" false false [3]%Z 3%Z).
  - simpl. lia.
  - vm_compute. reflexivity.
  - reflexivity.
  - discriminate.
Defined.

(** An environment for the fit on the signal-to-noise ratio: the
    standard deviation of the values of each bin of the ratio (NaN for
    a bin without value), and an optimiser that returns the
    coefficients [coef]. *)
Definition std_in_bins (x values edges : list float) : list float :=
  let nb := (length edges - 1)%nat in
  map (fun i =>
         match edges !! i, edges !! (i + 1)%nat with
         | Some lo, Some hi =>
             let inside :=
               map (fun v => PrimFloat.leb lo v &&
                             (PrimFloat.ltb v hi ||
                              ((i + 1 =? nb)%nat && PrimFloat.eqb v hi))) x in
             match mask values inside with
             | [] => nan
             | vs => np_std vs
             end
         | _, _ => nan
         end)
      (seq 0 nb).

Definition fitted_env (coef : float * float) : Env float :=
  {| ABSORBER_IGM_LYA := @ABSORBER_IGM_LYA float float_env;
     SPEED_LIGHT := @SPEED_LIGHT float float_env;
     MEANPK_FITRANGE_SNR := @MEANPK_FITRANGE_SNR float float_env;
     fitfunc_variance_pk1d := @fitfunc_variance_pk1d float float_env;
     binned_statistic_std :=
       fun x values edges => ret (std_in_bins x values edges);
     binned_statistic_count := @binned_statistic_count float float_env;
     curve_fit := fun _ _ _ => ret coef;
     np_around := @np_around float float_env |}.

Lemma fit_snr_drops_nan_witness :
  @stats_fit_snr float float_arith (fitted_env (1, 0.5)) false []
                 [1; nan; 3] [5; 6; 7]
  = @stats_fit_snr float float_arith (fitted_env (1, 0.5)) false []
                   [1; 3] [5; 7].
Proof.
  exact (@fit_snr_drops_nan float float_arith (fitted_env (1, 0.5)) []
           [1; nan; 3] [5; 6; 7] eq_refl).
Defined.

(** With these coefficients the weights of the two values that are
    left are [1 / (1/16 + 1/2)] and [1 / (1/36 + 1/2)], the mean lies
    between 1 and 3 and the error is a number; without the mask of
    lines 588-595 the NaN would reach both. *)
Example fit_snr_drops_nan_values :
  ∃ mean error,
    @stats_fit_snr float float_arith (fitted_env (1, 0.5)) false []
                   [1; nan; 3] [5; 6; 7] = inr (mean, error) ∧
    PrimFloat.ltb 1 mean = true ∧ PrimFloat.ltb mean 3 = true ∧
    PrimFloat.ltb 0 error = true ∧
    mean = ((1 * (1 / (1 / 16 + 0.5)) + 3 * (1 / (1 / 36 + 0.5)))
            / (1 / (1 / 16 + 0.5) + 1 / (1 / 36 + 0.5)))%float.
Proof. vm_compute. eexists _, _. split_and!; reflexivity. Qed.

(** *** The command line *)

Lemma float_arange_length : arange_length.
Proof.
  intros start stop step l Hl. unfold Script.np_arange, float_numpy in Hl.
  unfold float_arange in Hl.
  apply sbind_inr in Hl as (q & Hq & Hl).
  apply sbind_inr in Hl as (n & Hn & Hl).
  injection Hl as <-. unfold Script.py_truediv in Hq.
  destruct (PrimFloat.eqb step 0); [discriminate|]. injection Hq as <-.
  exists n. split; [exact Hn|]. rewrite length_map, length_seq. reflexivity.
Qed.

(** The default command line with the cut on the signal-to-noise
    ratio. *)
Definition with_snr_cut : Script.Args :=
  {| Script.in_dir := "data"; Script.output_file := None;
     Script.zedge_min := 2.1; Script.zedge_max := 6.5;
     Script.zedge_bin := 0.2;
     Script.kedge_min := None; Script.kedge_max := None;
     Script.kedge_bin := None;
     Script.rebinfac := 1; Script.pixsize := 0.8;
     Script.weight_method := "no_weights"; Script.output_snrfit := None;
     Script.apply_mean_snr_cut := true; Script.snr_cut_scheme := "eboss";
     Script.overwrite := false; Script.velunits := false;
     Script.no_median := false; Script.old_output := false;
     Script.ncpu := 8 |}.

Definition no_call : Script.Call :=
  {| Script.oldoutput := false; Script.data_dir := "";
     Script.call_output_file := ""; Script.zbin_edges := [];
     Script.kbin_edges := []; Script.call_weight_method := "";
     Script.call_output_snrfit := None; Script.snrcut := None;
     Script.zbins_snrcut := None; Script.nomedians := false;
     Script.call_velunits := false; Script.call_overwrite := false;
     Script.call_ncpu := 0 |}.

Definition with_snr_cut_call : Script.Call :=
  match Script.main with_snr_cut with
  | inr call => call
  | inl _ => no_call
  end.

Lemma with_snr_cut_returns : Script.main with_snr_cut = inr with_snr_cut_call.
Proof. vm_compute. reflexivity. Qed.

Example with_snr_cut_file :
  Script.call_output_file with_snr_cut_call
  = "data/mean_Pk1d_no_weights_medians_snr_cut.fits.gz" ∧
  length (Script.zbin_edges with_snr_cut_call) = 22%nat ∧
  length (Script.kbin_edges with_snr_cut_call) = 103%nat.
Proof. vm_compute. auto. Qed.

Lemma cut_of_the_script_witness :
  (Script.snrcut with_snr_cut_call = None ↔ true = false) ∧
  (true = true →
   Script.call_weight_method with_snr_cut_call = "no_weights" ∧
   ∃ cuts zbins,
     Script.snrcut with_snr_cut_call = Some cuts ∧
     Script.zbins_snrcut with_snr_cut_call = Some zbins ∧
     length cuts = 21%nat ∧ length zbins = 21%nat ∧
     ∀ meanz, returns (snrcut_chunk_of cuts (Some zbins) meanz)).
Proof.
  apply (cut_of_the_script with_snr_cut with_snr_cut_call
           float_arange_length with_snr_cut_returns).
Defined.

Lemma run_without_weights_witness :
  returns (compute_mean_pk1d three_chunks [2; 2; 2] two_zbins three_kbins
                             "no_weights" false false false true).
Proof.
  eapply (run_without_weights_returns three_chunks [2; 2; 2] two_zbins
           three_kbins _ _ _ false true [3; 0]%Z);
    try reflexivity; try discriminate.
  - intros name c. unfold three_chunks. cbn [cols alist_get].
    repeat (destruct (String.eqb _ name); [intros [= <-]; reflexivity|]).
    discriminate.
  - intros ids [= <-]. reflexivity.
Defined.
End Witnesses.
